(** * cbsummary: polling Couchbase clusters and assembling the summary report

    A shallow embedding of the cluster-polling and report-assembly engine of
    cbsummary: the REST client with its error types ([executeRequest],
    [GetPoolsData], [GetPoolsDefaultData]), the node fail-over loop and the
    report assembly of [main], and the two renderers (JSON tree and
    tab-separated text).

    Conventions.
    - Go's [int] is a 64-bit two's complement integer: arithmetic on it is
      written with [wrap64].  [len] of a slice is the (unwrapped) length.
    - Go's [float64] is Rocq's primitive binary64 [float].
    - Go's [map[string]int] is a [gmap string Z]; a missing key reads 0.
    - A Go slice decoded from JSON may be [nil]; [slice] keeps the
      distinction because the JSON encoder prints [null] for it.
    - The program's effects (standard output, HTTP requests, file access) are
      threaded through a state monad [M] whose state holds the outside world
      and the log of effects performed so far. *)

From Stdlib Require Import ZArith String Ascii Floats.PrimFloat Floats.SpecFloat
  Floats.FloatOps.
From stdpp Require Import gmap strings list fin_maps pretty sorting.

Local Open Scope Z_scope.
Set Warnings "-register-all".

(** ** Go integers *)

Module goint.

Definition min_int : Z := - 2 ^ 63.
Definition max_int : Z := 2 ^ 63 - 1.

(** Reduction of a mathematical integer to the value of a Go [int]. *)
Definition wrap64 (z : Z) : Z := (z + 2 ^ 63) `mod` 2 ^ 64 - 2 ^ 63.

(** [a + b] on Go's [int]. *)
Definition add (a b : Z) : Z := wrap64 (a + b).

(** [len(s)]: the length of a slice, as an [int]. *)
Definition len {A} (l : list A) : Z := Z.of_nat (length l).

End goint.

(** ** Strings and formatting *)

Module gostr.

Definition nl : string := String "010"%char EmptyString.
Definition tab : string := String "009"%char EmptyString.
Definition dq : string := String "034"%char EmptyString.

(** Go's [<] on strings: byte-wise lexicographic order. *)
Fixpoint less (a b : string) : bool :=
  match a, b with
  | EmptyString, EmptyString => false
  | EmptyString, String _ _ => true
  | String _ _, EmptyString => false
  | String x a', String y b' =>
      if (N_of_ascii x <? N_of_ascii y)%N then true
      else if (N_of_ascii y <? N_of_ascii x)%N then false
      else less a' b'
  end.

(** [strings.Join(elems, sep)]. *)
Fixpoint Join (elems : list string) (sep : string) : string :=
  match elems with
  | [] => EmptyString
  | [x] => x
  | x :: rest => x +:+ sep +:+ Join rest sep
  end.

(** [strings.HasPrefix(s, p)]. *)
Fixpoint HasPrefix (s p : string) : bool :=
  match p, s with
  | EmptyString, _ => true
  | String _ _, EmptyString => false
  | String y p', String x s' => if Ascii.eqb x y then HasPrefix s' p' else false
  end.

(** [strings.Contains(s, sub)]. *)
Fixpoint Contains (s sub : string) : bool :=
  HasPrefix s sub ||
  match s with
  | EmptyString => false
  | String _ s' => Contains s' sub
  end.

(** [strings.Split(s, "\t")]: the fields between the tabs of [s]. *)
Fixpoint split_tabs (s : string) : list string :=
  match s with
  | EmptyString => [EmptyString]
  | String c s' =>
      if Ascii.eqb c "009"%char then EmptyString :: split_tabs s'
      else match split_tabs s' with
           | field :: fields => String c field :: fields
           | [] => [String c EmptyString]
           end
  end.

(** [!strings.Contains(s, "\t")]. *)
Fixpoint no_tab (s : string) : bool :=
  match s with
  | EmptyString => true
  | String c s' => negb (Ascii.eqb c "009"%char) && no_tab s'
  end.

(** [%d]. *)
Definition fmt_d (z : Z) : string := pretty z.

Fixpoint zeros (n : nat) : string :=
  match n with O => EmptyString | S n' => String "0"%char (zeros n') end.

(** [%0wd]: the sign counts towards the width, zeros pad the digits. *)
Definition fmt_0d (w : nat) (z : Z) : string :=
  let sign := if z <? 0 then "-" else EmptyString in
  let digs := pretty (Z.abs z) in
  sign +:+ zeros (w - String.length sign - String.length digs) +:+ digs.

(** The integer nearest to [m * 2^e], ties to the even one. *)
Definition round_half_even (m e : Z) : Z :=
  if 0 <=? e then m * 2 ^ e
  else
    let d := 2 ^ (- e) in
    let q := m `div` d in
    let r := m `mod` d in
    if 2 * r <? d then q
    else if d <? 2 * r then q + 1
    else if Z.even q then q else q + 1.

(** [%.1f] on a [float64]: the exact binary value rounded to one decimal
    (ties to even), an integer part of at least one digit, a dot and one
    digit; a leading [-] for negative numbers and for negative zero;
    [NaN], [+Inf] and [-Inf] for the special values. *)
Definition fmt_f1 (f : float) : string :=
  match Prim2SF f with
  | S754_nan => "NaN"
  | S754_infinity false => "+Inf"
  | S754_infinity true => "-Inf"
  | S754_zero s => (if s then "-" else EmptyString) +:+ "0.0"
  | S754_finite s m e =>
      let n := round_half_even (Z.pos m * 10) e in
      (if s then "-" else EmptyString) +:+ pretty (n `div` 10) +:+ "." +:+ pretty (n `mod` 10)
  end.

End gostr.

(** ** Go slices that may be nil *)

Inductive slice (A : Type) : Type :=
| nil_slice
| mk_slice (elems : list A).
Arguments nil_slice {A}.
Arguments mk_slice {A} elems.

(** The elements a [range] loop visits; [len] is their number. *)
Definition elems {A} (s : slice A) : list A :=
  match s with
  | nil_slice => []
  | mk_slice l => l
  end.

(** ** Errors

    The dynamic type of a Go [error] value.  Errors made by the libraries
    carry the text their [Error()] method returns. *)

Inductive LibErrorType :=
| x509_UnknownAuthorityError
| x509_CertificateInvalidError
| x509_ConstraintViolationError
| x509_HostnameError
| x509_SystemRootsError
| x509_UnhandledCriticalExtension
| other_library_error.

Inductive GoError :=
| url_Error (text : string) (Err : GoError)
| lib_error (ty : LibErrorType) (text : string)
| RestClientError (method url : string) (err : GoError)
| ServiceNotAvailableError (service : string)
| SSLNotAvailableError (service : string)
| UnknownAuthorityError (err : GoError)
| HttpError (code : Z) (method resource body : string).

Module http.
Definition StatusOK : Z := 200.
Definition StatusCreated : Z := 201.
Definition StatusAccepted : Z := 202.
Definition StatusBadRequest : Z := 400.
Definition StatusUnauthorized : Z := 401.
Definition StatusForbidden : Z := 403.
Definition StatusInternalServerError : Z := 500.
End http.

Definition ssl_guidance : string :=
  gostr.nl +:+ gostr.nl +:+ "If you are using self-signed certificates you can "
  +:+ "re-run this command with" +:+ gostr.nl +:+ "the --no-ssl-verify flag. Note however that"
  +:+ " disabling ssl verification" +:+ gostr.nl +:+ "means that cbbackupmgr will be vulnerable"
  +:+ " to man-in-the-middle attacks." +:+ gostr.nl +:+ gostr.nl
  +:+ "For the most secure access to Couchbase"
  +:+ " make sure that you have X.509" +:+ gostr.nl +:+ "certificates set up in your cluster and"
  +:+ " use the --cacert flag to specify" +:+ gostr.nl +:+ "your client certificate.".

Definition HttpError_Error (code : Z) (method resource body : string) : string :=
  if code =? http.StatusBadRequest then
    "Bad request executing " +:+ method +:+ " " +:+ resource +:+ " due to " +:+ body
  else if code =? http.StatusUnauthorized then
    "Authentication error executing " +:+ gostr.dq +:+ method +:+ " " +:+ resource
    +:+ gostr.dq +:+ " " +:+ "check username and password"
  else if code =? http.StatusForbidden then
    body
  else if code =? http.StatusInternalServerError then
    "Internal server error while executing " +:+ gostr.dq +:+ method +:+ " " +:+ resource
    +:+ gostr.dq +:+ " " +:+ "check the server logs for more details"
  else
    "Recieved error " +:+ gostr.fmt_d code +:+ " while executing " +:+ gostr.dq
    +:+ method +:+ " " +:+ resource +:+ gostr.dq.

(** The [Error()] method of each error type. *)
Fixpoint Error (e : GoError) : string :=
  match e with
  | url_Error text _ => text
  | lib_error _ text => text
  | RestClientError method url err =>
      "Rest client error (" +:+ method +:+ " " +:+ url +:+ "): " +:+ Error err
  | ServiceNotAvailableError service =>
      "Service `" +:+ service +:+ "` is not available on target cluster"
  | SSLNotAvailableError service =>
      "SSL is not available for `" +:+ service +:+ "` on target cluster"
  | UnknownAuthorityError err => Error err +:+ ssl_guidance
  | HttpError code method resource body => HttpError_Error code method resource body
  end.

(** ** Data model *)

(** One configured cluster, as read from the configuration file. *)
Module Cluster.
Record t := mk {
  Login : string;   (* json: login *)
  Pass : string;    (* json: pass *)
  Nodes : slice string   (* json: nodes *)
}.
End Cluster.

Module ClusterList.
Record t := mk { Clusters : slice Cluster.t }.
End ClusterList.

(** The answer of [/pools]. *)
Module ComponentsVersion.
Record t := mk {
  Ale : string; Asn1 : string; Crypto : string; Inets : string;
  Kernel : string; Lhttpc : string; Ns_server : string; Os_mon : string;
  Public_key : string; Sasl : string; Ssl : string; Stdlib : string
}.
End ComponentsVersion.

Module Pools.
Record t := mk {
  Components : ComponentsVersion.t;
  ImplementationVersion : string;
  IsEnterprise : bool;
  Uuid : string
}.
End Pools.

Module NodeStats.
Record t := mk {
  Cmd_get : float;
  Couch_docs_actual_disk_size : float;
  Couch_docs_data_size : float;
  Couch_spatial_data_size : float;
  Couch_spatial_disk_size : float;
  Couch_views_actual_disk_size : float;
  Couch_views_data_size : float;
  Curr_items : float;
  Curr_items_tot : float;
  Ep_bg_fetched : float;
  Get_hits : float;
  Mem_used : float;
  Ops : float;
  Vb_active_num_non_resident : float;
  Vb_replica_curr_items : float
}.
End NodeStats.

(** Modelled from the spec: the field [CPU_cores_available] that [main] reads
    is missing from the declaration of [SysStats] at hand; it is the
    [cpuCoresAvailable: float] of the spec's NodeInfo, filled from the key
    [cpu_cores_available] and left at zero when the server does not send
    it. *)
Module SysStats.
Record t := mk {
  CPU_cores_available : float;
  Cpu_utilization_rate : float;
  Mem_free : float;
  Mem_total : float;
  Swap_total : float;
  Swap_used : float
}.
End SysStats.

Module NodeInfo.
Record t := mk {
  ClusterMembership : string;
  Hostname : string;
  InterestingStats : NodeStats.t;
  McdMemoryAllocated : float;
  McdMemoryReserved : float;
  MemoryFree : float;
  MemoryTotal : float;
  OS : string;
  Services : slice string;
  Status : string;
  SystemStats : SysStats.t;
  Uptime : string;
  Version : string
}.
End NodeInfo.

Module HDDStorageInfo.
Record t := mk {
  Free : float; QuotaTotal : float; Total : float; Used : float; UsedByData : float
}.
End HDDStorageInfo.

Module RAMStorageInfo.
Record t := mk {
  QuotaTotal : float; QuotaTotalPerNode : float; QuotaUsed : float;
  QuotaUsedPerNode : float; Total : float; Used : float; UsedByData : float
}.
End RAMStorageInfo.

Module ClusterStorageInfo.
Record t := mk { HDD : HDDStorageInfo.t; RAM : RAMStorageInfo.t }.
End ClusterStorageInfo.

(** The answer of [/pools/default]; [Alerts] keeps the raw JSON texts. *)
Module PoolsDefault.
Record t := mk {
  Alerts : slice string;
  Balanced : bool;
  ClusterName : string;
  FtsMemoryQuota : Z;
  IndexMemoryQuota : Z;
  MemoryQuota : Z;
  Name : string;
  Nodes : slice NodeInfo.t;
  RebalanceStatus : string;
  StorageTotals : ClusterStorageInfo.t
}.
End PoolsDefault.

(** The record of a cluster in a full report. *)
Module ClusterSummary.
Record t := mk {
  ImplementationVersion : string;
  IsEnterprise : bool;
  Uuid : string;
  Balanced : bool;
  ClusterName : string;
  FtsMemoryQuota : Z;
  IndexMemoryQuota : Z;
  MemoryQuota : Z;
  Name : string;
  NodeCount : Z;
  NodeVersions : gmap string Z;
  Nodes : slice NodeInfo.t;
  RebalanceStatus : string;
  StorageTotals : ClusterStorageInfo.t
}.
End ClusterSummary.

(** The records of a brief report. *)
Module BriefNode.
Record t := mk {
  Cores : float;     (* json: cpu_cores_available *)
  RAM : float;       (* json: mem_total *)
  Name : string;     (* json: hostname *)
  Version : string   (* json: version *)
}.
End BriefNode.

Module BriefCluster.
Record t := mk {
  Nodes : list BriefNode.t;   (* json: nodes; made by [make], never nil *)
  Size : Z;                   (* json: cluster_size *)
  UUID : string               (* json: cluster_uuid *)
}.
End BriefCluster.

(** The record of a cluster no node of which answered. *)
Module ClusterError.
Record t := mk {
  TheCluster : Cluster.t;   (* json: error_with_cluster *)
  ErrMsg : string           (* json: error_message *)
}.
End ClusterError.

(** What a slot of [SummaryInfo.Clusters] (an [interface{}]) holds: nothing
    yet, or a pointer to one of the three record types. *)
Inductive ClusterRecord :=
| NilRecord
| FullRecord (c : ClusterSummary.t)
| BriefRecord (b : BriefCluster.t)
| ErrorRecord (e : ClusterError.t).

Module SummaryInfo.
Record t := mk {
  NumClusters : Z;                (* json: #clusters *)
  TotalNumNodes : Z;              (* json: #nodes *)
  NodeVersions : gmap string Z;   (* json: #nodeVersions *)
  Clusters : list ClusterRecord   (* json: clusters *)
}.
End SummaryInfo.

(** [m[k]] on a [map[string]int]: a missing key reads as 0. *)
Definition map_get (m : gmap string Z) (k : string) : Z := default 0 (m !! k).

(** [m[k] = m[k] + 1]. *)
Definition map_incr (m : gmap string Z) (k : string) : gmap string Z :=
  <[k := goint.add (map_get m k) 1]> m.

(** ** JSON output

    [json.MarshalIndent] is modelled up to the syntax tree it prints: the
    keys are those of the struct tags, in the order of the fields; a map is
    printed with its keys sorted; a nil slice is printed as [null]. *)

Inductive json :=
| JNull
| JBool (b : bool)
| JInt (z : Z)
| JFloat (f : float)
| JString (s : string)
| JArray (items : list json)
| JObject (fields : list (string * json)).

Module marshal.

Definition strings (s : slice string) : json :=
  match s with
  | nil_slice => JNull
  | mk_slice l => JArray (map JString l)
  end.

Definition key_le : relation (string * Z) := λ a b, gostr.less b.1 a.1 = false.

#[local] Instance key_le_dec : RelDecision key_le.
Proof. intros a b. unfold key_le. apply _. Defined.

Definition counts (m : gmap string Z) : json :=
  JObject (map (λ kv, (kv.1, JInt kv.2)) (merge_sort key_le (map_to_list m))).

Definition Cluster (c : Cluster.t) : json :=
  JObject [("login", JString (Cluster.Login c));
           ("pass", JString (Cluster.Pass c));
           ("nodes", strings (Cluster.Nodes c))].

Definition ClusterError (e : ClusterError.t) : json :=
  JObject [("error_with_cluster", Cluster (ClusterError.TheCluster e));
           ("error_message", JString (ClusterError.ErrMsg e))].

Definition BriefNode (n : BriefNode.t) : json :=
  JObject [("cpu_cores_available", JFloat (BriefNode.Cores n));
           ("mem_total", JFloat (BriefNode.RAM n));
           ("hostname", JString (BriefNode.Name n));
           ("version", JString (BriefNode.Version n))].

Definition BriefCluster (b : BriefCluster.t) : json :=
  JObject [("nodes", JArray (map BriefNode (BriefCluster.Nodes b)));
           ("cluster_size", JInt (BriefCluster.Size b));
           ("cluster_uuid", JString (BriefCluster.UUID b))].

Definition NodeStats (s : NodeStats.t) : json :=
  JObject [("cmd_get", JFloat (NodeStats.Cmd_get s));
           ("couch_docs_actual_disk_size", JFloat (NodeStats.Couch_docs_actual_disk_size s));
           ("couch_docs_data_size", JFloat (NodeStats.Couch_docs_data_size s));
           ("couch_spatial_data_size", JFloat (NodeStats.Couch_spatial_data_size s));
           ("couch_spatial_disk_size", JFloat (NodeStats.Couch_spatial_disk_size s));
           ("couch_views_actual_disk_size", JFloat (NodeStats.Couch_views_actual_disk_size s));
           ("couch_views_data_size", JFloat (NodeStats.Couch_views_data_size s));
           ("curr_items", JFloat (NodeStats.Curr_items s));
           ("curr_items_tot", JFloat (NodeStats.Curr_items_tot s));
           ("ep_bg_fetched", JFloat (NodeStats.Ep_bg_fetched s));
           ("get_hits", JFloat (NodeStats.Get_hits s));
           ("mem_used", JFloat (NodeStats.Mem_used s));
           ("ops", JFloat (NodeStats.Ops s));
           ("vb_active_num_non_resident", JFloat (NodeStats.Vb_active_num_non_resident s));
           ("vb_replica_curr_items", JFloat (NodeStats.Vb_replica_curr_items s))].

Definition SysStats (s : SysStats.t) : json :=
  JObject [("cpu_cores_available", JFloat (SysStats.CPU_cores_available s));
           ("cpu_utilization_rate", JFloat (SysStats.Cpu_utilization_rate s));
           ("mem_free", JFloat (SysStats.Mem_free s));
           ("mem_total", JFloat (SysStats.Mem_total s));
           ("swap_total", JFloat (SysStats.Swap_total s));
           ("swap_used", JFloat (SysStats.Swap_used s))].

Definition NodeInfo (n : NodeInfo.t) : json :=
  JObject [("clusterMembership", JString (NodeInfo.ClusterMembership n));
           ("hostname", JString (NodeInfo.Hostname n));
           ("interestingStats", NodeStats (NodeInfo.InterestingStats n));
           ("mcdMemoryAllocated", JFloat (NodeInfo.McdMemoryAllocated n));
           ("mcdMemoryReserved", JFloat (NodeInfo.McdMemoryReserved n));
           ("memoryFree", JFloat (NodeInfo.MemoryFree n));
           ("memoryTotal", JFloat (NodeInfo.MemoryTotal n));
           ("os", JString (NodeInfo.OS n));
           ("services", strings (NodeInfo.Services n));
           ("status", JString (NodeInfo.Status n));
           ("systemStats", SysStats (NodeInfo.SystemStats n));
           ("uptime", JString (NodeInfo.Uptime n));
           ("version", JString (NodeInfo.Version n))].

Definition NodeInfos (s : slice NodeInfo.t) : json :=
  match s with
  | nil_slice => JNull
  | mk_slice l => JArray (map NodeInfo l)
  end.

(** The tag of [HDDStorageInfo.QuotaTotal] names no key: the encoder falls
    back on the field's name. *)
Definition HDDStorageInfo (h : HDDStorageInfo.t) : json :=
  JObject [("free", JFloat (HDDStorageInfo.Free h));
           ("QuotaTotal", JFloat (HDDStorageInfo.QuotaTotal h));
           ("total", JFloat (HDDStorageInfo.Total h));
           ("used", JFloat (HDDStorageInfo.Used h));
           ("usedByData", JFloat (HDDStorageInfo.UsedByData h))].

Definition RAMStorageInfo (r : RAMStorageInfo.t) : json :=
  JObject [("quotaTotal", JFloat (RAMStorageInfo.QuotaTotal r));
           ("quotaTotalPerNode", JFloat (RAMStorageInfo.QuotaTotalPerNode r));
           ("quotaUsed", JFloat (RAMStorageInfo.QuotaUsed r));
           ("quataUsedPerNode", JFloat (RAMStorageInfo.QuotaUsedPerNode r));
           ("total", JFloat (RAMStorageInfo.Total r));
           ("used", JFloat (RAMStorageInfo.Used r));
           ("usedByData", JFloat (RAMStorageInfo.UsedByData r))].

Definition ClusterStorageInfo (c : ClusterStorageInfo.t) : json :=
  JObject [("hdd", HDDStorageInfo (ClusterStorageInfo.HDD c));
           ("ram", RAMStorageInfo (ClusterStorageInfo.RAM c))].

Definition ClusterSummary (c : ClusterSummary.t) : json :=
  JObject [("implementationVersion", JString (ClusterSummary.ImplementationVersion c));
           ("isEnterprise", JBool (ClusterSummary.IsEnterprise c));
           ("uuid", JString (ClusterSummary.Uuid c));
           ("balanced", JBool (ClusterSummary.Balanced c));
           ("clusterName", JString (ClusterSummary.ClusterName c));
           ("ftsMemoryQuota", JInt (ClusterSummary.FtsMemoryQuota c));
           ("indexMemoryQuota", JInt (ClusterSummary.IndexMemoryQuota c));
           ("memoryQuota", JInt (ClusterSummary.MemoryQuota c));
           ("name", JString (ClusterSummary.Name c));
           ("nodeCount", JInt (ClusterSummary.NodeCount c));
           ("nodeVersions", counts (ClusterSummary.NodeVersions c));
           ("nodes", NodeInfos (ClusterSummary.Nodes c));
           ("rebalanceStatus", JString (ClusterSummary.RebalanceStatus c));
           ("storageTotals", ClusterStorageInfo (ClusterSummary.StorageTotals c))].

(** A slot of type [interface{}] is printed as the value it holds. *)
Definition ClusterRecord (r : ClusterRecord) : json :=
  match r with
  | NilRecord => JNull
  | FullRecord c => ClusterSummary c
  | BriefRecord b => BriefCluster b
  | ErrorRecord e => ClusterError e
  end.

Definition SummaryInfo (s : SummaryInfo.t) : json :=
  JObject [("#clusters", JInt (SummaryInfo.NumClusters s));
           ("#nodes", JInt (SummaryInfo.TotalNumNodes s));
           ("#nodeVersions", counts (SummaryInfo.NodeVersions s));
           ("clusters", JArray (map ClusterRecord (SummaryInfo.Clusters s)))].

(** The encoder refuses NaN and the infinities. *)
Definition float_ok (f : float) : bool :=
  match Prim2SF f with
  | S754_nan | S754_infinity _ => false
  | _ => true
  end.

Fixpoint encodable (j : json) : bool :=
  match j with
  | JFloat f => float_ok f
  | JArray items => forallb encodable items
  | JObject fields => forallb (λ kv, encodable kv.2) fields
  | _ => true
  end.

(** [json.MarshalIndent(s, EmptyString, "  ")]: the tree, or the encoder's error. *)
Definition MarshalIndent (s : SummaryInfo.t) : json + GoError :=
  let j := SummaryInfo s in
  if encodable j then inl j
  else inr (lib_error other_library_error "json: unsupported value").

End marshal.

(** Reading a JSON tree: the value under a key, the item at an index. *)
Definition json_field (k : string) (j : json) : option json :=
  match j with
  | JObject fields => (λ found, found.2.2) <$> list_find (λ kv, kv.1 = k) fields
  | _ => None
  end.

Definition json_item (i : nat) (j : json) : option json :=
  match j with
  | JArray items => items !! i
  | _ => None
  end.

(** The value at the end of a path of keys and indices. *)
Fixpoint json_path (p : list (string + nat)) (j : json) : option json :=
  match p with
  | [] => Some j
  | inl k :: p' => json_field k j ≫= json_path p'
  | inr i :: p' => json_item i j ≫= json_path p'
  end.

(** ** The outside world *)

Record Request := mk_Request {
  Method : string;
  URL : string;
  BasicAuth : option (string * string)
}.

Record Response (B : Type) := mk_Response {
  StatusCode : Z;
  Body : B
}.
Arguments mk_Response {B}.
Arguments StatusCode {B}.
Arguments Body {B}.

Record Time := mk_Time {
  Year : Z; Month : Z; Day : Z; Hour : Z; Minute : Z; Second : Z
}.

(** What [ioutil.WriteFile] receives: the tab-separated text, or the JSON
    document given by its tree. *)
Inductive FileBody :=
| CsvBody (text : string)
| JsonBody (tree : json).

(** The libraries and the environment the program runs against: the network
    behind [http.Client.Do], the JSON decoders, the file system and the
    clock.  [URL_String u] is [req.URL.String()] for a request made from
    [u]. *)
Class Platform := {
  World : Type;
  body : Type;
  NewRequest_check : string → string → option GoError;
  URL_String : string → string;
  client_Do : World → Request → World * (Response body + GoError);
  ioutil_ReadAll : body → string + GoError;
  Decode_overlay : body → (string * list string) + GoError;
  Decode_Pools : body → Pools.t + GoError;
  Decode_PoolsDefault : body → PoolsDefault.t + GoError;
  ioutil_ReadFile : World → string → World * (string + GoError);
  Unmarshal_ClusterList : string → ClusterList.t + GoError;
  time_Now : World → World * Time;
  ioutil_WriteFile : World → string → FileBody → Z → World * option GoError
}.

(** The effects the program performs, in the order it performs them. *)
Inductive Event :=
| EvPrint (text : string)
| EvHttp (req : Request)
| EvReadFile (name : string)
| EvNow
| EvWriteFile (name : string) (content : FileBody).

Record RestClient := mk_RestClient {
  secure : bool;
  host : string;
  username : string;
  password : string
}.

(** [CreateRestClient(host, username, password, nil)]. *)
Definition CreateRestClient (host username password : string) : RestClient :=
  {| secure := gostr.HasPrefix host "https://";
     host := host; username := username; password := password |}.

Section Program.
Context `{Platform}.

Record St := mk_St { world : World; log : list Event }.

Definition M (A : Type) : Type := St → A * St.

#[export] Instance M_ret : MRet M := λ A a st, (a, st).
#[export] Instance M_bind : MBind M := λ A B f m st, let (a, st') := m st in f a st'.

Definition emit (e : Event) (st : St) : St :=
  {| world := world st; log := log st ++ [e] |}.

Definition Printf (text : string) : M unit := λ st, (tt, emit (EvPrint text) st).

Definition Do (req : Request) : M (Response body + GoError) := λ st,
  let (w, r) := client_Do (world st) req in
  (r, {| world := w; log := log st ++ [EvHttp req] |}).

Definition ReadFile (name : string) : M (string + GoError) := λ st,
  let (w, r) := ioutil_ReadFile (world st) name in
  (r, {| world := w; log := log st ++ [EvReadFile name] |}).

Definition Now : M Time := λ st,
  let (w, t) := time_Now (world st) in
  (t, {| world := w; log := log st ++ [EvNow] |}).

Definition WriteFile (name : string) (content : FileBody) (perm : Z) : M (option GoError) :=
  λ st,
  let (w, r) := ioutil_WriteFile (world st) name content perm in
  (r, {| world := w; log := log st ++ [EvWriteFile name content] |}).

(** *** The REST client *)

(** The type switch of [executeRequest] on the error of [client.Do]. *)
Definition classify_transport_error (req : Request) (err : GoError) : GoError :=
  match err with
  | url_Error _ Err => Err
  | lib_error x509_UnknownAuthorityError _ => UnknownAuthorityError err
  | lib_error x509_CertificateInvalidError _ => err
  | lib_error x509_ConstraintViolationError _ => err
  | lib_error x509_HostnameError _ => err
  | lib_error x509_SystemRootsError _ => err
  | lib_error x509_UnhandledCriticalExtension _ => err
  | _ => RestClientError (Method req) (URL_String (URL req)) err
  end.

Definition executeRequest (r : RestClient) (req : Request) : M (Response body + GoError) :=
  res ← Do req;
  match res with
  | inr err => mret (inr (classify_transport_error req err))
  | inl resp =>
      if StatusCode resp =? http.StatusBadRequest then
        let contents :=
          match ioutil_ReadAll (Body resp) with
          | inl contents => contents
          | inr _ => "<no body>"
          end in
        mret (inr (HttpError (StatusCode resp) (Method req) (URL_String (URL req)) contents))
      else if StatusCode resp =? http.StatusForbidden then
        match Decode_overlay (Body resp) with
        | inr _ =>
            mret (inr (HttpError (StatusCode resp) (Method req) (URL_String (URL req)) EmptyString))
        | inl (Message, Permissions) =>
            let msg := Message +:+ ": " +:+ gostr.Join Permissions ", " in
            mret (inr (HttpError (StatusCode resp) (Method req) (URL_String (URL req)) msg))
        end
      else if negb (StatusCode resp =? http.StatusOK)
              && negb (StatusCode resp =? http.StatusAccepted)
              && negb (StatusCode resp =? http.StatusCreated) then
        mret (inr (HttpError (StatusCode resp) (Method req) (URL_String (URL req)) EmptyString))
      else mret (inl resp)
  end.

Definition executeGet (r : RestClient) (uri : string) : M (Response body + GoError) :=
  let method := "GET" in
  match NewRequest_check method uri with
  | Some err => mret (inr (RestClientError method uri err))
  | None =>
      let req := {| Method := method; URL := uri;
                    BasicAuth := Some (username r, password r) |} in
      executeRequest r req
  end.

Definition GetPoolsData (r : RestClient) : M (Pools.t + GoError) :=
  let url := host r +:+ "/pools" in
  res ← executeGet r url;
  match res with
  | inr err => mret (inr err)
  | inl resp =>
      match Decode_Pools (Body resp) with
      | inr err => mret (inr (RestClientError "GET" url err))
      | inl data => mret (inl data)
      end
  end.

Definition GetPoolsDefaultData (r : RestClient) : M (PoolsDefault.t + GoError) :=
  let url := host r +:+ "/pools/default" in
  res ← executeGet r url;
  match res with
  | inr err => mret (inr err)
  | inl resp =>
      match Decode_PoolsDefault (Body resp) with
      | inr err => mret (inr (RestClientError "GET" url err))
      | inl resultMap => mret (inl resultMap)
      end
  end.

(** *** Report assembly: the cluster loop of [main] *)

(** The variables of the node loop: the summary under construction, the two
    record pointers (nil until a node answered) and the last error. *)
Record LoopState := mk_LoopState {
  summary : SummaryInfo.t;
  thisCluster : option ClusterSummary.t;
  briefCluster : option BriefCluster.t;
  cerr : option GoError
}.

Definition set_cluster (s : SummaryInfo.t) (cnum : nat) (r : ClusterRecord) : SummaryInfo.t :=
  {| SummaryInfo.NumClusters := SummaryInfo.NumClusters s;
     SummaryInfo.TotalNumNodes := SummaryInfo.TotalNumNodes s;
     SummaryInfo.NodeVersions := SummaryInfo.NodeVersions s;
     SummaryInfo.Clusters := <[cnum := r]> (SummaryInfo.Clusters s) |}.

Definition add_nodes (s : SummaryInfo.t) (n : Z) : SummaryInfo.t :=
  {| SummaryInfo.NumClusters := SummaryInfo.NumClusters s;
     SummaryInfo.TotalNumNodes := goint.add (SummaryInfo.TotalNumNodes s) n;
     SummaryInfo.NodeVersions := SummaryInfo.NodeVersions s;
     SummaryInfo.Clusters := SummaryInfo.Clusters s |}.

Definition set_versions (s : SummaryInfo.t) (m : gmap string Z) : SummaryInfo.t :=
  {| SummaryInfo.NumClusters := SummaryInfo.NumClusters s;
     SummaryInfo.TotalNumNodes := SummaryInfo.TotalNumNodes s;
     SummaryInfo.NodeVersions := m;
     SummaryInfo.Clusters := SummaryInfo.Clusters s |}.

(** Full report: the loop that counts each node's version in the cluster's
    own map and in the fleet's map. *)
Definition count_both (nodes : list NodeInfo.t) (nodeVersions fleet : gmap string Z)
  : gmap string Z * gmap string Z :=
  foldl (λ acc nodeInfo,
           (map_incr acc.1 (NodeInfo.Version nodeInfo),
            map_incr acc.2 (NodeInfo.Version nodeInfo)))
        (nodeVersions, fleet) nodes.

(** Brief report: the loop that counts each node's version in the fleet's
    map only. *)
Definition count_fleet (nodes : list NodeInfo.t) (fleet : gmap string Z) : gmap string Z :=
  foldl (λ acc nodeInfo, map_incr acc (NodeInfo.Version nodeInfo)) fleet nodes.

Definition full_record (pools : Pools.t) (poolsDefaults : PoolsDefault.t)
    (nodeVersions : gmap string Z) : ClusterSummary.t :=
  {| ClusterSummary.ImplementationVersion := Pools.ImplementationVersion pools;
     ClusterSummary.IsEnterprise := Pools.IsEnterprise pools;
     ClusterSummary.Uuid := Pools.Uuid pools;
     ClusterSummary.Balanced := PoolsDefault.Balanced poolsDefaults;
     ClusterSummary.ClusterName := PoolsDefault.ClusterName poolsDefaults;
     ClusterSummary.FtsMemoryQuota := PoolsDefault.FtsMemoryQuota poolsDefaults;
     ClusterSummary.IndexMemoryQuota := PoolsDefault.IndexMemoryQuota poolsDefaults;
     ClusterSummary.MemoryQuota := PoolsDefault.MemoryQuota poolsDefaults;
     ClusterSummary.Name := PoolsDefault.Name poolsDefaults;
     ClusterSummary.NodeCount := goint.len (elems (PoolsDefault.Nodes poolsDefaults));
     ClusterSummary.NodeVersions := nodeVersions;
     ClusterSummary.Nodes := PoolsDefault.Nodes poolsDefaults;
     ClusterSummary.RebalanceStatus := PoolsDefault.RebalanceStatus poolsDefaults;
     ClusterSummary.StorageTotals := PoolsDefault.StorageTotals poolsDefaults |}.

(** The brief record of one node. *)
Definition brief_node (nodeInfo : NodeInfo.t) : BriefNode.t :=
  {| BriefNode.Cores := SysStats.CPU_cores_available (NodeInfo.SystemStats nodeInfo);
     BriefNode.RAM := (NodeInfo.MemoryTotal nodeInfo / 1024 / 1024 / 1024)%float;
     BriefNode.Name := NodeInfo.Hostname nodeInfo;
     BriefNode.Version := NodeInfo.Version nodeInfo |}.

Definition zero_BriefNode : BriefNode.t :=
  {| BriefNode.Cores := 0%float; BriefNode.RAM := 0%float;
     BriefNode.Name := EmptyString; BriefNode.Version := EmptyString |}.

(** [nodes := make([]BriefNode, len(poolsDefaults.Nodes))] followed by the
    loop that stores the record of each node at [curNode] and advances
    [curNode]. *)
Definition fill_brief_nodes (infos : list NodeInfo.t) : list BriefNode.t :=
  (foldl (λ acc nodeInfo, (<[acc.2 := brief_node nodeInfo]> acc.1, S acc.2))
         (replicate (length infos) zero_BriefNode, O) infos).1.

(** The body of the node loop once both payloads are there. *)
Definition on_success (FULL : bool) (cnum : nat) (pools : Pools.t)
    (poolsDefaults : PoolsDefault.t) (ls : LoopState) : LoopState :=
  let infos := elems (PoolsDefault.Nodes poolsDefaults) in
  if FULL then
    let '(nodeVersions, fleet) :=
      count_both infos ∅ (SummaryInfo.NodeVersions (summary ls)) in
    let this := full_record pools poolsDefaults nodeVersions in
    {| summary := add_nodes (set_cluster (set_versions (summary ls) fleet) cnum
                               (FullRecord this)) (goint.len infos);
       thisCluster := Some this;
       briefCluster := briefCluster ls;
       cerr := cerr ls |}
  else
    let nodes := fill_brief_nodes infos in
    let brief := {| BriefCluster.Nodes := nodes;
                    BriefCluster.Size := goint.len nodes;
                    BriefCluster.UUID := Pools.Uuid pools |} in
    let s1 := add_nodes (set_cluster (summary ls) cnum (BriefRecord brief)) (goint.len infos) in
    {| summary := set_versions s1 (count_fleet infos (SummaryInfo.NodeVersions s1));
       thisCluster := thisCluster ls;
       briefCluster := Some brief;
       cerr := cerr ls |}.

Definition set_cerr (ls : LoopState) (err : GoError) : LoopState :=
  {| summary := summary ls; thisCluster := thisCluster ls;
     briefCluster := briefCluster ls; cerr := Some err |}.

(** [for _, node := range cluster.Nodes]: a failed call records the error
    and goes on with the next node; the first node that gives both payloads
    ends the loop. *)
Fixpoint node_loop (FULL : bool) (cnum : nat) (cluster : Cluster.t)
    (nodes : list string) (ls : LoopState) : M LoopState :=
  match nodes with
  | [] => mret ls
  | node :: rest =>
      let client := CreateRestClient node (Cluster.Login cluster) (Cluster.Pass cluster) in
      r1 ← GetPoolsData client;
      match r1 with
      | inr err =>
          _ ← Printf ("Error getting bucket settings from node " +:+ node +:+ ": "
                      +:+ Error err +:+ gostr.nl);
          node_loop FULL cnum cluster rest (set_cerr ls err)
      | inl pools =>
          r2 ← GetPoolsDefaultData client;
          match r2 with
          | inr err =>
              _ ← Printf ("Error getting pools/default from node " +:+ node +:+ ": "
                          +:+ Error err +:+ gostr.nl);
              node_loop FULL cnum cluster rest (set_cerr ls err)
          | inl poolsDefaults => mret (on_success FULL cnum pools poolsDefaults ls)
          end
      end
  end.

(** The record that replaces the slot of a cluster no node of which
    answered. *)
Definition error_record (cluster : Cluster.t) (cerr : option GoError) : ClusterError.t :=
  {| ClusterError.TheCluster := cluster;
     ClusterError.ErrMsg := match cerr with
                            | Some e => Error e
                            | None => "Unknown Error"
                            end |}.

(** The body of the cluster loop. *)
Definition poll_cluster (FULL : bool) (cnum : nat) (cluster : Cluster.t)
    (s : SummaryInfo.t) : M SummaryInfo.t :=
  ls ← node_loop FULL cnum cluster (elems (Cluster.Nodes cluster))
         {| summary := s; thisCluster := None; briefCluster := None; cerr := None |};
  match thisCluster ls, briefCluster ls with
  | None, None =>
      mret (set_cluster (summary ls) cnum (ErrorRecord (error_record cluster (cerr ls))))
  | _, _ => mret (summary ls)
  end.

(** [for cnum, cluster := range clusters.Clusters]. *)
Fixpoint cluster_loop (FULL : bool) (cnum : nat) (clusters : list Cluster.t)
    (s : SummaryInfo.t) : M SummaryInfo.t :=
  match clusters with
  | [] => mret s
  | cluster :: rest =>
      s' ← poll_cluster FULL cnum cluster s;
      cluster_loop FULL (S cnum) rest s'
  end.

Definition new_summary (clusters : ClusterList.t) : SummaryInfo.t :=
  {| SummaryInfo.NumClusters := goint.len (elems (ClusterList.Clusters clusters));
     SummaryInfo.TotalNumNodes := 0;
     SummaryInfo.NodeVersions := ∅;
     SummaryInfo.Clusters :=
       replicate (length (elems (ClusterList.Clusters clusters))) NilRecord |}.

(** The summary [main] holds when the cluster loop is over. *)
Definition assemble (FULL : bool) (clusters : ClusterList.t) : M SummaryInfo.t :=
  cluster_loop FULL 0 (elems (ClusterList.Clusters clusters)) (new_summary clusters).

(** *** Rendering *)

Definition csv_header : string :=
  "cluster_num" +:+ gostr.tab +:+ "cluster_uuid" +:+ gostr.tab +:+ "cluster_size"
  +:+ gostr.tab +:+ "hostname" +:+ gostr.tab +:+ "cpu_cores" +:+ gostr.tab +:+ "RAM"
  +:+ gostr.nl.

(** The line of one node: no cores before 6.5. *)
Definition csv_row (cnum : nat) (cluster : BriefCluster.t) (node : BriefNode.t) : string :=
  if gostr.less (BriefNode.Version node) "6.5" then
    gostr.fmt_d (Z.of_nat cnum) +:+ gostr.tab +:+ BriefCluster.UUID cluster +:+ gostr.tab
    +:+ gostr.fmt_d (BriefCluster.Size cluster) +:+ gostr.tab +:+ BriefNode.Name node
    +:+ gostr.tab +:+ "N/A" +:+ gostr.tab +:+ gostr.fmt_f1 (BriefNode.RAM node) +:+ gostr.nl
  else
    gostr.fmt_d (Z.of_nat cnum) +:+ gostr.tab +:+ BriefCluster.UUID cluster +:+ gostr.tab
    +:+ gostr.fmt_d (BriefCluster.Size cluster) +:+ gostr.tab +:+ BriefNode.Name node
    +:+ gostr.tab +:+ gostr.fmt_f1 (BriefNode.Cores node) +:+ gostr.tab
    +:+ gostr.fmt_f1 (BriefNode.RAM node) +:+ gostr.nl.

(** The lines a slot of the summary gives: those of its nodes when it holds
    a [*BriefCluster], none otherwise. *)
Definition csv_cluster_rows (cnum : nat) (icluster : ClusterRecord) : list string :=
  match icluster with
  | BriefRecord cluster => map (csv_row cnum cluster) (BriefCluster.Nodes cluster)
  | _ => []
  end.

Definition csv_rows (s : SummaryInfo.t) : list string :=
  concat (imap csv_cluster_rows (SummaryInfo.Clusters s)).

(** The content of the [strings.Builder] after all [WriteString]s. *)
Definition csv_body (s : SummaryInfo.t) : string :=
  foldl String.append csv_header (csv_rows s).

(** *** main *)

Record Flags := mk_Flags {
  CONFIG_FILE : string;
  OUTPUT_FILE : string;
  HELP : bool;
  FULL : bool;
  CSV : bool
}.

Definition usage : list string := [
  "usage: cbsummary --config=<config file> [--output=<output file>] [--full]" +:+ gostr.nl +:+ gostr.nl;
  "  cbsummary connects to a set of Couchbase clusters and generates a summary report." +:+ gostr.nl +:+ gostr.nl;
  "  The config file contains JSON specifying an array of information on each cluster," +:+ gostr.nl;
  "  giving the Couchbase login/password and one or more IP addresses for cluster nodes." +:+ gostr.nl;
  "  An example config file giving information about 2 clusters is:" +:+ gostr.nl +:+ gostr.nl;
  "  { " +:+ gostr.dq +:+ "clusters" +:+ gostr.dq +:+ ": [" +:+ gostr.nl;
  "    {" +:+ gostr.dq +:+ "login" +:+ gostr.dq +:+ ": " +:+ gostr.dq +:+ "Administrator" +:+ gostr.dq +:+ ", " +:+ gostr.dq +:+ "pass" +:+ gostr.dq +:+ ": " +:+ gostr.dq +:+ "password1" +:+ gostr.dq +:+ ", " +:+ gostr.dq +:+ "nodes" +:+ gostr.dq +:+ ": [" +:+ gostr.dq +:+ "http://192.168.1.1:8091" +:+ gostr.dq +:+ "]}," +:+ gostr.nl;
  "    {" +:+ gostr.dq +:+ "login" +:+ gostr.dq +:+ ": " +:+ gostr.dq +:+ "Administrator" +:+ gostr.dq +:+ ", " +:+ gostr.dq +:+ "pass" +:+ gostr.dq +:+ ": " +:+ gostr.dq +:+ "password2" +:+ gostr.dq +:+ ", " +:+ gostr.dq +:+ "nodes" +:+ gostr.dq +:+ ": [" +:+ gostr.dq +:+ "http://192.166.1.1:8091" +:+ gostr.dq +:+ "," +:+ gostr.dq +:+ "http://192.16.1.2:8091" +:+ gostr.dq +:+ "]}" +:+ gostr.nl;
  "  ]}" +:+ gostr.nl +:+ gostr.nl;
  "  The default report format includes RAM and Core utilization across each specified cluster," +:+ gostr.nl;
  "  since that information is useful in determining compliance with Couchbase licenses. If you" +:+ gostr.nl;
  "  specify --csv, then the report is generated in CSV instead of JSON. If, instead, you" +:+ gostr.nl;
  "  specify --full, then a much more detailed report is generated." +:+ gostr.nl +:+ gostr.nl;
  "  The summary report is sent to the file 'cbsummary.out.<timestamp>', unless a different" +:+ gostr.nl;
  "  file name is specified with the --output option." +:+ gostr.nl +:+ gostr.nl
].

Fixpoint print_all (lines : list string) : M unit :=
  match lines with
  | [] => mret tt
  | l :: rest => _ ← Printf l; print_all rest
  end.

Definition csv_conflict_message : string :=
  "CSV format is not available for full reports." +:+ gostr.nl +:+ gostr.nl.

Definition default_output_file (now : Time) : string :=
  "cbsummary.out." +:+ gostr.fmt_0d 4 (Year now) +:+ "-" +:+ gostr.fmt_0d 2 (Month now)
  +:+ "-" +:+ gostr.fmt_0d 2 (Day now) +:+ "-" +:+ gostr.fmt_0d 2 (Hour now)
  +:+ ":" +:+ gostr.fmt_0d 2 (Minute now) +:+ ":" +:+ gostr.fmt_0d 2 (Second now).

(** The end of [main]: render the summary and write the file. *)
Definition render_and_write (flags : Flags) (output_file : string)
    (clusterSummary : SummaryInfo.t) : M unit :=
  let write (content : FileBody) : M unit :=
    err ← WriteFile output_file content 420;
    match err with
    | Some e =>
        Printf ("Error writing output file " +:+ output_file +:+ ": " +:+ Error e
                +:+ gostr.nl)
    | None =>
        Printf ("Wrote information on "
                +:+ gostr.fmt_d (SummaryInfo.NumClusters clusterSummary)
                +:+ " clusters to file " +:+ output_file +:+ "." +:+ gostr.nl)
    end in
  if CSV flags then write (CsvBody (csv_body clusterSummary))
  else
    match marshal.MarshalIndent clusterSummary with
    | inr e => Printf ("Error marshalling summary: " +:+ Error e +:+ gostr.nl)
    | inl tree => write (JsonBody tree)
    end.

(** The name of the output file: the one given, or one made from the
    current time. *)
Definition choose_output_file (flags : Flags) : M string :=
  if (String.length (OUTPUT_FILE flags) =? 0)%nat
  then now ← Now; mret (default_output_file now)
  else mret (OUTPUT_FILE flags).

Definition main (flags : Flags) : M unit :=
  if HELP flags || (String.length (CONFIG_FILE flags) =? 0)%nat then print_all usage
  else if FULL flags && CSV flags then Printf csv_conflict_message
  else if (String.length (CONFIG_FILE flags) =? 0)%nat then
    Printf ("You must specify a configuration file." +:+ gostr.nl +:+ gostr.nl)
  else
    output_file ← choose_output_file flags;
    config ← ReadFile (CONFIG_FILE flags);
    match config with
    | inr err =>
        Printf ("Error reading configuration file " +:+ CONFIG_FILE flags +:+ ": "
                +:+ Error err +:+ gostr.nl +:+ gostr.nl)
    | inl config =>
        match Unmarshal_ClusterList config with
        | inr err =>
            Printf ("Error parsing configuration file " +:+ CONFIG_FILE flags +:+ ": "
                    +:+ Error err +:+ gostr.nl +:+ gostr.nl)
        | inl clusters =>
            _ ← Printf ("Working from config file: " +:+ CONFIG_FILE flags +:+ gostr.nl);
            clusterSummary ← assemble (FULL flags) clusters;
            render_and_write flags output_file clusterSummary
        end
    end.

(** ** Specification vocabulary *)

(** What the node loop does with one node, up to the point where it knows
    whether the node gave both payloads: the two calls, the second only
    after the first succeeded, and the message printed on a failure. *)
Definition try_node (cluster : Cluster.t) (node : string)
  : M (Pools.t * PoolsDefault.t + GoError) :=
  let client := CreateRestClient node (Cluster.Login cluster) (Cluster.Pass cluster) in
  r1 ← GetPoolsData client;
  match r1 with
  | inr err =>
      _ ← Printf ("Error getting bucket settings from node " +:+ node +:+ ": "
                  +:+ Error err +:+ gostr.nl);
      mret (inr err)
  | inl pools =>
      r2 ← GetPoolsDefaultData client;
      match r2 with
      | inr err =>
          _ ← Printf ("Error getting pools/default from node " +:+ node +:+ ": "
                      +:+ Error err +:+ gostr.nl);
          mret (inr err)
      | inl poolsDefaults => mret (inl (pools, poolsDefaults))
      end
  end.

(** The outcome of polling one cluster. *)
Inductive Outcome :=
| Answered (pools : Pools.t) (poolsDefaults : PoolsDefault.t)
| AllFailed (last : option GoError).

(** [polls cluster nodes cerr st tried o st']: starting in state [st] with
    [cerr] as the last error so far, the nodes [tried] were tried in this
    order, each but the last failing, and the poll ended in state [st']
    with outcome [o]: the payloads of the last node tried, or the last
    error when every node failed. *)
Inductive polls (cluster : Cluster.t)
  : list string → option GoError → St → list string → Outcome → St → Prop :=
| polls_nil cerr st :
    polls cluster [] cerr st [] (AllFailed cerr) st
| polls_answer node rest cerr st pools poolsDefaults st1 :
    try_node cluster node st = (inl (pools, poolsDefaults), st1) →
    polls cluster (node :: rest) cerr st [node] (Answered pools poolsDefaults) st1
| polls_fail node rest cerr st err st1 tried o st2 :
    try_node cluster node st = (inr err, st1) →
    polls cluster rest (Some err) st1 tried o st2 →
    polls cluster (node :: rest) cerr st (node :: tried) o st2.

(** The record a cluster gets from the outcome of its poll. *)
Definition record_of (FULL : bool) (cluster : Cluster.t) (o : Outcome) : ClusterRecord :=
  match o with
  | AllFailed last => ErrorRecord (error_record cluster last)
  | Answered pools poolsDefaults =>
      let infos := elems (PoolsDefault.Nodes poolsDefaults) in
      if FULL then
        FullRecord (full_record pools poolsDefaults
                      (count_fleet infos ∅))
      else
        BriefRecord {| BriefCluster.Nodes := map brief_node infos;
                       BriefCluster.Size := goint.len infos;
                       BriefCluster.UUID := Pools.Uuid pools |}
  end.

(** The nodes the answering node reported; none when no node answered. *)
Definition outcome_infos (o : Outcome) : list NodeInfo.t :=
  match o with
  | Answered _ poolsDefaults => elems (PoolsDefault.Nodes poolsDefaults)
  | AllFailed _ => []
  end.

(** The summary after the poll of cluster [cnum] ended with outcome [o]. *)
Definition apply_outcome (FULL : bool) (cnum : nat) (cluster : Cluster.t) (o : Outcome)
    (s : SummaryInfo.t) : SummaryInfo.t :=
  {| SummaryInfo.NumClusters := SummaryInfo.NumClusters s;
     SummaryInfo.TotalNumNodes :=
       match o with
       | Answered _ _ => goint.add (SummaryInfo.TotalNumNodes s) (goint.len (outcome_infos o))
       | AllFailed _ => SummaryInfo.TotalNumNodes s
       end;
     SummaryInfo.NodeVersions := count_fleet (outcome_infos o) (SummaryInfo.NodeVersions s);
     SummaryInfo.Clusters := <[cnum := record_of FULL cluster o]> (SummaryInfo.Clusters s) |}.

(** [fleet_polls clusters st os st']: polling the clusters one after the
    other from state [st] gives the outcomes [os] and ends in [st']. *)
Inductive fleet_polls : list Cluster.t → St → list Outcome → St → Prop :=
| fleet_polls_nil st : fleet_polls [] st [] st
| fleet_polls_cons cluster rest st tried o st1 os st2 :
    polls cluster (elems (Cluster.Nodes cluster)) None st tried o st1 →
    fleet_polls rest st1 os st2 →
    fleet_polls (cluster :: rest) st (o :: os) st2.

(** The summary after the cluster loop. *)
Fixpoint apply_outcomes (FULL : bool) (cnum : nat) (clusters : list Cluster.t)
    (os : list Outcome) (s : SummaryInfo.t) : SummaryInfo.t :=
  match clusters, os with
  | cluster :: rest, o :: os' =>
      apply_outcomes FULL (S cnum) rest os' (apply_outcome FULL cnum cluster o s)
  | _, _ => s
  end.

(** The URLs of the HTTP requests in a log, in order. *)
Definition requested (l : list Event) : list string :=
  omap (λ e, match e with EvHttp req => Some (URL req) | _ => None end) l.

(** The two URLs the program asks a node for. *)
Definition node_urls (node : string) : list string :=
  [node +:+ "/pools"; node +:+ "/pools/default"].

(** The files written, in order. *)
Definition written (l : list Event) : list (string * FileBody) :=
  omap (λ e, match e with EvWriteFile n c => Some (n, c) | _ => None end) l.

(** The texts printed, in order. *)
Definition printed (l : list Event) : list string :=
  omap (λ e, match e with EvPrint t => Some t | _ => None end) l.

End Program.

(** ** A small fleet to run the program on

    Cluster A: [a1] refuses the connection, [a2] answers (two nodes, one of
    them older than 6.5 and without core count), [a3] would answer too.
    Cluster B: its only node rejects the credentials.  Cluster C: no node
    listed.  Further nodes give one kind of failure each. *)

Module Demo.

Inductive payload :=
| PoolsBody (p : Pools.t)
| PoolsDefaultBody (d : PoolsDefault.t)
| TextBody (s : string)
| ForbiddenBody (message : string) (permissions : list string).

Definition no_components : ComponentsVersion.t :=
  ComponentsVersion.mk EmptyString EmptyString EmptyString EmptyString EmptyString
    EmptyString EmptyString EmptyString EmptyString EmptyString EmptyString EmptyString.

Definition pools_a : Pools.t :=
  Pools.mk no_components "6.6.0-7909-enterprise" true "4c5a7d2f".

Definition no_stats : NodeStats.t :=
  NodeStats.mk 0 0 0 0 0 0 0 0 0 0 0 0 0 0 0.

Definition node_info (hostname version : string) (memoryTotal cores : float) : NodeInfo.t :=
  NodeInfo.mk "active" hostname no_stats 0 0 0 memoryTotal "x86_64-pc-linux-gnu"
    (mk_slice ["kv"]) "healthy" (SysStats.mk cores 0 0 memoryTotal 0 0) "1000" version.

Definition old_node : NodeInfo.t := node_info "a2:8091" "6.1.0" 17179869184 0.
Definition new_node : NodeInfo.t := node_info "a4:8091" "6.6.0" 34359738368 8.

Definition no_storage : ClusterStorageInfo.t :=
  ClusterStorageInfo.mk (HDDStorageInfo.mk 0 0 0 0 0) (RAMStorageInfo.mk 0 0 0 0 0 0 0).

Definition pools_default_a : PoolsDefault.t :=
  PoolsDefault.mk nil_slice true "A" 512 512 4096 "default"
    (mk_slice [old_node; new_node]) "none" no_storage.

Definition refused : GoError :=
  url_Error "Get http://a1:8091/pools: dial tcp: connect: connection refused"
    (lib_error other_library_error "dial tcp: connect: connection refused").

Definition untrusted : GoError :=
  url_Error "Get https://c1:18091/pools: x509: certificate signed by unknown authority"
    (lib_error x509_UnknownAuthorityError "x509: certificate signed by unknown authority").

Definition answer (status : Z) (b : payload) : Response payload + GoError :=
  inl (mk_Response status b).

Definition net (url : string) : Response payload + GoError :=
  if String.eqb url "http://a2:8091/pools" then answer 200 (PoolsBody pools_a)
  else if String.eqb url "http://a2:8091/pools/default" then
    answer 200 (PoolsDefaultBody pools_default_a)
  else if String.eqb url "http://a3:8091/pools" then answer 200 (PoolsBody pools_a)
  else if String.eqb url "http://a3:8091/pools/default" then
    answer 200 (PoolsDefaultBody pools_default_a)
  else if String.eqb url "http://b1:8091/pools" then answer 401 (TextBody EmptyString)
  else if String.eqb url "https://c1:18091/pools" then inr untrusted
  else if String.eqb url "http://d1:8091/pools" then answer 200 (TextBody "<html>")
  else if String.eqb url "http://e1:8091/pools" then answer 400 (TextBody "no such pool")
  else if String.eqb url "http://e2:8091/pools" then
    answer 403 (ForbiddenBody "Forbidden" ["cluster.pools!read"; "cluster.admin!read"])
  else if String.eqb url "http://e3:8091/pools" then answer 503 (TextBody EmptyString)
  else inr refused.

Definition syntax_error : GoError :=
  lib_error other_library_error "invalid character '<' looking for beginning of value".

Definition cluster_a : Cluster.t :=
  Cluster.mk "Administrator" "password1"
    (mk_slice ["http://a1:8091"; "http://a2:8091"; "http://a3:8091"]).
Definition cluster_b : Cluster.t :=
  Cluster.mk "Administrator" "password2" (mk_slice ["http://b1:8091"]).
Definition cluster_c : Cluster.t :=
  Cluster.mk "Administrator" "password3" nil_slice.

Definition fleet : ClusterList.t :=
  ClusterList.mk (mk_slice [cluster_a; cluster_b; cluster_c]).

#[export] Instance platform : Platform := {|
  World := unit;
  body := payload;
  NewRequest_check := λ _ _, None;
  URL_String := λ u, u;
  client_Do := λ w req, (w, net (URL req));
  ioutil_ReadAll := λ b, match b with TextBody s => inl s | _ => inl EmptyString end;
  Decode_overlay := λ b,
    match b with ForbiddenBody m p => inl (m, p) | _ => inr syntax_error end;
  Decode_Pools := λ b, match b with PoolsBody p => inl p | _ => inr syntax_error end;
  Decode_PoolsDefault := λ b,
    match b with PoolsDefaultBody d => inl d | _ => inr syntax_error end;
  ioutil_ReadFile := λ w name,
    (w, if String.eqb name "clusters.json" then inl "fleet"
        else inr (lib_error other_library_error "no such file or directory"));
  Unmarshal_ClusterList := λ config,
    if String.eqb config "fleet" then inl fleet else inr syntax_error;
  time_Now := λ w, (w, mk_Time 2024 1 2 3 4 5);
  ioutil_WriteFile := λ w _ _ _, (w, None)
|}.

Definition start : St := {| world := tt; log := [] |}.

Definition brief_a : BriefCluster.t :=
  {| BriefCluster.Nodes :=
       [ {| BriefNode.Cores := 0; BriefNode.RAM := 16;
            BriefNode.Name := "a2:8091"; BriefNode.Version := "6.1.0" |};
         {| BriefNode.Cores := 8; BriefNode.RAM := 32;
            BriefNode.Name := "a4:8091"; BriefNode.Version := "6.6.0" |} ];
     BriefCluster.Size := 2;
     BriefCluster.UUID := "4c5a7d2f" |}.

Definition unauthorized_b : GoError :=
  HttpError 401 "GET" "http://b1:8091/pools" EmptyString.

Definition outcomes : list Outcome :=
  [Answered pools_a pools_default_a; AllFailed (Some unauthorized_b); AllFailed None].

(** The line of the old node in the tabular output. *)
Definition demo_row : string :=
  csv_row 0 brief_a
    {| BriefNode.Cores := 0; BriefNode.RAM := 16;
       BriefNode.Name := "a2:8091"; BriefNode.Version := "6.1.0" |}.

(** Clients and a cluster for the nodes that fail in one way each. *)
Definition client_d : RestClient := CreateRestClient "http://d1:8091" "Administrator" "password".
Definition client_c : RestClient := CreateRestClient "https://c1:18091" "Administrator" "password".
Definition cluster_c1 : Cluster.t :=
  Cluster.mk "Administrator" "password" (mk_slice ["https://c1:18091"]).

Definition brief_json : Flags := mk_Flags "clusters.json" "out.json" false false false.
Definition brief_csv : Flags := mk_Flags "clusters.json" "out.csv" false false true.
Definition full_json : Flags := mk_Flags "clusters.json" "out.json" false true false.
Definition full_csv : Flags := mk_Flags "clusters.json" "out.csv" false true true.
Definition help_full_csv : Flags := mk_Flags "clusters.json" "out.csv" true true true.

End Demo.


(** ** Measures on reports *)

Definition is_error (r : ClusterRecord) : bool :=
  match r with ErrorRecord _ => true | _ => false end.

(** The node count a record shows: [nodeCount] of a full record,
    [cluster_size] of a brief one; an error record shows none. *)
Definition record_nodes (r : ClusterRecord) : Z :=
  match r with
  | FullRecord c => ClusterSummary.NodeCount c
  | BriefRecord b => BriefCluster.Size b
  | ErrorRecord _ | NilRecord => 0
  end.

Definition total_nodes (rs : list ClusterRecord) : Z :=
  foldr (λ r acc, record_nodes r + acc) 0 rs.

(** The versions of the nodes a record lists. *)
Definition record_versions (r : ClusterRecord) : list string :=
  match r with
  | FullRecord c => map NodeInfo.Version (elems (ClusterSummary.Nodes c))
  | BriefRecord b => map BriefNode.Version (BriefCluster.Nodes b)
  | ErrorRecord _ | NilRecord => []
  end.

Definition all_versions (rs : list ClusterRecord) : list string :=
  concat (map record_versions rs).

(** The sum of all values of a version histogram. *)
Definition sum_values (m : gmap string Z) : Z :=
  map_fold (λ _ v acc, v + acc) 0 m.

(** How often [v] occurs in [vs]. *)
Definition occurrences (v : string) (vs : list string) : Z :=
  Z.of_nat (length (filter (λ x, x = v) vs)).

(** The histogram of a list of versions, counted as the program counts. *)
Definition tally (vs : list string) (m : gmap string Z) : gmap string Z :=
  foldl map_incr m vs.

Definition is_digit (c : ascii) : bool :=
  (48 <=? N_of_ascii c)%N && (N_of_ascii c <=? 57)%N.

Fixpoint all_digits (s : string) : bool :=
  match s with
  | EmptyString => true
  | String c s' => is_digit c && all_digits s'
  end.

(** What may follow the first digit of a numeral with one decimal: further
    digits, then a dot and one digit. *)
Fixpoint after_digit (s : string) : bool :=
  match s with
  | EmptyString => false
  | String c s' =>
      if Ascii.eqb c "."%char then
        match s' with
        | String d EmptyString => is_digit d
        | _ => false
        end
      else is_digit c && after_digit s'
  end.

(** Digits, a dot, one digit. *)
Definition unsigned_one_decimal (s : string) : bool :=
  match s with
  | EmptyString => false
  | String c s' => is_digit c && after_digit s'
  end.

(** A decimal numeral with exactly one digit after the dot. *)
Definition one_decimal (s : string) : bool :=
  match s with
  | String "-"%char s' => unsigned_one_decimal s'
  | _ => unsigned_one_decimal s
  end.

(** A histogram without negative counts. *)
Definition nonneg (m : gmap string Z) : Prop := ∀ k x, m !! k = Some x → 0 ≤ x.

(** The statuses that [executeRequest] lets through. *)
Definition ok_status (code : Z) : Prop := code = 200 ∨ code = 201 ∨ code = 202.

(** ** Further vocabulary: the requests and the messages of a poll *)

(** The HTTP requests in a log, in order. *)
Definition requests (l : list Event) : list Request :=
  omap (λ e, match e with EvHttp req => Some req | _ => None end) l.

(** The request [executeGet] makes for [path] on a node of a cluster. *)
Definition request_of (cluster : Cluster.t) (node path : string) : Request :=
  {| Method := "GET"; URL := node +:+ path;
     BasicAuth := Some (Cluster.Login cluster, Cluster.Pass cluster) |}.

(** The two messages the node loop prints. *)
Definition pools_failure_text (node : string) (err : GoError) : string :=
  "Error getting bucket settings from node " +:+ node +:+ ": " +:+ Error err +:+ gostr.nl.

Definition pools_default_failure_text (node : string) (err : GoError) : string :=
  "Error getting pools/default from node " +:+ node +:+ ": " +:+ Error err +:+ gostr.nl.

(** What polling a node of a cluster may add to the log: one of its two
    requests, or one of the two messages about it. *)
Definition node_event (cluster : Cluster.t) (node : string) (e : Event) : Prop :=
  match e with
  | EvHttp req =>
      req = request_of cluster node "/pools"
      ∨ req = request_of cluster node "/pools/default"
  | EvPrint text =>
      ∃ err, text = pools_failure_text node err
             ∨ text = pools_default_failure_text node err
  | _ => False
  end.

(** What polling a fleet may add to the log. *)
Definition fleet_event (clusters : list Cluster.t) (e : Event) : Prop :=
  ∃ cluster node,
    cluster ∈ clusters ∧ node ∈ elems (Cluster.Nodes cluster) ∧ node_event cluster node e.

(** The number of node addresses in a configuration. *)
Definition configured_nodes (clusters : list Cluster.t) : nat :=
  length (concat (map (λ cluster, elems (Cluster.Nodes cluster)) clusters)).

(** The message of the second test of the configuration file's name. *)
Definition no_config_message : string :=
  "You must specify a configuration file." +:+ gostr.nl +:+ gostr.nl.

(** The configuration [main] gets from what reading the file gave: the
    list of clusters, or the error of the read or of the parse. *)
Definition configuration `{Platform} (r : string + GoError) : ClusterList.t + GoError :=
  match r with
  | inl config => Unmarshal_ClusterList config
  | inr err => inr err
  end.

(** The lines a record gives in the tabular output. *)
Definition record_lines (r : ClusterRecord) : nat :=
  match r with
  | BriefRecord b => length (BriefCluster.Nodes b)
  | _ => O
  end.

(** Version texts that begin with a byte below ['6'], or with ["6.1"] to
    ["6.4"]: among them 10.0.0 and 6.10.0. *)
Definition starts_low (v : string) : Prop :=
  match v with
  | String a rest =>
      (N_of_ascii a < 54)%N
      ∨ (a = "6"%char
         ∧ match rest with
           | String "."%char (String c _) => (N_of_ascii c < 53)%N
           | _ => False
           end)
  | EmptyString => False
  end.

(** ** The first version of the program

    [src/cbsummary.go]: one report shape, no error records.  The slots of
    [Clusters] are [ClusterSummary] values; the slot of a cluster no node
    of which answers keeps the zero value, whose [NodeVersions] is the nil
    map.  It is compiled against the types of the REST client as they
    are, so its [SysStats] has the five fields of the client's file and no
    core count. *)

Module V1.

Module SysStats.
Record t := mk {
  Cpu_utilization_rate : float;
  Mem_free : float;
  Mem_total : float;
  Swap_total : float;
  Swap_used : float
}.
End SysStats.

Module NodeInfo.
Record t := mk {
  ClusterMembership : string;
  Hostname : string;
  InterestingStats : NodeStats.t;
  McdMemoryAllocated : float;
  McdMemoryReserved : float;
  MemoryFree : float;
  MemoryTotal : float;
  OS : string;
  Services : slice string;
  Status : string;
  SystemStats : SysStats.t;
  Uptime : string;
  Version : string
}.
End NodeInfo.

Module PoolsDefault.
Record t := mk {
  Alerts : slice string;
  Balanced : bool;
  ClusterName : string;
  FtsMemoryQuota : Z;
  IndexMemoryQuota : Z;
  MemoryQuota : Z;
  Name : string;
  Nodes : slice NodeInfo.t;
  RebalanceStatus : string;
  StorageTotals : ClusterStorageInfo.t
}.
End PoolsDefault.

Module ClusterSummary.
Record t := mk {
  ImplementationVersion : string;
  IsEnterprise : bool;
  Uuid : string;
  Balanced : bool;
  ClusterName : string;
  FtsMemoryQuota : Z;
  IndexMemoryQuota : Z;
  MemoryQuota : Z;
  Name : string;
  NodeCount : Z;
  NodeVersions : option (gmap string Z);   (* None: the nil map *)
  Nodes : slice NodeInfo.t;
  RebalanceStatus : string;
  StorageTotals : ClusterStorageInfo.t
}.
End ClusterSummary.

Module SummaryInfo.
Record t := mk {
  NumClusters : Z;                      (* json: #clusters *)
  TotalNumNodes : Z;                    (* json: #nodes *)
  NodeVersions : gmap string Z;         (* json: #nodeVersions *)
  Clusters : list ClusterSummary.t      (* json: clusters *)
}.
End SummaryInfo.

Definition zero_ClusterStorageInfo : ClusterStorageInfo.t :=
  ClusterStorageInfo.mk (HDDStorageInfo.mk 0 0 0 0 0) (RAMStorageInfo.mk 0 0 0 0 0 0 0).

(** The zero value of [ClusterSummary], as [make] fills the slice with. *)
Definition zero_ClusterSummary : ClusterSummary.t :=
  {| ClusterSummary.ImplementationVersion := EmptyString;
     ClusterSummary.IsEnterprise := false;
     ClusterSummary.Uuid := EmptyString;
     ClusterSummary.Balanced := false;
     ClusterSummary.ClusterName := EmptyString;
     ClusterSummary.FtsMemoryQuota := 0;
     ClusterSummary.IndexMemoryQuota := 0;
     ClusterSummary.MemoryQuota := 0;
     ClusterSummary.Name := EmptyString;
     ClusterSummary.NodeCount := 0;
     ClusterSummary.NodeVersions := None;
     ClusterSummary.Nodes := nil_slice;
     ClusterSummary.RebalanceStatus := EmptyString;
     ClusterSummary.StorageTotals := zero_ClusterStorageInfo |}.

Definition marshal_SysStats (s : SysStats.t) : json :=
  JObject [("cpu_utilization_rate", JFloat (SysStats.Cpu_utilization_rate s));
           ("mem_free", JFloat (SysStats.Mem_free s));
           ("mem_total", JFloat (SysStats.Mem_total s));
           ("swap_total", JFloat (SysStats.Swap_total s));
           ("swap_used", JFloat (SysStats.Swap_used s))].

Definition marshal_NodeInfo (n : NodeInfo.t) : json :=
  JObject [("clusterMembership", JString (NodeInfo.ClusterMembership n));
           ("hostname", JString (NodeInfo.Hostname n));
           ("interestingStats", marshal.NodeStats (NodeInfo.InterestingStats n));
           ("mcdMemoryAllocated", JFloat (NodeInfo.McdMemoryAllocated n));
           ("mcdMemoryReserved", JFloat (NodeInfo.McdMemoryReserved n));
           ("memoryFree", JFloat (NodeInfo.MemoryFree n));
           ("memoryTotal", JFloat (NodeInfo.MemoryTotal n));
           ("os", JString (NodeInfo.OS n));
           ("services", marshal.strings (NodeInfo.Services n));
           ("status", JString (NodeInfo.Status n));
           ("systemStats", marshal_SysStats (NodeInfo.SystemStats n));
           ("uptime", JString (NodeInfo.Uptime n));
           ("version", JString (NodeInfo.Version n))].

Definition marshal_NodeInfos (s : slice NodeInfo.t) : json :=
  match s with
  | nil_slice => JNull
  | mk_slice l => JArray (map marshal_NodeInfo l)
  end.

Definition marshal_ClusterSummary (c : ClusterSummary.t) : json :=
  JObject [("implementationVersion", JString (ClusterSummary.ImplementationVersion c));
           ("isEnterprise", JBool (ClusterSummary.IsEnterprise c));
           ("uuid", JString (ClusterSummary.Uuid c));
           ("balanced", JBool (ClusterSummary.Balanced c));
           ("clusterName", JString (ClusterSummary.ClusterName c));
           ("ftsMemoryQuota", JInt (ClusterSummary.FtsMemoryQuota c));
           ("indexMemoryQuota", JInt (ClusterSummary.IndexMemoryQuota c));
           ("memoryQuota", JInt (ClusterSummary.MemoryQuota c));
           ("name", JString (ClusterSummary.Name c));
           ("nodeCount", JInt (ClusterSummary.NodeCount c));
           ("nodeVersions", match ClusterSummary.NodeVersions c with
                            | None => JNull
                            | Some m => marshal.counts m
                            end);
           ("nodes", marshal_NodeInfos (ClusterSummary.Nodes c));
           ("rebalanceStatus", JString (ClusterSummary.RebalanceStatus c));
           ("storageTotals", marshal.ClusterStorageInfo (ClusterSummary.StorageTotals c))].

Definition marshal_SummaryInfo (s : SummaryInfo.t) : json :=
  JObject [("#clusters", JInt (SummaryInfo.NumClusters s));
           ("#nodes", JInt (SummaryInfo.TotalNumNodes s));
           ("#nodeVersions", marshal.counts (SummaryInfo.NodeVersions s));
           ("clusters", JArray (map marshal_ClusterSummary (SummaryInfo.Clusters s)))].

Definition MarshalIndent (s : SummaryInfo.t) : json + GoError :=
  let j := marshal_SummaryInfo s in
  if marshal.encodable j then inl j
  else inr (lib_error other_library_error "json: unsupported value").

Record Flags := mk_Flags {
  CONFIG_FILE : string;
  OUTPUT_FILE : string;
  HELP : bool
}.

Definition usage : list string := [
  "cbsummary --config=<config file> [--output=<output file>]" +:+ gostr.nl +:+ gostr.nl;
  "  cbsummary connects to a set of Couchbase clusters and generates a summary report." +:+ gostr.nl +:+ gostr.nl;
  "  The config file contains JSON specifying an array of information on each cluster," +:+ gostr.nl;
  "  giving the Couchbase login/password and one or more IP addresses for cluster nodes." +:+ gostr.nl;
  "  An example config file giving information about 2 clusters is:" +:+ gostr.nl +:+ gostr.nl;
  "  { " +:+ gostr.dq +:+ "clusters" +:+ gostr.dq +:+ ": [" +:+ gostr.nl;
  "    {" +:+ gostr.dq +:+ "login" +:+ gostr.dq +:+ ": " +:+ gostr.dq +:+ "Administrator" +:+ gostr.dq +:+ ", " +:+ gostr.dq +:+ "pass" +:+ gostr.dq +:+ ": " +:+ gostr.dq +:+ "password1" +:+ gostr.dq +:+ ", " +:+ gostr.dq +:+ "nodes" +:+ gostr.dq +:+ ": [" +:+ gostr.dq +:+ "http://192.168.1.1:8091" +:+ gostr.dq +:+ "]}," +:+ gostr.nl;
  "    {" +:+ gostr.dq +:+ "login" +:+ gostr.dq +:+ ": " +:+ gostr.dq +:+ "Administrator" +:+ gostr.dq +:+ ", " +:+ gostr.dq +:+ "pass" +:+ gostr.dq +:+ ": " +:+ gostr.dq +:+ "password2" +:+ gostr.dq +:+ ", " +:+ gostr.dq +:+ "nodes" +:+ gostr.dq +:+ ": [" +:+ gostr.dq +:+ "http://192.166.1.1:8091" +:+ gostr.dq +:+ "," +:+ gostr.dq +:+ "http://192.16.1.2:8091" +:+ gostr.dq +:+ "]}" +:+ gostr.nl;
  "  ]}" +:+ gostr.nl +:+ gostr.nl;
  "  The summary report is sent to the file 'cbsummary.out.<timestamp>', unless a different" +:+ gostr.nl;
  "  file name is specified with the --output option." +:+ gostr.nl +:+ gostr.nl
].

(** The loop that counts each node's version in the cluster's map and in
    the fleet's. *)
Definition count_both (nodes : list NodeInfo.t) (nodeVersions fleet : gmap string Z)
  : gmap string Z * gmap string Z :=
  foldl (λ acc nodeInfo,
           (map_incr acc.1 (NodeInfo.Version nodeInfo),
            map_incr acc.2 (NodeInfo.Version nodeInfo)))
        (nodeVersions, fleet) nodes.

(** The counts of one map alone. *)
Definition count_fleet (nodes : list NodeInfo.t) (fleet : gmap string Z) : gmap string Z :=
  foldl (λ acc nodeInfo, map_incr acc (NodeInfo.Version nodeInfo)) fleet nodes.

(** The assignments of the node loop once both payloads are there: every
    field of the cluster's slot is set, the node count is added to the
    total, and each node's version is counted in the cluster's map and in
    the fleet's. *)
Definition on_success (cnum : nat) (pools : Pools.t) (poolsDefaults : PoolsDefault.t)
    (s : SummaryInfo.t) : SummaryInfo.t :=
  let infos := elems (PoolsDefault.Nodes poolsDefaults) in
  let total := goint.add (SummaryInfo.TotalNumNodes s) (goint.len infos) in
  let '(nodeVersions, fleet) := count_both infos ∅ (SummaryInfo.NodeVersions s) in
  let slot :=
    {| ClusterSummary.ImplementationVersion := Pools.ImplementationVersion pools;
       ClusterSummary.IsEnterprise := Pools.IsEnterprise pools;
       ClusterSummary.Uuid := Pools.Uuid pools;
       ClusterSummary.Balanced := PoolsDefault.Balanced poolsDefaults;
       ClusterSummary.ClusterName := PoolsDefault.ClusterName poolsDefaults;
       ClusterSummary.FtsMemoryQuota := PoolsDefault.FtsMemoryQuota poolsDefaults;
       ClusterSummary.IndexMemoryQuota := PoolsDefault.IndexMemoryQuota poolsDefaults;
       ClusterSummary.MemoryQuota := PoolsDefault.MemoryQuota poolsDefaults;
       ClusterSummary.Name := PoolsDefault.Name poolsDefaults;
       ClusterSummary.NodeCount := goint.len infos;
       ClusterSummary.NodeVersions := Some nodeVersions;
       ClusterSummary.Nodes := PoolsDefault.Nodes poolsDefaults;
       ClusterSummary.RebalanceStatus := PoolsDefault.RebalanceStatus poolsDefaults;
       ClusterSummary.StorageTotals := PoolsDefault.StorageTotals poolsDefaults |} in
  {| SummaryInfo.NumClusters := SummaryInfo.NumClusters s;
     SummaryInfo.TotalNumNodes := total;
     SummaryInfo.NodeVersions := fleet;
     SummaryInfo.Clusters := <[cnum := slot]> (SummaryInfo.Clusters s) |}.

Definition new_summary (clusters : ClusterList.t) : SummaryInfo.t :=
  {| SummaryInfo.NumClusters := goint.len (elems (ClusterList.Clusters clusters));
     SummaryInfo.TotalNumNodes := 0;
     SummaryInfo.NodeVersions := ∅;
     SummaryInfo.Clusters :=
       replicate (length (elems (ClusterList.Clusters clusters))) zero_ClusterSummary |}.

(** The outcome of polling one cluster. *)
Inductive Outcome :=
| Answered (pools : Pools.t) (poolsDefaults : PoolsDefault.t)
| AllFailed (last : option GoError).

(** The nodes the answering node reported; none when no node answered. *)
Definition outcome_infos (o : Outcome) : list NodeInfo.t :=
  match o with
  | Answered _ poolsDefaults => elems (PoolsDefault.Nodes poolsDefaults)
  | AllFailed _ => []
  end.

(** The slot a cluster gets from the outcome of its poll. *)
Definition slot_of (o : Outcome) : ClusterSummary.t :=
  match o with
  | AllFailed _ => zero_ClusterSummary
  | Answered pools poolsDefaults =>
      let infos := elems (PoolsDefault.Nodes poolsDefaults) in
      {| ClusterSummary.ImplementationVersion := Pools.ImplementationVersion pools;
         ClusterSummary.IsEnterprise := Pools.IsEnterprise pools;
         ClusterSummary.Uuid := Pools.Uuid pools;
         ClusterSummary.Balanced := PoolsDefault.Balanced poolsDefaults;
         ClusterSummary.ClusterName := PoolsDefault.ClusterName poolsDefaults;
         ClusterSummary.FtsMemoryQuota := PoolsDefault.FtsMemoryQuota poolsDefaults;
         ClusterSummary.IndexMemoryQuota := PoolsDefault.IndexMemoryQuota poolsDefaults;
         ClusterSummary.MemoryQuota := PoolsDefault.MemoryQuota poolsDefaults;
         ClusterSummary.Name := PoolsDefault.Name poolsDefaults;
         ClusterSummary.NodeCount := goint.len infos;
         ClusterSummary.NodeVersions := Some (count_fleet infos ∅);
         ClusterSummary.Nodes := PoolsDefault.Nodes poolsDefaults;
         ClusterSummary.RebalanceStatus := PoolsDefault.RebalanceStatus poolsDefaults;
         ClusterSummary.StorageTotals := PoolsDefault.StorageTotals poolsDefaults |}
  end.

(** The summary after the poll of cluster [cnum] ended with outcome [o]. *)
Definition apply_outcome (cnum : nat) (o : Outcome) (s : SummaryInfo.t) : SummaryInfo.t :=
  {| SummaryInfo.NumClusters := SummaryInfo.NumClusters s;
     SummaryInfo.TotalNumNodes :=
       match o with
       | Answered _ _ => goint.add (SummaryInfo.TotalNumNodes s) (goint.len (outcome_infos o))
       | AllFailed _ => SummaryInfo.TotalNumNodes s
       end;
     SummaryInfo.NodeVersions := count_fleet (outcome_infos o) (SummaryInfo.NodeVersions s);
     SummaryInfo.Clusters :=
       match o with
       | Answered _ _ => <[cnum := slot_of o]> (SummaryInfo.Clusters s)
       | AllFailed _ => SummaryInfo.Clusters s
       end |}.

Fixpoint apply_outcomes (cnum : nat) (os : list Outcome) (s : SummaryInfo.t)
  : SummaryInfo.t :=
  match os with
  | [] => s
  | o :: os' => apply_outcomes (S cnum) os' (apply_outcome cnum o s)
  end.

Section Program.
Context `{Platform}.

(** [decoder.Decode(&resultMap)] with [resultMap] of the first version's
    [PoolsDefault]: the decoder of that struct, which knows no core
    count. *)
Context (Decode_PoolsDefault_v1 : body → PoolsDefault.t + GoError).

Definition GetPoolsDefaultData (r : RestClient) : M (PoolsDefault.t + GoError) :=
  let url := host r +:+ "/pools/default" in
  res ← executeGet r url;
  match res with
  | inr err => mret (inr err)
  | inl resp =>
      match Decode_PoolsDefault_v1 (Body resp) with
      | inr err => mret (inr (RestClientError "GET" url err))
      | inl resultMap => mret (inl resultMap)
      end
  end.

(** [for _, node := range cluster.Nodes]: a failed call prints its message
    and goes on with the next node; nothing is kept of the error. *)
Fixpoint node_loop (cnum : nat) (cluster : Cluster.t) (nodes : list string)
    (s : SummaryInfo.t) : M SummaryInfo.t :=
  match nodes with
  | [] => mret s
  | node :: rest =>
      let client := CreateRestClient node (Cluster.Login cluster) (Cluster.Pass cluster) in
      r1 ← GetPoolsData client;
      match r1 with
      | inr err =>
          _ ← Printf ("Error getting bucket settings from node " +:+ node +:+ ": "
                      +:+ Error err +:+ gostr.nl);
          node_loop cnum cluster rest s
      | inl pools =>
          r2 ← GetPoolsDefaultData client;
          match r2 with
          | inr err =>
              _ ← Printf ("Error getting pools/default from node " +:+ node +:+ ": "
                          +:+ Error err +:+ gostr.nl);
              node_loop cnum cluster rest s
          | inl poolsDefaults => mret (on_success cnum pools poolsDefaults s)
          end
      end
  end.

(** [for cnum, cluster := range clusters.Clusters]. *)
Fixpoint cluster_loop (cnum : nat) (clusters : list Cluster.t) (s : SummaryInfo.t)
  : M SummaryInfo.t :=
  match clusters with
  | [] => mret s
  | cluster :: rest =>
      s' ← node_loop cnum cluster (elems (Cluster.Nodes cluster)) s;
      cluster_loop (S cnum) rest s'
  end.

(** The summary [main] holds when the cluster loop is over. *)
Definition assemble (clusters : ClusterList.t) : M SummaryInfo.t :=
  cluster_loop 0 (elems (ClusterList.Clusters clusters)) (new_summary clusters).

Definition choose_output_file (flags : Flags) : M string :=
  if (String.length (OUTPUT_FILE flags) =? 0)%nat
  then now ← Now; mret (default_output_file now)
  else mret (OUTPUT_FILE flags).

Definition main (flags : Flags) : M unit :=
  if HELP flags || (String.length (CONFIG_FILE flags) =? 0)%nat then print_all usage
  else if (String.length (CONFIG_FILE flags) =? 0)%nat then
    Printf ("You must specify a configuration file." +:+ gostr.nl +:+ gostr.nl)
  else
    output_file ← choose_output_file flags;
    _ ← Printf ("Using config file: " +:+ CONFIG_FILE flags +:+ gostr.nl);
    config ← ReadFile (CONFIG_FILE flags);
    match config with
    | inr err =>
        Printf ("Error reading configuration: " +:+ Error err +:+ gostr.nl +:+ gostr.nl)
    | inl config =>
        match Unmarshal_ClusterList config with
        | inr err =>
            Printf ("Error parsing configuration: " +:+ Error err +:+ gostr.nl +:+ gostr.nl)
        | inl clusters =>
            clusterSummary ← assemble clusters;
            match MarshalIndent clusterSummary with
            | inr e => Printf ("Error marshalling summary: " +:+ Error e +:+ gostr.nl)
            | inl tree =>
                err ← WriteFile output_file (JsonBody tree) 420;
                match err with
                | Some e =>
                    Printf ("Error writing output file " +:+ output_file +:+ ": "
                            +:+ Error e +:+ gostr.nl)
                | None =>
                    Printf ("Wrote information on "
                            +:+ gostr.fmt_d (SummaryInfo.NumClusters clusterSummary)
                            +:+ " clusters to file " +:+ output_file +:+ "." +:+ gostr.nl)
                end
            end
        end
    end.

(** What the node loop does with one node, up to the point where it knows
    whether the node gave both payloads. *)
Definition try_node (cluster : Cluster.t) (node : string)
  : M (Pools.t * PoolsDefault.t + GoError) :=
  let client := CreateRestClient node (Cluster.Login cluster) (Cluster.Pass cluster) in
  r1 ← GetPoolsData client;
  match r1 with
  | inr err =>
      _ ← Printf ("Error getting bucket settings from node " +:+ node +:+ ": "
                  +:+ Error err +:+ gostr.nl);
      mret (inr err)
  | inl pools =>
      r2 ← GetPoolsDefaultData client;
      match r2 with
      | inr err =>
          _ ← Printf ("Error getting pools/default from node " +:+ node +:+ ": "
                      +:+ Error err +:+ gostr.nl);
          mret (inr err)
      | inl poolsDefaults => mret (inl (pools, poolsDefaults))
      end
  end.

(** [polls cluster nodes cerr st tried o st']: as for the later version,
    starting in state [st] the nodes [tried] were tried in this order, each
    but the last failing, and the poll ended in state [st'] with outcome
    [o]; [cerr] is the error of the last node that failed so far. *)
Inductive polls (cluster : Cluster.t)
  : list string → option GoError → St → list string → Outcome → St → Prop :=
| polls_nil cerr st :
    polls cluster [] cerr st [] (AllFailed cerr) st
| polls_answer node rest cerr st pools poolsDefaults st1 :
    try_node cluster node st = (inl (pools, poolsDefaults), st1) →
    polls cluster (node :: rest) cerr st [node] (Answered pools poolsDefaults) st1
| polls_fail node rest cerr st err st1 tried o st2 :
    try_node cluster node st = (inr err, st1) →
    polls cluster rest (Some err) st1 tried o st2 →
    polls cluster (node :: rest) cerr st (node :: tried) o st2.

(** Polling the clusters one after the other. *)
Inductive fleet_polls : list Cluster.t → St → list Outcome → St → Prop :=
| fleet_polls_nil st : fleet_polls [] st [] st
| fleet_polls_cons cluster rest st tried o st1 os st2 :
    polls cluster (elems (Cluster.Nodes cluster)) None st tried o st1 →
    fleet_polls rest st1 os st2 →
    fleet_polls (cluster :: rest) st (o :: os) st2.

End Program.

End V1.

(** A node, a payload and an outcome of the later version as the first
    version has them: without the core count. *)
Definition without_cores (n : NodeInfo.t) : V1.NodeInfo.t :=
  {| V1.NodeInfo.ClusterMembership := NodeInfo.ClusterMembership n;
     V1.NodeInfo.Hostname := NodeInfo.Hostname n;
     V1.NodeInfo.InterestingStats := NodeInfo.InterestingStats n;
     V1.NodeInfo.McdMemoryAllocated := NodeInfo.McdMemoryAllocated n;
     V1.NodeInfo.McdMemoryReserved := NodeInfo.McdMemoryReserved n;
     V1.NodeInfo.MemoryFree := NodeInfo.MemoryFree n;
     V1.NodeInfo.MemoryTotal := NodeInfo.MemoryTotal n;
     V1.NodeInfo.OS := NodeInfo.OS n;
     V1.NodeInfo.Services := NodeInfo.Services n;
     V1.NodeInfo.Status := NodeInfo.Status n;
     V1.NodeInfo.SystemStats :=
       {| V1.SysStats.Cpu_utilization_rate :=
            SysStats.Cpu_utilization_rate (NodeInfo.SystemStats n);
          V1.SysStats.Mem_free := SysStats.Mem_free (NodeInfo.SystemStats n);
          V1.SysStats.Mem_total := SysStats.Mem_total (NodeInfo.SystemStats n);
          V1.SysStats.Swap_total := SysStats.Swap_total (NodeInfo.SystemStats n);
          V1.SysStats.Swap_used := SysStats.Swap_used (NodeInfo.SystemStats n) |};
     V1.NodeInfo.Uptime := NodeInfo.Uptime n;
     V1.NodeInfo.Version := NodeInfo.Version n |}.

Definition nodes_without_cores (s : slice NodeInfo.t) : slice V1.NodeInfo.t :=
  match s with
  | nil_slice => nil_slice
  | mk_slice l => mk_slice (map without_cores l)
  end.

Definition payload_without_cores (d : PoolsDefault.t) : V1.PoolsDefault.t :=
  {| V1.PoolsDefault.Alerts := PoolsDefault.Alerts d;
     V1.PoolsDefault.Balanced := PoolsDefault.Balanced d;
     V1.PoolsDefault.ClusterName := PoolsDefault.ClusterName d;
     V1.PoolsDefault.FtsMemoryQuota := PoolsDefault.FtsMemoryQuota d;
     V1.PoolsDefault.IndexMemoryQuota := PoolsDefault.IndexMemoryQuota d;
     V1.PoolsDefault.MemoryQuota := PoolsDefault.MemoryQuota d;
     V1.PoolsDefault.Name := PoolsDefault.Name d;
     V1.PoolsDefault.Nodes := nodes_without_cores (PoolsDefault.Nodes d);
     V1.PoolsDefault.RebalanceStatus := PoolsDefault.RebalanceStatus d;
     V1.PoolsDefault.StorageTotals := PoolsDefault.StorageTotals d |}.

Definition outcome_without_cores (o : Outcome) : V1.Outcome :=
  match o with
  | Answered pools poolsDefaults => V1.Answered pools (payload_without_cores poolsDefaults)
  | AllFailed last => V1.AllFailed last
  end.

(** The two decoders of a [/pools/default] body agree: the one of the
    first version gives what the later one gives, without the core
    counts.  ([encoding/json] skips the keys of an object that the struct
    has no field for, so this is the case whenever the body has no
    [cpu_cores_available] or has a number there.) *)
Definition decoders_agree `{Platform}
    (Decode_PoolsDefault_v1 : body → V1.PoolsDefault.t + GoError) : Prop :=
  ∀ b, Decode_PoolsDefault_v1 b
       = match Decode_PoolsDefault b with
         | inl d => inl (payload_without_cores d)
         | inr err => inr err
         end.

(** The slot of the first version that holds what a record of the full
    report holds, but for the core counts: an error record leaves the zero
    value. *)
Definition v1_slot (r : ClusterRecord) : V1.ClusterSummary.t :=
  match r with
  | FullRecord c =>
      {| V1.ClusterSummary.ImplementationVersion := ClusterSummary.ImplementationVersion c;
         V1.ClusterSummary.IsEnterprise := ClusterSummary.IsEnterprise c;
         V1.ClusterSummary.Uuid := ClusterSummary.Uuid c;
         V1.ClusterSummary.Balanced := ClusterSummary.Balanced c;
         V1.ClusterSummary.ClusterName := ClusterSummary.ClusterName c;
         V1.ClusterSummary.FtsMemoryQuota := ClusterSummary.FtsMemoryQuota c;
         V1.ClusterSummary.IndexMemoryQuota := ClusterSummary.IndexMemoryQuota c;
         V1.ClusterSummary.MemoryQuota := ClusterSummary.MemoryQuota c;
         V1.ClusterSummary.Name := ClusterSummary.Name c;
         V1.ClusterSummary.NodeCount := ClusterSummary.NodeCount c;
         V1.ClusterSummary.NodeVersions := Some (ClusterSummary.NodeVersions c);
         V1.ClusterSummary.Nodes := nodes_without_cores (ClusterSummary.Nodes c);
         V1.ClusterSummary.RebalanceStatus := ClusterSummary.RebalanceStatus c;
         V1.ClusterSummary.StorageTotals := ClusterSummary.StorageTotals c |}
  | _ => V1.zero_ClusterSummary
  end.

(** ** A second network, where everything fails

    The address [ftp://g1] is refused by [http.NewRequest]; [f1] answers
    403 with a body that is not JSON; the file [missing.json] cannot be
    read and [broken.json] does not parse. *)

Module Demo2.

(** The full record of cluster A, and cluster A with other addresses after
    the node that answers. *)
Definition full_a : ClusterSummary.t :=
  full_record Demo.pools_a Demo.pools_default_a {[ "6.1.0" := 1; "6.6.0" := 1 ]}.

Definition cluster_a' : Cluster.t :=
  Cluster.mk "Administrator" "password1"
    (mk_slice ["http://a1:8091"; "http://a2:8091"; "http://e1:8091"; "http://e3:8091"]).

Definition net (url : string) : Response Demo.payload + GoError :=
  if String.eqb url "http://f1:8091/pools" then Demo.answer 403 (Demo.TextBody "Forbidden")
  else if String.eqb url "http://a2:8091/pools" then Demo.answer 200 (Demo.PoolsBody Demo.pools_a)
  else if String.eqb url "http://a2:8091/pools/default" then
    Demo.answer 200 (Demo.PoolsDefaultBody Demo.pools_default_a)
  else inr Demo.refused.

Definition bad_scheme : GoError :=
  lib_error other_library_error "unsupported protocol scheme".

Definition platform : Platform := {|
  World := unit;
  body := Demo.payload;
  NewRequest_check := λ _ url,
    if gostr.HasPrefix url "http" then None else Some bad_scheme;
  URL_String := λ u, u;
  client_Do := λ w req, (w, net (URL req));
  ioutil_ReadAll := λ b, match b with Demo.TextBody s => inl s | _ => inl EmptyString end;
  Decode_overlay := λ b,
    match b with Demo.ForbiddenBody m p => inl (m, p) | _ => inr Demo.syntax_error end;
  Decode_Pools := λ b,
    match b with Demo.PoolsBody p => inl p | _ => inr Demo.syntax_error end;
  Decode_PoolsDefault := λ b,
    match b with Demo.PoolsDefaultBody d => inl d | _ => inr Demo.syntax_error end;
  ioutil_ReadFile := λ w name,
    (w, if String.eqb name "missing.json"
        then inr (lib_error other_library_error "no such file or directory")
        else inl name);
  Unmarshal_ClusterList := λ config,
    if String.eqb config "clusters.json" then inl Demo.fleet else inr Demo.syntax_error;
  time_Now := λ w, (w, mk_Time 2024 1 2 3 4 5);
  ioutil_WriteFile := λ w _ _ _, (w, None)
|}.

(** The decoder of the first version on the bodies of the demonstration networks. *)
Definition decode_v1 (b : Demo.payload) : V1.PoolsDefault.t + GoError :=
  match b with
  | Demo.PoolsDefaultBody d => inl (payload_without_cores d)
  | _ => inr Demo.syntax_error
  end.

Definition start : @St platform := @mk_St platform tt [].

Definition cluster_f : Cluster.t :=
  Cluster.mk "Administrator" "password" (mk_slice ["http://f1:8091"]).
Definition cluster_g : Cluster.t :=
  Cluster.mk "Administrator" "password" (mk_slice ["ftp://g1"; "g2:8091"]).

Definition missing : Flags := mk_Flags "missing.json" "out.json" false false false.
Definition broken : Flags := mk_Flags "broken.json" "out.json" false false false.

End Demo2.

(** * Facts *)

(** ** Integers and histograms *)

Lemma wrap64_small z : - 2 ^ 63 ≤ z < 2 ^ 63 → goint.wrap64 z = z.
Proof.
  intros Hz. unfold goint.wrap64.
  rewrite Z.mod_small by lia. lia.
Qed.

Lemma wrap64_add_l a b : goint.wrap64 (goint.wrap64 a + b) = goint.wrap64 (a + b).
Proof.
  unfold goint.wrap64. f_equal.
  replace ((a + 2 ^ 63) `mod` 2 ^ 64 - 2 ^ 63 + b + 2 ^ 63)
    with ((a + 2 ^ 63) `mod` 2 ^ 64 + b) by lia.
  rewrite Zplus_mod_idemp_l. f_equal. lia.
Qed.

Lemma sum_values_empty : sum_values ∅ = 0.
Proof. apply map_fold_empty. Qed.

Lemma sum_values_insert_fresh (m : gmap string Z) k v :
  m !! k = None → sum_values (<[k := v]> m) = v + sum_values m.
Proof.
  intros Hk. unfold sum_values.
  apply (map_fold_insert_L (λ _ v acc, v + acc)); [|done].
  intros. lia.
Qed.

Lemma sum_values_insert (m : gmap string Z) k v :
  sum_values (<[k := v]> m) = v + sum_values m - map_get m k.
Proof.
  unfold map_get. destruct (m !! k) as [old|] eqn:Hk; simpl.
  - rewrite <- (insert_delete_id m k old Hk) at 2.
    rewrite <- insert_delete_eq.
    rewrite !sum_values_insert_fresh by apply lookup_delete_eq. lia.
  - rewrite sum_values_insert_fresh by done. lia.
Qed.

Lemma sum_values_nonneg m : nonneg m → 0 ≤ sum_values m.
Proof.
  induction m as [|k x m Hk IH] using map_ind; intros Hm.
  - rewrite sum_values_empty. lia.
  - rewrite sum_values_insert_fresh by done.
    assert (0 ≤ x) by (apply (Hm k); apply lookup_insert_eq).
    assert (0 ≤ sum_values m); [|lia].
    apply IH. intros k' x' Hk'. apply (Hm k').
    rewrite lookup_insert_ne; [done|]. intros ->. congruence.
Qed.

Lemma map_get_le_sum m k : nonneg m → 0 ≤ map_get m k ≤ sum_values m.
Proof.
  intros Hm. unfold map_get. destruct (m !! k) as [x|] eqn:Hk; simpl.
  - assert (0 ≤ x) by eauto.
    rewrite <- (insert_delete_id m k x Hk).
    rewrite sum_values_insert_fresh by apply lookup_delete_eq.
    assert (0 ≤ sum_values (delete k m)); [|lia].
    apply sum_values_nonneg. intros k' x' Hk'.
    apply lookup_delete_Some in Hk' as [_ Hk']. eauto.
  - split; [lia|]. by apply sum_values_nonneg.
Qed.

Lemma map_get_incr m v k :
  map_get (map_incr m v) k =
  if decide (v = k) then goint.add (map_get m v) 1 else map_get m k.
Proof.
  unfold map_incr, map_get at 1. rewrite lookup_insert.
  case_decide; simpl; [done|]. done.
Qed.

Lemma occurrences_cons v x vs :
  occurrences v (x :: vs) = (if decide (x = v) then 1 else 0) + occurrences v vs.
Proof.
  unfold occurrences. rewrite filter_cons. case_decide; simpl; lia.
Qed.

Lemma occurrences_app v xs ys :
  occurrences v (xs ++ ys) = occurrences v xs + occurrences v ys.
Proof. unfold occurrences. rewrite filter_app, length_app. lia. Qed.

Lemma tally_app xs ys m : tally (xs ++ ys) m = tally ys (tally xs m).
Proof. unfold tally. apply foldl_app. Qed.

Lemma tally_counts vs : ∀ m,
  nonneg m →
  sum_values m + Z.of_nat (length vs) < 2 ^ 63 →
  nonneg (tally vs m)
  ∧ sum_values (tally vs m) = sum_values m + Z.of_nat (length vs)
  ∧ ∀ v, map_get (tally vs m) v = map_get m v + occurrences v vs.
Proof.
  induction vs as [|x vs IH]; intros m Hm Hlt.
  - simpl. split; [done|]. split; [lia|]. intros v. unfold occurrences. simpl. lia.
  - pose proof (map_get_le_sum m x Hm) as Hx.
    cbn [length] in Hlt. rewrite Nat2Z.inj_succ in Hlt.
    assert (Hadd : goint.add (map_get m x) 1 = map_get m x + 1).
    { unfold goint.add. apply wrap64_small. lia. }
    assert (Hm' : nonneg (map_incr m x)).
    { intros k y. unfold map_incr. rewrite lookup_insert.
      case_decide; [|by apply Hm]. intros [= <-]. lia. }
    assert (Hs' : sum_values (map_incr m x) = sum_values m + 1).
    { unfold map_incr. rewrite sum_values_insert, Hadd. lia. }
    destruct (IH (map_incr m x) Hm') as (Hn & Hs & Hc); [lia|].
    change (tally (x :: vs) m) with (tally vs (map_incr m x)).
    split; [done|]. split.
    + rewrite Hs, Hs'. cbn [length]. lia.
    + intros v. rewrite Hc, map_get_incr, occurrences_cons, Hadd.
      case_decide; subst; lia.
Qed.

(** ** The loops of the report assembly *)

Section ProgramFacts.
Context `{Platform}.

Lemma bind_run {A B} (m : M A) (f : A → M B) st :
  (m ≫= f) st = let (a, st1) := m st in f a st1.
Proof. reflexivity. Qed.

Lemma node_loop_cons FULL cnum cluster node rest ls st :
  node_loop FULL cnum cluster (node :: rest) ls st =
  match try_node cluster node st with
  | (inl (pools, poolsDefaults), st1) => (on_success FULL cnum pools poolsDefaults ls, st1)
  | (inr err, st1) => node_loop FULL cnum cluster rest (set_cerr ls err) st1
  end.
Proof.
  cbn [node_loop]. unfold try_node. rewrite !bind_run.
  destruct (GetPoolsData _ st) as [[pools|err] st1]; [|reflexivity].
  rewrite !bind_run.
  destruct (GetPoolsDefaultData _ st1) as [[poolsDefaults|err] st2]; reflexivity.
Qed.

Lemma count_both_fst nodes nv fl : (count_both nodes nv fl).1 = count_fleet nodes nv.
Proof.
  unfold count_both, count_fleet. revert nv fl.
  induction nodes as [|n nodes IH]; intros nv fl; [done|]. simpl. apply IH.
Qed.

Lemma count_both_snd nodes nv fl : (count_both nodes nv fl).2 = count_fleet nodes fl.
Proof.
  unfold count_both, count_fleet. revert nv fl.
  induction nodes as [|n nodes IH]; intros nv fl; [done|]. simpl. apply IH.
Qed.

Lemma fill_brief_nodes_map infos : fill_brief_nodes infos = map brief_node infos.
Proof.
  unfold fill_brief_nodes.
  assert (Hgen : ∀ rest pre,
    (foldl (λ acc nodeInfo, (<[acc.2 := brief_node nodeInfo]> acc.1, S acc.2))
       (pre ++ replicate (length rest) zero_BriefNode, length pre) rest).1
    = pre ++ map brief_node rest).
  { induction rest as [|x rest IH]; intros pre.
    - simpl. done.
    - cbn [foldl length replicate map fst snd].
      replace (<[length pre := brief_node x]> (pre ++ zero_BriefNode :: replicate (length rest) zero_BriefNode))
        with ((pre ++ [brief_node x]) ++ replicate (length rest) zero_BriefNode).
      + replace (S (length pre)) with (length (pre ++ [brief_node x]))
          by (rewrite length_app; simpl; lia).
        rewrite IH. by rewrite <- app_assoc.
      + rewrite insert_app_r_alt by lia. rewrite Nat.sub_diag. simpl.
        by rewrite <- app_assoc. }
  apply (Hgen infos []).
Qed.

Lemma count_fleet_tally infos m :
  count_fleet infos m = tally (map NodeInfo.Version infos) m.
Proof.
  unfold count_fleet, tally. revert m.
  induction infos as [|n infos IH]; intros m; [done|]. simpl. apply IH.
Qed.

(** The summary after the success branch, in terms of the outcome. *)
Lemma on_success_summary FULL cnum cluster pools poolsDefaults ls :
  let infos := elems (PoolsDefault.Nodes poolsDefaults) in
  summary (on_success FULL cnum pools poolsDefaults ls) =
  {| SummaryInfo.NumClusters := SummaryInfo.NumClusters (summary ls);
     SummaryInfo.TotalNumNodes :=
       goint.add (SummaryInfo.TotalNumNodes (summary ls)) (goint.len infos);
     SummaryInfo.NodeVersions := count_fleet infos (SummaryInfo.NodeVersions (summary ls));
     SummaryInfo.Clusters :=
       <[cnum := record_of FULL cluster (Answered pools poolsDefaults)]>
         (SummaryInfo.Clusters (summary ls)) |}.
Proof.
  intros infos. unfold on_success, record_of. fold infos.
  destruct FULL.
  - pose proof (count_both_fst infos ∅ (SummaryInfo.NodeVersions (summary ls))) as H1.
    pose proof (count_both_snd infos ∅ (SummaryInfo.NodeVersions (summary ls))) as H2.
    destruct (count_both infos ∅ _) as [nv fl]. simpl in *. subst. reflexivity.
  - simpl. rewrite fill_brief_nodes_map. unfold goint.len. rewrite length_map. reflexivity.
Qed.

Lemma on_success_pointers FULL cnum pools poolsDefaults ls :
  thisCluster ls = None → briefCluster ls = None →
  ¬ (thisCluster (on_success FULL cnum pools poolsDefaults ls) = None
     ∧ briefCluster (on_success FULL cnum pools poolsDefaults ls) = None).
Proof.
  intros _ _. unfold on_success. destruct FULL.
  - destruct (count_both _ _ _). simpl. intros [? _]. done.
  - simpl. intros [_ ?]. done.
Qed.

Lemma node_loop_polls FULL cnum cluster nodes : ∀ ls st,
  thisCluster ls = None → briefCluster ls = None →
  ∃ tried o st',
    polls cluster nodes (cerr ls) st tried o st'
    ∧ (node_loop FULL cnum cluster nodes ls st).2 = st'
    ∧ match o with
      | AllFailed last =>
          (node_loop FULL cnum cluster nodes ls st).1 =
          {| summary := summary ls; thisCluster := None; briefCluster := None; cerr := last |}
      | Answered pools poolsDefaults =>
          summary (node_loop FULL cnum cluster nodes ls st).1 =
            apply_outcome FULL cnum cluster o (summary ls)
          ∧ ¬ (thisCluster (node_loop FULL cnum cluster nodes ls st).1 = None
               ∧ briefCluster (node_loop FULL cnum cluster nodes ls st).1 = None)
      end.
Proof.
  induction nodes as [|node rest IH]; intros ls st Hthis Hbrief.
  - exists [], (AllFailed (cerr ls)), st. split; [constructor|]. split; [done|].
    simpl. destruct ls; simpl in *; by subst.
  - rewrite node_loop_cons.
    destruct (try_node cluster node st) as [[[pools poolsDefaults]|err] st1] eqn:Htry.
    + exists [node], (Answered pools poolsDefaults), st1.
      split; [by constructor|]. split; [done|]. simpl. split.
      * apply on_success_summary.
      * by apply on_success_pointers.
    + destruct (IH (set_cerr ls err) st1) as (tried & o & st' & Hp & Hst & Ho); [done..|].
      exists (node :: tried), o, st'. split; [by econstructor|]. split; [done|].
      destruct o; exact Ho.
Qed.

Lemma poll_cluster_spec FULL cnum cluster s st :
  ∃ tried o st',
    polls cluster (elems (Cluster.Nodes cluster)) None st tried o st'
    ∧ poll_cluster FULL cnum cluster s st = (apply_outcome FULL cnum cluster o s, st').
Proof.
  unfold poll_cluster. rewrite bind_run.
  set (ls0 := {| summary := s; thisCluster := None; briefCluster := None; cerr := None |}).
  destruct (node_loop_polls FULL cnum cluster (elems (Cluster.Nodes cluster)) ls0 st)
    as (tried & o & st' & Hp & Hst & Ho); [done..|].
  exists tried, o, st'. split; [exact Hp|].
  destruct (node_loop FULL cnum cluster _ ls0 st) as [ls' st''] eqn:Hrun.
  simpl in Hst, Ho. subst st''.
  destruct o as [pools poolsDefaults|last].
  - destruct Ho as [Hsum Hptr]. rewrite <- Hsum.
    destruct (thisCluster ls') eqn:Ht; [done|].
    destruct (briefCluster ls') eqn:Hb; [done|].
    exfalso. by apply Hptr.
  - subst ls'. reflexivity.
Qed.

Lemma cluster_loop_spec FULL clusters : ∀ cnum s st,
  ∃ os st',
    fleet_polls clusters st os st'
    ∧ cluster_loop FULL cnum clusters s st = (apply_outcomes FULL cnum clusters os s, st').
Proof.
  induction clusters as [|cluster rest IH]; intros cnum s st.
  - exists [], st. split; [constructor|done].
  - cbn [cluster_loop]. rewrite bind_run.
    destruct (poll_cluster_spec FULL cnum cluster s st) as (tried & o & st1 & Hp & ->).
    destruct (IH (S cnum) (apply_outcome FULL cnum cluster o s) st1) as (os & st2 & Hf & ->).
    exists (o :: os), st2. split; [by econstructor|done].
Qed.

Lemma fleet_polls_length clusters st os st' :
  fleet_polls clusters st os st' → length os = length clusters.
Proof. induction 1; simpl; congruence. Qed.

Lemma record_of_versions FULL cluster o :
  record_versions (record_of FULL cluster o) = map NodeInfo.Version (outcome_infos o).
Proof.
  destruct o as [pools poolsDefaults|last]; [|done].
  simpl. destruct FULL; simpl; [done|].
  rewrite map_map. done.
Qed.

Lemma record_of_nodes FULL cluster o :
  record_nodes (record_of FULL cluster o) = goint.len (outcome_infos o).
Proof.
  destruct o as [pools poolsDefaults|last]; [|done].
  simpl. destruct FULL; done.
Qed.

Lemma record_nodes_versions FULL cluster o :
  record_nodes (record_of FULL cluster o)
  = Z.of_nat (length (record_versions (record_of FULL cluster o))).
Proof. rewrite record_of_nodes, record_of_versions, length_map. done. Qed.

Lemma total_nodes_app xs ys : total_nodes (xs ++ ys) = total_nodes xs + total_nodes ys.
Proof. unfold total_nodes. induction xs as [|x xs IH]; simpl; lia. Qed.

Lemma all_versions_app xs ys : all_versions (xs ++ ys) = all_versions xs ++ all_versions ys.
Proof. unfold all_versions. by rewrite map_app, concat_app. Qed.

Lemma total_nodes_all_versions FULL clusters os :
  total_nodes (zip_with (record_of FULL) clusters os)
  = Z.of_nat (length (all_versions (zip_with (record_of FULL) clusters os))).
Proof.
  revert os. induction clusters as [|c clusters IH]; intros [|o os]; try done.
  cbn [zip_with].
  change (total_nodes (?x :: ?l)) with (record_nodes x + total_nodes l).
  change (all_versions (?x :: ?l)) with (record_versions x ++ all_versions l).
  rewrite length_app, IH, record_nodes_versions. lia.
Qed.

Lemma apply_outcomes_spec FULL clusters : ∀ os cnum s done t,
  length os = length clusters →
  SummaryInfo.Clusters s = done ++ replicate (length clusters) NilRecord →
  length done = cnum →
  SummaryInfo.TotalNumNodes s = goint.wrap64 t →
  let s' := apply_outcomes FULL cnum clusters os s in
  let rs := zip_with (record_of FULL) clusters os in
  SummaryInfo.Clusters s' = done ++ rs
  ∧ SummaryInfo.NumClusters s' = SummaryInfo.NumClusters s
  ∧ SummaryInfo.TotalNumNodes s' = goint.wrap64 (t + total_nodes rs)
  ∧ SummaryInfo.NodeVersions s' = tally (all_versions rs) (SummaryInfo.NodeVersions s).
Proof.
  induction clusters as [|cluster rest IH]; intros [|o os] cnum s done t Hlen Hcl Hdone Ht;
    try discriminate.
  - simpl in *. rewrite Hcl. repeat split; try done. rewrite Ht. f_equal. lia.
  - cbn [apply_outcomes zip_with].
    set (s1 := apply_outcome FULL cnum cluster o s).
    assert (Hcl1 : SummaryInfo.Clusters s1
                   = (done ++ [record_of FULL cluster o]) ++ replicate (length rest) NilRecord).
    { unfold s1, apply_outcome. cbn [SummaryInfo.Clusters]. rewrite Hcl.
      cbn [length replicate]. rewrite insert_app_r_alt by lia.
      rewrite Hdone, Nat.sub_diag. simpl. by rewrite <- app_assoc. }
    assert (Ht1 : SummaryInfo.TotalNumNodes s1
                  = goint.wrap64 (t + record_nodes (record_of FULL cluster o))).
    { unfold s1, apply_outcome. cbn [SummaryInfo.TotalNumNodes].
      destruct o as [pools poolsDefaults|last].
      - rewrite record_of_nodes, Ht. unfold goint.add. apply wrap64_add_l.
      - rewrite Ht. simpl. f_equal. lia. }
    destruct (IH os (S cnum) s1 (done ++ [record_of FULL cluster o])
                (t + record_nodes (record_of FULL cluster o)))
      as (Hc & Hn & Htot & Hv); [simpl in Hlen; lia|done|rewrite length_app; simpl; lia|done|].
    split; [by rewrite Hc, <- app_assoc|]. split; [by rewrite Hn|]. split.
    + rewrite Htot. f_equal. unfold total_nodes. simpl. lia.
    + rewrite Hv. unfold s1, apply_outcome. cbn [SummaryInfo.NodeVersions].
      rewrite count_fleet_tally, <- record_of_versions with (FULL := FULL) (cluster := cluster).
      change (all_versions (?x :: ?l)) with (record_versions x ++ all_versions l).
      by rewrite tally_app.
Qed.

(** The report after the cluster loop, in closed form. *)
Lemma assemble_spec FULL clusters st :
  let cs := elems (ClusterList.Clusters clusters) in
  ∃ os st',
    fleet_polls cs st os st'
    ∧ (assemble FULL clusters st).2 = st'
    ∧ let s := (assemble FULL clusters st).1 in
      let rs := zip_with (record_of FULL) cs os in
      SummaryInfo.Clusters s = rs
      ∧ SummaryInfo.NumClusters s = goint.len cs
      ∧ SummaryInfo.TotalNumNodes s = goint.wrap64 (total_nodes rs)
      ∧ SummaryInfo.NodeVersions s = tally (all_versions rs) ∅.
Proof.
  intros cs. unfold assemble. fold cs.
  destruct (cluster_loop_spec FULL cs 0%nat (new_summary clusters) st) as (os & st' & Hf & Hrun).
  exists os, st'. split; [done|]. rewrite Hrun. split; [done|]. cbn [fst].
  pose proof (fleet_polls_length _ _ _ _ Hf) as Hlen.
  destruct (apply_outcomes_spec FULL cs os 0%nat (new_summary clusters) [] 0)
    as (Hc & Hn & Ht & Hv); try done.
Qed.

Lemma requested_app l1 l2 : requested (l1 ++ l2) = requested l1 ++ requested l2.
Proof. unfold requested. apply omap_app. Qed.

(** A call of [executeGet] makes at most one request, to the URL given. *)
Lemma executeGet_log r uri st :
  ∃ new, log (executeGet r uri st).2 = log st ++ new
         ∧ (requested new = [] ∨ requested new = [uri])
         ∧ (∀ resp, (executeGet r uri st).1 = inl resp → requested new = [uri]).
Proof.
  unfold executeGet. destruct (NewRequest_check "GET" uri).
  - exists []. simpl. rewrite app_nil_r. split; [done|]. split; [by left|]. intros ? [=].
  - unfold executeRequest. rewrite bind_run. unfold Do at 1.
    destruct (client_Do (world st) _) as [w res].
    exists [EvHttp {| Method := "GET"; URL := uri; BasicAuth := Some (username r, password r) |}].
    split; [|split; [by right|done]].
    destruct res as [resp|err]; [|done].
    repeat (case_match; try done).
Qed.

Lemma GetPoolsData_log r st :
  ∃ new, log (GetPoolsData r st).2 = log st ++ new
         ∧ (requested new = [] ∨ requested new = [host r +:+ "/pools"])
         ∧ (∀ data, (GetPoolsData r st).1 = inl data → requested new = [host r +:+ "/pools"]).
Proof.
  unfold GetPoolsData. rewrite bind_run.
  destruct (executeGet_log r (host r +:+ "/pools") st) as (new & Hlog & Hreq & Hok).
  destruct (executeGet r _ st) as [[resp|err] st1]; simpl in *.
  - exists new. split; [by destruct (Decode_Pools (Body resp))|]. split; [done|].
    intros data _. by apply (Hok resp).
  - exists new. split; [done|]. split; [done|]. intros ? [=].
Qed.

Lemma GetPoolsDefaultData_log r st :
  ∃ new, log (GetPoolsDefaultData r st).2 = log st ++ new
         ∧ (requested new = [] ∨ requested new = [host r +:+ "/pools/default"])
         ∧ (∀ data, (GetPoolsDefaultData r st).1 = inl data →
                    requested new = [host r +:+ "/pools/default"]).
Proof.
  unfold GetPoolsDefaultData. rewrite bind_run.
  destruct (executeGet_log r (host r +:+ "/pools/default") st) as (new & Hlog & Hreq & Hok).
  destruct (executeGet r _ st) as [[resp|err] st1]; simpl in *.
  - exists new. split; [by destruct (Decode_PoolsDefault (Body resp))|]. split; [done|].
    intros data _. by apply (Hok resp).
  - exists new. split; [done|]. split; [done|]. intros ? [=].
Qed.

(** The requests of one attempt: [/pools], then [/pools/default] if the first
    call succeeded; both when the node answered. *)
Lemma try_node_log cluster node st :
  ∃ new, log (try_node cluster node st).2 = log st ++ new
         ∧ requested new `prefix_of` node_urls node
         ∧ (∀ p, (try_node cluster node st).1 = inl p → requested new = node_urls node)
         ∧ (requested new = node_urls node →
            ∃ pools st1, GetPoolsData
              (CreateRestClient node (Cluster.Login cluster) (Cluster.Pass cluster)) st
              = (inl pools, st1)).
Proof.
  unfold try_node, node_urls. rewrite bind_run.
  set (client := CreateRestClient node (Cluster.Login cluster) (Cluster.Pass cluster)).
  destruct (GetPoolsData_log client st) as (new1 & Hlog1 & Hreq1 & Hok1).
  destruct (GetPoolsData client st) as [[pools|err] st1] eqn:Hget; simpl in *.
  - rewrite bind_run.
    destruct (GetPoolsDefaultData_log client st1) as (new2 & Hlog2 & Hreq2 & Hok2).
    specialize (Hok1 pools eq_refl).
    destruct (GetPoolsDefaultData client st1) as [[poolsDefaults|err] st2]; simpl in *.
    + exists (new1 ++ new2). rewrite Hlog2, Hlog1, <- app_assoc. split; [done|].
      rewrite requested_app, Hok1, (Hok2 _ eq_refl). eauto.
    + exists (new1 ++ new2 ++ [EvPrint ("Error getting pools/default from node " +:+ node
                 +:+ ": " +:+ Error err +:+ gostr.nl)]).
      rewrite Hlog2, Hlog1, <- !app_assoc. split; [done|].
      rewrite !requested_app, Hok1. simpl. rewrite app_nil_r.
      split; [|split; [intros ? [=]|eauto]].
      destruct Hreq2 as [-> | ->]; simpl.
      * by exists [node +:+ "/pools/default"].
      * done.
  - exists (new1 ++ [EvPrint ("Error getting bucket settings from node " +:+ node
                 +:+ ": " +:+ Error err +:+ gostr.nl)]).
    rewrite Hlog1, <- app_assoc. split; [done|].
    rewrite requested_app. simpl. rewrite app_nil_r.
    split; [|split; [intros ? [=]|]].
    + destruct Hreq1 as [-> | ->].
      * apply prefix_nil.
      * by exists [node +:+ "/pools/default"].
    + destruct Hreq1 as [-> | ->]; intros [=].
Qed.

Lemma polls_det cluster nodes cerr st tried1 o1 st1 :
  polls cluster nodes cerr st tried1 o1 st1 →
  ∀ tried2 o2 st2, polls cluster nodes cerr st tried2 o2 st2 →
  tried1 = tried2 ∧ o1 = o2 ∧ st1 = st2.
Proof.
  induction 1 as [| |node rest cerr st err st1 tried o st2 Htry Hp IH];
    intros tried2 o2 st2' Hp2; inversion Hp2; subst; try done; try congruence.
  { split; [done|]. split; congruence. }
  match goal with
  | Ha : try_node _ _ _ = (inr ?e, ?s), Hb : polls _ _ (Some ?e) ?s _ _ _ |- _ =>
      rewrite Htry in Ha; injection Ha as <- <-;
      destruct (IH _ _ _ Hb) as (-> & -> & ->)
  end. done.
Qed.

(** The nodes tried are the first nodes of the list, in order; they are all
    of them when no node answered. *)
Lemma polls_tried cluster nodes cerr st tried o st' :
  polls cluster nodes cerr st tried o st' →
  ∃ rest, nodes = tried ++ rest
          ∧ match o with
            | AllFailed _ => rest = []
            | Answered _ _ => tried ≠ []
            end.
Proof.
  induction 1 as [| |node rest cerr st err st1 tried o st2 Htry Hp (rest' & -> & Ho)].
  - by exists [].
  - by exists rest.
  - exists rest'. split; [done|]. destruct o; done.
Qed.

(** The last error: the one of the last node when there is one, the initial
    one otherwise. *)
Lemma polls_last_error cluster nodes cerr st tried last st' :
  polls cluster nodes cerr st tried (AllFailed last) st' →
  (nodes = [] ∧ last = cerr)
  ∨ ∃ front node sta stb err,
      nodes = front ++ [node] ∧ try_node cluster node sta = (inr err, stb)
      ∧ last = Some err ∧ stb = st'.
Proof.
  remember (AllFailed last) as o eqn:Ho.
  induction 1 as [| |node rest cerr st err st1 tried o st2 Htry Hp IH].
  - left. split; congruence.
  - discriminate.
  - right. destruct (IH Ho) as [[-> ->] | (front & n & sta & stb & e & -> & Ht & -> & ->)].
    + inversion Hp; subst. exists [], node, st, st2, err. done.
    + exists (node :: front), n, sta, st2, e. done.
Qed.

(** The requests of a poll go to the nodes tried, in order, and to no
    other. *)
Lemma polls_log cluster nodes cerr st tried o st' :
  polls cluster nodes cerr st tried o st' →
  ∃ new per,
    log st' = log st ++ new
    ∧ requested new = concat per
    ∧ Forall2 (λ node reqs, reqs `prefix_of` node_urls node) tried per.
Proof.
  induction 1 as [| node rest cerr st pools poolsDefaults st1 Htry
                  |node rest cerr st err st1 tried o st2 Htry Hp (new & per & Hlog & Hreq & Hall)].
  - exists [], []. rewrite app_nil_r. done.
  - destruct (try_node_log cluster node st) as (new & Hlog & Hpre & _).
    rewrite Htry in Hlog. exists new, [requested new]. simpl. rewrite app_nil_r.
    split; [done|]. split; [done|]. by constructor.
  - destruct (try_node_log cluster node st) as (new1 & Hlog1 & Hpre & _).
    rewrite Htry in Hlog1. simpl in Hlog1.
    exists (new1 ++ new), (requested new1 :: per).
    rewrite Hlog, Hlog1, <- app_assoc, requested_app, Hreq. split; [done|]. split; [done|].
    by constructor.
Qed.

Lemma written_app l1 l2 : written (l1 ++ l2) = written l1 ++ written l2.
Proof. unfold written. apply omap_app. Qed.

Lemma executeGet_written r uri st :
  written (log (executeGet r uri st).2) = written (log st).
Proof.
  unfold executeGet. destruct (NewRequest_check "GET" uri); [done|].
  unfold executeRequest. rewrite bind_run. unfold Do at 1.
  destruct (client_Do (world st) _) as [w res].
  assert (Hst : ∀ x : Response body + GoError,
    written (log ((mret x : M _) {| world := w; log := log st ++ [EvHttp
      {| Method := "GET"; URL := uri; BasicAuth := Some (username r, password r) |}] |}).2)
    = written (log st)).
  { intros x. cbn. rewrite written_app. simpl. by rewrite app_nil_r. }
  destruct res as [resp|err]; [|apply Hst].
  repeat (case_match; try apply Hst).
Qed.

Lemma GetPoolsData_written r st :
  written (log (GetPoolsData r st).2) = written (log st).
Proof.
  unfold GetPoolsData. rewrite bind_run.
  pose proof (executeGet_written r (host r +:+ "/pools") st) as Hw.
  destruct (executeGet r _ st) as [[resp|err] st1]; simpl in *; [|done].
  by destruct (Decode_Pools (Body resp)).
Qed.

Lemma GetPoolsDefaultData_written r st :
  written (log (GetPoolsDefaultData r st).2) = written (log st).
Proof.
  unfold GetPoolsDefaultData. rewrite bind_run.
  pose proof (executeGet_written r (host r +:+ "/pools/default") st) as Hw.
  destruct (executeGet r _ st) as [[resp|err] st1]; simpl in *; [|done].
  by destruct (Decode_PoolsDefault (Body resp)).
Qed.

Lemma try_node_written cluster node st :
  written (log (try_node cluster node st).2) = written (log st).
Proof.
  unfold try_node. rewrite bind_run.
  set (client := CreateRestClient node (Cluster.Login cluster) (Cluster.Pass cluster)).
  pose proof (GetPoolsData_written client st) as H1.
  destruct (GetPoolsData client st) as [[pools|err] st1]; simpl in *.
  - rewrite bind_run. pose proof (GetPoolsDefaultData_written client st1) as H2.
    destruct (GetPoolsDefaultData client st1) as [[poolsDefaults|err] st2]; simpl in *.
    + congruence.
    + rewrite written_app. simpl. rewrite app_nil_r. congruence.
  - rewrite written_app. simpl. rewrite app_nil_r. congruence.
Qed.

Lemma polls_written cluster nodes cerr st tried o st' :
  polls cluster nodes cerr st tried o st' → written (log st') = written (log st).
Proof.
  induction 1 as [| node rest cerr st pools poolsDefaults st1 Htry
                  |node rest cerr st err st1 tried o st2 Htry Hp IH].
  - done.
  - pose proof (try_node_written cluster node st) as Hw. by rewrite Htry in Hw.
  - pose proof (try_node_written cluster node st) as Hw. rewrite Htry in Hw.
    simpl in Hw. congruence.
Qed.

Lemma fleet_polls_written clusters st os st' :
  fleet_polls clusters st os st' → written (log st') = written (log st).
Proof.
  induction 1 as [|cluster rest st tried o st1 os st2 Hp Hf IH]; [done|].
  apply polls_written in Hp. congruence.
Qed.

(** The cluster loop writes no file. *)
Lemma assemble_written FULL clusters st :
  written (log (assemble FULL clusters st).2) = written (log st).
Proof.
  destruct (assemble_spec FULL clusters st) as (os & st' & Hf & -> & _).
  by eapply fleet_polls_written.
Qed.

Lemma choose_output_file_written flags st :
  written (log (choose_output_file flags st).2) = written (log st).
Proof.
  unfold choose_output_file. case_match; [|done].
  rewrite bind_run. unfold Now. destruct (time_Now (world st)) as [w t].
  simpl. rewrite written_app. simpl. by rewrite app_nil_r.
Qed.

(** What a run of [main] that gets to the cluster loop writes: one file,
    holding the rendering of the summary the loop assembled (none when the
    JSON encoder fails). *)
Lemma main_writes_report flags st output_file st1 config st2 clusters :
  HELP flags = false → CONFIG_FILE flags ≠ EmptyString →
  FULL flags && CSV flags = false →
  choose_output_file flags st = (output_file, st1) →
  ReadFile (CONFIG_FILE flags) st1 = (inl config, st2) →
  Unmarshal_ClusterList config = inl clusters →
  let st3 :=
    emit (EvPrint ("Working from config file: " +:+ CONFIG_FILE flags +:+ gostr.nl)) st2 in
  let s := (assemble (FULL flags) clusters st3).1 in
  written (log (main flags st).2)
  = written (log st)
    ++ (if CSV flags then [(output_file, CsvBody (csv_body s))]
        else match marshal.MarshalIndent s with
             | inl tree => [(output_file, JsonBody tree)]
             | inr _ => []
             end).
Proof.
  intros Hhelp Hcfg Hmode Hout Hread Hparse st3 s.
  pose proof (choose_output_file_written flags st) as Hw1. rewrite Hout in Hw1.
  assert (Hw2 : written (log st2) = written (log st1)).
  { unfold ReadFile in Hread. destruct (ioutil_ReadFile _ _) as [w r].
    injection Hread as _ <-. simpl. rewrite written_app. simpl. by rewrite app_nil_r. }
  assert (Hw3 : written (log st3) = written (log st)).
  { unfold st3, emit. cbn [log]. rewrite written_app. simpl. rewrite app_nil_r.
    simpl in Hw1. congruence. }
  pose proof (assemble_written (FULL flags) clusters st3) as Hw4. rewrite Hw3 in Hw4.
  unfold main. rewrite Hhelp, Hmode.
  destruct (CONFIG_FILE flags) as [|c cfg] eqn:Ecfg; [done|].
  cbn [orb String.length Nat.eqb]. rewrite bind_run, Hout, bind_run, Hread, Hparse.
  rewrite bind_run. unfold Printf at 1. fold st3. rewrite bind_run.
  fold s. destruct (assemble (FULL flags) clusters st3) as [s' st4] eqn:Hrun.
  subst s. cbn [fst snd] in *.
  unfold render_and_write.
  assert (Hwrite : ∀ content,
    written (log
      ((err ← WriteFile output_file content 420;
        match err with
        | Some e =>
            Printf ("Error writing output file " +:+ output_file +:+ ": " +:+ Error e
                    +:+ gostr.nl)
        | None =>
            Printf ("Wrote information on "
                    +:+ gostr.fmt_d (SummaryInfo.NumClusters s')
                    +:+ " clusters to file " +:+ output_file +:+ "." +:+ gostr.nl)
        end) st4).2)
    = written (log st) ++ [(output_file, content)]).
  { intros content. rewrite bind_run. unfold WriteFile.
    destruct (ioutil_WriteFile _ _ _ _) as [w [e|]]; unfold Printf, emit; cbn [snd log];
      rewrite !written_app; simpl; by rewrite app_nil_r, Hw4. }
  destruct (CSV flags); [apply Hwrite|].
  destruct (marshal.MarshalIndent s') as [tree|e]; [apply Hwrite|].
  unfold Printf, emit. cbn [snd log]. rewrite written_app. simpl. by rewrite Hw4.
Qed.

End ProgramFacts.

(** ** Formatting *)

Lemma pretty_N_char_digit x : is_digit (pretty_N_char x) = true.
Proof. unfold pretty_N_char. by repeat case_match. Qed.

Lemma pretty_N_go_digits x : ∀ s,
  all_digits s = true → all_digits (pretty_N_go x s) = true.
Proof.
  induction (N.lt_wf_0 x) as [x _ IH]; intros s Hs.
  assert (x = 0 ∨ 0 < x)%N as [->|Hx] by lia.
  - by rewrite pretty_N_go_0.
  - rewrite pretty_N_go_step by done. apply IH.
    + by apply N.div_lt.
    + simpl. by rewrite pretty_N_char_digit, Hs.
Qed.

Lemma pretty_N_go_nonempty x : ∀ s,
  (0 < x)%N ∨ s ≠ EmptyString → pretty_N_go x s ≠ EmptyString.
Proof.
  induction (N.lt_wf_0 x) as [x _ IH]; intros s Hs.
  assert (x = 0 ∨ 0 < x)%N as [->|Hx] by lia.
  - rewrite pretty_N_go_0. destruct Hs; [lia|done].
  - rewrite pretty_N_go_step by done. apply IH.
    + by apply N.div_lt.
    + by right.
Qed.

Lemma pretty_N_digits (x : N) :
  all_digits (pretty x) = true ∧ pretty x ≠ EmptyString.
Proof.
  unfold pretty, pretty_N. case_decide; [done|]. split.
  - by apply pretty_N_go_digits.
  - apply pretty_N_go_nonempty. left. lia.
Qed.

Lemma pretty_Z_digits (z : Z) :
  0 ≤ z → all_digits (pretty z) = true ∧ pretty z ≠ EmptyString.
Proof.
  intros Hz. destruct z as [|p|p]; [done| |lia].
  apply (pretty_N_digits (N.pos p)).
Qed.

Lemma pretty_Z_one_digit (z : Z) :
  0 ≤ z < 10 → ∃ c, pretty z = String c EmptyString ∧ is_digit c = true.
Proof.
  intros Hz.
  assert (z = 0 ∨ z = 1 ∨ z = 2 ∨ z = 3 ∨ z = 4 ∨ z = 5 ∨ z = 6 ∨ z = 7 ∨ z = 8 ∨ z = 9)
    as Hcases by lia.
  repeat (destruct Hcases as [->|Hcases]; [eexists; split; reflexivity|]).
  subst. eexists; split; reflexivity.
Qed.

Lemma after_digit_intro ds d :
  all_digits ds = true → is_digit d = true →
  after_digit (ds +:+ "." +:+ String d EmptyString) = true.
Proof.
  induction ds as [|c ds IH]; intros Hall Hd; [done|].
  simpl in Hall. apply andb_true_iff in Hall as [Hc Hds].
  change (String c ds +:+ ?x) with (String c (ds +:+ x)). cbn [after_digit].
  destruct (Ascii.eqb_spec c "."%char) as [->|_]; [done|].
  rewrite Hc. by apply IH.
Qed.

Lemma unsigned_one_decimal_intro ds d :
  all_digits ds = true → ds ≠ EmptyString → is_digit d = true →
  unsigned_one_decimal (ds +:+ "." +:+ String d EmptyString) = true.
Proof.
  destruct ds as [|c ds]; intros Hall Hne Hd; [done|].
  simpl in Hall. apply andb_true_iff in Hall as [Hc Hds].
  change (String c ds +:+ ?x) with (String c (ds +:+ x)). cbn [unsigned_one_decimal].
  rewrite Hc. by apply after_digit_intro.
Qed.

Lemma round_half_even_nonneg m e : 0 ≤ m → 0 ≤ gostr.round_half_even m e.
Proof.
  intros Hm. unfold gostr.round_half_even.
  destruct (0 <=? e) eqn:He.
  - apply Z.mul_nonneg_nonneg; [done|]. apply Z.pow_nonneg. lia.
  - assert (0 < 2 ^ (- e)) by (apply Z.pow_pos_nonneg; lia).
    assert (0 ≤ m `div` 2 ^ (- e)) by (apply Z.div_pos; lia).
    repeat case_match; lia.
Qed.

Lemma digit_not_dash c : is_digit c = true → c ≠ "-"%char.
Proof. intros Hc ->. done. Qed.

(** A finite number is printed as a numeral with one decimal. *)
Lemma fmt_f1_one_decimal f :
  marshal.float_ok f = true → one_decimal (gostr.fmt_f1 f) = true.
Proof.
  unfold marshal.float_ok, gostr.fmt_f1.
  destruct (Prim2SF f) as [s|s| |s m e]; try done.
  - by destruct s.
  - intros _.
    set (n := gostr.round_half_even (Z.pos m * 10) e).
    assert (Hn : 0 ≤ n) by (apply round_half_even_nonneg; lia).
    destruct (pretty_Z_digits (n `div` 10)) as [Hall Hne]; [apply Z.div_pos; lia|].
    destruct (pretty_Z_one_digit (n `mod` 10)) as (d & -> & Hd); [apply Z.mod_pos_bound; lia|].
    pose proof (unsigned_one_decimal_intro _ d Hall Hne Hd) as Hu.
    destruct s; simpl.
    + exact Hu.
    + unfold one_decimal.
      destruct (pretty (n `div` 10)) as [|c ds] eqn:E; [done|].
      simpl in Hall. apply andb_true_iff in Hall as [Hc _].
      change (String c ds +:+ "." +:+ String d EmptyString)
        with (String c (ds +:+ "." +:+ String d EmptyString)) in *.
      destruct (Ascii.eqb_spec c "-"%char) as [->|Hneq]; [done|].
      destruct c as [[] [] [] [] [] [] [] []]; try done.
Qed.

(** No number is printed as [N/A]. *)
Lemma fmt_f1_not_NA f : gostr.fmt_f1 f ≠ "N/A".
Proof.
  unfold gostr.fmt_f1.
  destruct (Prim2SF f) as [s|s| |s m e]; try done.
  - by destruct s.
  - by destruct s.
  - set (n := gostr.round_half_even (Z.pos m * 10) e).
    assert (Hn : 0 ≤ n) by (apply round_half_even_nonneg; lia).
    destruct (pretty_Z_digits (n `div` 10)) as [Hall Hne]; [apply Z.div_pos; lia|].
    destruct s; simpl; [done|].
    destruct (pretty (n `div` 10)) as [|c ds] eqn:E; [done|].
    simpl in Hall. apply andb_true_iff in Hall as [Hc _].
    simpl. intros [= -> _]. done.
Qed.

Lemma string_app_assoc (a b c : string) : (a +:+ b) +:+ c = a +:+ (b +:+ c).
Proof.
  induction a as [|x a IH]; [done|].
  change (String x ((a +:+ b) +:+ c) = String x (a +:+ (b +:+ c))). by rewrite IH.
Qed.

Lemma no_tab_app a b : gostr.no_tab (a +:+ b) = gostr.no_tab a && gostr.no_tab b.
Proof.
  induction a as [|x a IH]; [done|].
  change (String x a +:+ b) with (String x (a +:+ b)). cbn [gostr.no_tab].
  by rewrite IH, andb_assoc.
Qed.

Lemma split_tabs_nonempty s : gostr.split_tabs s ≠ [].
Proof.
  induction s as [|c s IH]; [done|]. cbn [gostr.split_tabs].
  destruct (Ascii.eqb c "009"); [done|]. by destruct (gostr.split_tabs s).
Qed.

(** Splitting after a field without tab. *)
Lemma split_tabs_field a b :
  gostr.no_tab a = true →
  gostr.split_tabs (a +:+ gostr.tab +:+ b) = a :: gostr.split_tabs b.
Proof.
  induction a as [|c a IH]; intros Ha; [done|].
  cbn [gostr.no_tab] in Ha. apply andb_true_iff in Ha as [Hc Ha].
  change (String c a +:+ ?x) with (String c (a +:+ x)). cbn [gostr.split_tabs].
  apply negb_true_iff in Hc. rewrite Hc, (IH Ha). done.
Qed.

Lemma split_tabs_last a : gostr.no_tab a = true → gostr.split_tabs a = [a].
Proof.
  induction a as [|c a IH]; intros Ha; [done|].
  cbn [gostr.no_tab] in Ha. apply andb_true_iff in Ha as [Hc Ha].
  cbn [gostr.split_tabs]. apply negb_true_iff in Hc. by rewrite Hc, (IH Ha).
Qed.

Lemma digit_no_tab c : is_digit c = true → Ascii.eqb c "009" = false.
Proof. intros Hc. destruct (Ascii.eqb_spec c "009") as [->|]; done. Qed.

Lemma all_digits_no_tab s : all_digits s = true → gostr.no_tab s = true.
Proof.
  induction s as [|c s IH]; [done|]. cbn [all_digits gostr.no_tab].
  intros [Hc Hs]%andb_true_iff. by rewrite (digit_no_tab c Hc), (IH Hs).
Qed.

Lemma pretty_Z_no_tab (z : Z) : gostr.no_tab (pretty z) = true.
Proof.
  destruct z as [|p|p]; [done|..].
  - apply all_digits_no_tab, (pretty_N_digits (N.pos p)).
  - change (pretty (Z.neg p)) with ("-" +:+ pretty (N.pos p)).
    rewrite no_tab_app. simpl. apply all_digits_no_tab, (pretty_N_digits (N.pos p)).
Qed.

Lemma fmt_f1_no_tab f : gostr.no_tab (gostr.fmt_f1 f) = true.
Proof.
  unfold gostr.fmt_f1.
  destruct (Prim2SF f) as [s|s| |s m e]; try done.
  - by destruct s.
  - by destruct s.
  - rewrite !no_tab_app, !pretty_Z_no_tab. by destruct s.
Qed.

(** Ties go to the even digit, the sign of zero is kept. *)
Example fmt_f1_examples :
  gostr.fmt_f1 0.25 = "0.2" ∧ gostr.fmt_f1 0.75 = "0.8" ∧ gostr.fmt_f1 2.5 = "2.5"
  ∧ gostr.fmt_f1 8 = "8.0" ∧ gostr.fmt_f1 (-0.03125) = "-0.0"
  ∧ gostr.fmt_f1 1024.96875 = "1025.0" ∧ gostr.fmt_f1 infinity = "+Inf".
Proof. repeat split; vm_compute; reflexivity. Qed.

Example default_output_file_example :
  default_output_file (mk_Time 2024 1 2 3 4 5) = "cbsummary.out.2024-01-02-03:04:05".
Proof. vm_compute. reflexivity. Qed.

(** ** The claims *)

Section Claims.
Context `{Platform}.

Lemma fleet_polls_det clusters st os1 st1 :
  fleet_polls clusters st os1 st1 →
  ∀ os2 st2, fleet_polls clusters st os2 st2 → os1 = os2 ∧ st1 = st2.
Proof.
  induction 1 as [|cluster rest st tried o st1 os st2 Hp Hf IH]; intros os2 st2' Hf2;
    inversion Hf2; subst; [done|].
  match goal with
  | Ha : polls _ _ None st _ _ _, Hb : fleet_polls rest _ _ st2' |- _ =>
      destruct (polls_det _ _ _ _ _ _ _ Hp _ _ _ Ha) as (_ & -> & ->);
      destruct (IH _ _ Hb) as [-> ->]
  end. done.
Qed.

Lemma fleet_polls_lookup clusters st os st' :
  fleet_polls clusters st os st' →
  ∀ i cluster o, clusters !! i = Some cluster → os !! i = Some o →
  ∃ sta tried stb, polls cluster (elems (Cluster.Nodes cluster)) None sta tried o stb.
Proof.
  induction 1 as [|cluster rest st tried o st1 os st2 Hp Hf IH]; intros i c o' Hc Ho.
  - done.
  - destruct i as [|i]; simpl in *.
    + injection Hc as <-. injection Ho as <-. eauto.
    + eauto.
Qed.

Lemma record_of_is_error FULL cluster o :
  is_error (record_of FULL cluster o) = true ↔ ∃ last, o = AllFailed last.
Proof.
  destruct o as [pools poolsDefaults|last]; simpl.
  - destruct FULL; simpl; split; try done; intros [? [=]].
  - split; eauto.
Qed.

(** The records of the report, slot by slot. *)
Lemma assemble_lookup FULL clusters st :
  let cs := elems (ClusterList.Clusters clusters) in
  let s := (assemble FULL clusters st).1 in
  length (SummaryInfo.Clusters s) = length cs
  ∧ ∃ os,
      fleet_polls cs st os (assemble FULL clusters st).2
      ∧ length os = length cs
      ∧ ∀ i cluster, cs !! i = Some cluster →
          ∃ o, os !! i = Some o
               ∧ SummaryInfo.Clusters s !! i = Some (record_of FULL cluster o).
Proof.
  intros cs s.
  destruct (assemble_spec FULL clusters st) as (os & st' & Hf & Hst & Hc & _).
  fold cs in Hf, Hc. fold s in Hc.
  pose proof (fleet_polls_length _ _ _ _ Hf) as Hlen.
  split.
  - rewrite Hc, length_zip_with. lia.
  - exists os. rewrite Hst. split; [done|]. split; [done|].
    intros i cluster Hi.
    destruct (lookup_lt_is_Some_2 os i) as [o Ho].
    { rewrite Hlen. by eapply lookup_lt_Some. }
    exists o. split; [done|].
    rewrite Hc. rewrite lookup_zip_with, Hi. simpl. by rewrite Ho.
Qed.

(** C1. Whatever the configuration and the network, the report has one
    record per configured cluster, at the cluster's index; polling the
    clusters one after the other from the initial state gives each an
    outcome, and the record at a cluster's index is the one of its outcome:
    an error record exactly when every node of the cluster failed, a full
    or brief record otherwise. *)
Theorem one_record_per_cluster (FULL : bool) (clusters : ClusterList.t) (st : St) :
  let cs := elems (ClusterList.Clusters clusters) in
  let s := (assemble FULL clusters st).1 in
  length (SummaryInfo.Clusters s) = length cs
  ∧ ∃ os,
      fleet_polls cs st os (assemble FULL clusters st).2
      ∧ length os = length cs
      ∧ ∀ i cluster, cs !! i = Some cluster →
          ∃ o, os !! i = Some o
               ∧ SummaryInfo.Clusters s !! i = Some (record_of FULL cluster o)
               ∧ (is_error (record_of FULL cluster o) = true ↔ ∃ last, o = AllFailed last)
               ∧ (∀ e, record_of FULL cluster o = ErrorRecord e →
                       ClusterError.TheCluster e = cluster)
               ∧ record_of FULL cluster o ≠ NilRecord.
Proof.
  intros cs s.
  destruct (assemble_lookup FULL clusters st) as (Hlen & os & Hf & Hos & Hrec).
  split; [done|]. exists os. split; [done|]. split; [done|].
  intros i cluster Hi. destruct (Hrec i cluster Hi) as (o & Ho & Hs).
  exists o. split; [done|]. split; [done|].
  split; [apply record_of_is_error|]. split.
  - destruct o as [? ?|last]; simpl.
    + destruct FULL; intros ? [=].
    + intros e [= <-]. done.
  - destruct o; simpl; [destruct FULL|]; done.
Qed.

(** C2. When the node counts of the records add up to less than 2^63 (they
    are lengths of slices held in memory), the report's [#clusters] is the
    number of configured clusters, [#nodes] is the sum of the node counts
    of the full and brief records, the values of [#nodeVersions] add up to
    [#nodes], each version being counted as often as it occurs among the
    nodes of the full and brief records; error records count no node and
    no version, and the poll of a cluster every node of which fails leaves
    [#nodes] and [#nodeVersions] as they were. *)
Theorem node_totals (FULL : bool) (clusters : ClusterList.t) (st : St) :
  let s := (assemble FULL clusters st).1 in
  total_nodes (SummaryInfo.Clusters s) < 2 ^ 63 →
  SummaryInfo.NumClusters s = goint.len (elems (ClusterList.Clusters clusters))
  ∧ SummaryInfo.TotalNumNodes s = total_nodes (SummaryInfo.Clusters s)
  ∧ sum_values (SummaryInfo.NodeVersions s) = SummaryInfo.TotalNumNodes s
  ∧ (∀ v, map_get (SummaryInfo.NodeVersions s) v
          = occurrences v (all_versions (SummaryInfo.Clusters s)))
  ∧ (∀ r, r ∈ SummaryInfo.Clusters s → is_error r = true →
          record_nodes r = 0 ∧ record_versions r = [])
  ∧ (∀ cnum cluster s0 st0 tried last st1,
       polls cluster (elems (Cluster.Nodes cluster)) None st0 tried (AllFailed last) st1 →
       SummaryInfo.TotalNumNodes (poll_cluster FULL cnum cluster s0 st0).1
       = SummaryInfo.TotalNumNodes s0
       ∧ SummaryInfo.NodeVersions (poll_cluster FULL cnum cluster s0 st0).1
         = SummaryInfo.NodeVersions s0).
Proof.
  intros s Hlt.
  destruct (assemble_spec FULL clusters st) as (os & st' & Hf & Hst & Hc & Hn & Ht & Hv).
  fold s in Hc, Hn, Ht, Hv. rewrite <- Hc in Ht, Hv.
  assert (Hlen : total_nodes (SummaryInfo.Clusters s)
                 = Z.of_nat (length (all_versions (SummaryInfo.Clusters s)))).
  { rewrite Hc. apply total_nodes_all_versions. }
  destruct (tally_counts (all_versions (SummaryInfo.Clusters s)) ∅) as (_ & Hsum & Hocc).
  { intros k x. by rewrite lookup_empty. }
  { rewrite sum_values_empty. lia. }
  assert (Htot : SummaryInfo.TotalNumNodes s = total_nodes (SummaryInfo.Clusters s)).
  { rewrite Ht. apply wrap64_small. lia. }
  split; [done|]. split; [done|]. split.
  { rewrite Hv, Hsum, sum_values_empty, Htot. lia. }
  split.
  { intros v. rewrite Hv, Hocc. unfold map_get. rewrite lookup_empty. simpl. lia. }
  split; [intros r _ Hr; destruct r; done|].
  intros cnum cluster s0 st0 tried last st1 Hp.
  destruct (poll_cluster_spec FULL cnum cluster s0 st0) as (tried' & o & st2 & Hp' & ->).
  destruct (polls_det _ _ _ _ _ _ _ Hp _ _ _ Hp') as (_ & <- & _). done.
Qed.

(** C3. Polling a cluster tries the first nodes of its list, in order, and
    stops at the first node that gives both payloads, after its two
    requests.  For each node tried
    it asks for [/pools] and then, only once that call succeeded, for
    [/pools/default]; the requests made are those of the nodes tried and of
    no other node.  A node one of whose calls fails leaves its error as the
    last error and the next node is tried.  When no node answered, all
    nodes were tried and the cluster's record is an error record whose
    message is that of the last node's error, or [Unknown Error] when the
    list is empty. *)
Theorem poller_first_answer (FULL : bool) (cnum : nat) (cluster : Cluster.t)
    (s : SummaryInfo.t) (st : St) :
  let nodes := elems (Cluster.Nodes cluster) in
  ∃ tried rest o st',
    polls cluster nodes None st tried o st'
    ∧ nodes = tried ++ rest
    ∧ (poll_cluster FULL cnum cluster s st).2 = st'
    ∧ SummaryInfo.Clusters (poll_cluster FULL cnum cluster s st).1
      = <[cnum := record_of FULL cluster o]> (SummaryInfo.Clusters s)
    ∧ (∃ new per,
         log st' = log st ++ new
         ∧ requested new = concat per
         ∧ Forall2 (λ node reqs, reqs `prefix_of` node_urls node) tried per)
    ∧ match o with
      | Answered pools poolsDefaults =>
          ∃ front node sta new,
            tried = front ++ [node]
            ∧ try_node cluster node sta = (inl (pools, poolsDefaults), st')
            ∧ log st' = log sta ++ new
            ∧ requested new = node_urls node
      | AllFailed last =>
          rest = []
          ∧ ((nodes = [] ∧ last = None
              ∧ record_of FULL cluster o
                = ErrorRecord (ClusterError.mk cluster "Unknown Error"))
             ∨ (∃ front node sta err,
                  nodes = front ++ [node]
                  ∧ try_node cluster node sta = (inr err, st')
                  ∧ last = Some err
                  ∧ record_of FULL cluster o
                    = ErrorRecord (ClusterError.mk cluster (Error err))))
      end.
Proof.
  intros nodes.
  destruct (poll_cluster_spec FULL cnum cluster s st) as (tried & o & st' & Hp & Hrun).
  fold nodes in Hp.
  destruct (polls_tried _ _ _ _ _ _ _ Hp) as (rest & Hnodes & Ho).
  exists tried, rest, o, st'. rewrite Hrun.
  split; [done|]. split; [done|]. split; [done|]. split; [done|].
  split; [by eapply polls_log|].
  destruct o as [pools poolsDefaults|last].
  - clear Ho Hnodes Hrun. remember (Answered pools poolsDefaults) as o eqn:Eo.
    induction Hp as [| node rest' cerr st0 p d st1 Htry
                     |node rest' cerr st0 err st1 tried o st2 Htry Hp IH].
    + discriminate.
    + injection Eo as -> ->.
      destruct (try_node_log cluster node st0) as (new & Hlog & _ & Hok & _).
      rewrite Htry in Hlog, Hok. exists [], node, st0, new.
      split; [done|]. split; [done|]. split; [done|]. by eapply Hok.
    + destruct (IH Eo) as (front & n & sta & new & -> & Hn).
      by exists (node :: front), n, sta, new.
  - split; [done|].
    destruct (polls_last_error _ _ _ _ _ _ _ Hp)
      as [[Hnil ->] | (front & node & sta & stb & err & Hfront & Htry & -> & ->)].
    + left. done.
    + right. exists front, node, sta, err. done.
Qed.

(** C10. The record of a cluster every node of which failed is an error
    record that holds the whole configured entry of the cluster; in the
    JSON report it is printed with the login, the password in clear under
    the key [pass], and the node list, next to the error message. *)
Theorem error_record_embeds_password (FULL : bool) (clusters : ClusterList.t) (st : St)
    (os : list Outcome) (st' : St) (i : nat) (cluster : Cluster.t)
    (last : option GoError) :
  fleet_polls (elems (ClusterList.Clusters clusters)) st os st' →
  elems (ClusterList.Clusters clusters) !! i = Some cluster →
  os !! i = Some (AllFailed last) →
  let s := (assemble FULL clusters st).1 in
  ∃ e,
    SummaryInfo.Clusters s !! i = Some (ErrorRecord e)
    ∧ ClusterError.TheCluster e = cluster
    ∧ marshal.ClusterRecord (ErrorRecord e)
      = JObject [("error_with_cluster",
                  JObject [("login", JString (Cluster.Login cluster));
                           ("pass", JString (Cluster.Pass cluster));
                           ("nodes", marshal.strings (Cluster.Nodes cluster))]);
                 ("error_message", JString (ClusterError.ErrMsg e))]
    ∧ ∀ tree, marshal.MarshalIndent s = inl tree →
        ∃ n1 n2 n3 items,
          tree = JObject [n1; n2; n3; ("clusters", JArray items)]
          ∧ items !! i = Some (marshal.ClusterRecord (ErrorRecord e)).
Proof.
  intros Hf Hi Ho s.
  destruct (assemble_lookup FULL clusters st) as (_ & os' & Hf' & _ & Hrec).
  destruct (fleet_polls_det _ _ _ _ Hf _ _ Hf') as [<- _].
  destruct (Hrec i cluster Hi) as (o & Ho' & Hs).
  rewrite Ho in Ho'. injection Ho' as <-. fold s in Hs. simpl in Hs.
  exists (error_record cluster last).
  split; [done|]. split; [done|]. split; [done|].
  intros tree. unfold marshal.MarshalIndent. case_match; [|done].
  intros [= <-]. unfold marshal.SummaryInfo. do 4 eexists. split; [done|].
  by rewrite list_lookup_fmap, Hs.
Qed.

Lemma less_is_ltb a b : gostr.less a b = String.ltb a b.
Proof.
  unfold String.ltb. revert b.
  induction a as [|x a IH]; intros [|y b]; simpl; try done.
  unfold Ascii.compare. rewrite IH.
  destruct (N.ltb_spec (N_of_ascii x) (N_of_ascii y)) as [Hlt|Hge].
  - apply N.compare_lt_iff in Hlt. by rewrite Hlt.
  - destruct (N.ltb_spec (N_of_ascii y) (N_of_ascii x)) as [Hgt|Hle].
    + apply N.compare_gt_iff in Hgt. by rewrite Hgt.
    + assert (N_of_ascii x = N_of_ascii y) as Heq by lia.
      apply N.compare_eq_iff in Heq. by rewrite Heq.
Qed.

(** The six columns of a line. *)
Lemma csv_row_columns cnum cluster node :
  csv_row cnum cluster node =
  gostr.Join [gostr.fmt_d (Z.of_nat cnum); BriefCluster.UUID cluster;
              gostr.fmt_d (BriefCluster.Size cluster); BriefNode.Name node;
              (if gostr.less (BriefNode.Version node) "6.5" then "N/A"
               else gostr.fmt_f1 (BriefNode.Cores node));
              gostr.fmt_f1 (BriefNode.RAM node)] gostr.tab
  +:+ gostr.nl.
Proof.
  unfold csv_row. cbn [gostr.Join].
  destruct (gostr.less _ _); by rewrite !string_app_assoc.
Qed.

(** Cutting a line at its tabs gives back the six columns, when neither the
    UUID nor the host name holds a tab. *)
Lemma csv_row_split cnum cluster node :
  gostr.no_tab (BriefCluster.UUID cluster) = true →
  gostr.no_tab (BriefNode.Name node) = true →
  gostr.split_tabs (csv_row cnum cluster node)
  = [gostr.fmt_d (Z.of_nat cnum); BriefCluster.UUID cluster;
     gostr.fmt_d (BriefCluster.Size cluster); BriefNode.Name node;
     (if gostr.less (BriefNode.Version node) "6.5" then "N/A"
      else gostr.fmt_f1 (BriefNode.Cores node));
     gostr.fmt_f1 (BriefNode.RAM node) +:+ gostr.nl].
Proof.
  intros Huuid Hname. rewrite csv_row_columns. cbn [gostr.Join].
  rewrite !string_app_assoc.
  rewrite split_tabs_field by apply pretty_Z_no_tab.
  rewrite split_tabs_field by done.
  rewrite split_tabs_field by apply pretty_Z_no_tab.
  rewrite split_tabs_field by done.
  rewrite split_tabs_field by (destruct (gostr.less _ _); [done|apply fmt_f1_no_tab]).
  rewrite split_tabs_last; [done|].
  rewrite no_tab_app, fmt_f1_no_tab. done.
Qed.

Lemma elem_of_concat {A} (x : A) (ls : list (list A)) :
  x ∈ concat ls ↔ ∃ l, x ∈ l ∧ l ∈ ls.
Proof.
  rewrite list_elem_of_In, in_concat. split.
  - intros (l & Hl & Hx). exists l. by rewrite !list_elem_of_In.
  - intros (l & Hx & Hl). exists l. by rewrite <- !list_elem_of_In.
Qed.

Lemma elem_of_csv_rows s row :
  row ∈ csv_rows s ↔
  ∃ cnum cluster node,
    SummaryInfo.Clusters s !! cnum = Some (BriefRecord cluster)
    ∧ node ∈ BriefCluster.Nodes cluster
    ∧ row = csv_row cnum cluster node.
Proof.
  unfold csv_rows. rewrite elem_of_concat. split.
  - intros (rows & Hrow & Hrows).
    apply elem_of_lookup_imap in Hrows as (cnum & r & -> & Hr).
    destruct r as [|c|cluster|e]; simpl in Hrow; try by apply elem_of_nil in Hrow.
    apply list_elem_of_fmap in Hrow as (node & -> & Hnode).
    by exists cnum, cluster, node.
  - intros (cnum & cluster & node & Hr & Hnode & ->).
    exists (csv_cluster_rows cnum (BriefRecord cluster)). split.
    + simpl. apply list_elem_of_fmap. by exists node.
    + apply elem_of_lookup_imap. by exists cnum, (BriefRecord cluster).
Qed.

(** C4. Every line of the tabular output is the line of a node of a brief
    record and has six tab-separated columns (cutting the line at its tabs
    gives them back when the UUID and the host name hold no tab); its
    [cpu_cores] column, the fifth, is [N/A] exactly when the node's version is below ["6.5"] in the
    byte-wise lexicographic order of strings, and otherwise the core count
    printed with one decimal, which is never [N/A] and is a decimal
    numeral for every finite count.  Version ["6.1.0"] is below ["6.5"],
    version ["6.6.0"] is not. *)
Theorem csv_cores_column (s : SummaryInfo.t) (row : string) :
  row ∈ csv_rows s →
  (∃ cnum cluster node cores,
     SummaryInfo.Clusters s !! cnum = Some (BriefRecord cluster)
     ∧ node ∈ BriefCluster.Nodes cluster
     ∧ row = gostr.Join [gostr.fmt_d (Z.of_nat cnum); BriefCluster.UUID cluster;
                         gostr.fmt_d (BriefCluster.Size cluster); BriefNode.Name node;
                         cores; gostr.fmt_f1 (BriefNode.RAM node)] gostr.tab
             +:+ gostr.nl
     ∧ (gostr.no_tab (BriefCluster.UUID cluster) = true →
        gostr.no_tab (BriefNode.Name node) = true →
        gostr.split_tabs row !! 4%nat = Some cores)
     ∧ (cores = "N/A" ↔ gostr.less (BriefNode.Version node) "6.5" = true)
     ∧ (gostr.less (BriefNode.Version node) "6.5" = false →
        cores = gostr.fmt_f1 (BriefNode.Cores node)
        ∧ (marshal.float_ok (BriefNode.Cores node) = true → one_decimal cores = true)))
  ∧ (∀ v, gostr.less v "6.5" = String.ltb v "6.5")
  ∧ gostr.less "6.1.0" "6.5" = true
  ∧ gostr.less "6.6.0" "6.5" = false.
Proof.
  intros Hrow. split; [|split; [intros; apply less_is_ltb|done]].
  apply elem_of_csv_rows in Hrow as (cnum & cluster & node & Hr & Hnode & ->).
  exists cnum, cluster, node,
    (if gostr.less (BriefNode.Version node) "6.5" then "N/A"
     else gostr.fmt_f1 (BriefNode.Cores node)).
  split; [done|]. split; [done|]. split; [apply csv_row_columns|].
  split; [intros Huuid Hname; by rewrite csv_row_split|].
  destruct (gostr.less (BriefNode.Version node) "6.5") eqn:Hless.
  - split; [done|]. intros [=].
  - split.
    + split; [|intros [=]]. intros Hna. by apply fmt_f1_not_NA in Hna.
    + intros _. split; [done|]. apply fmt_f1_one_decimal.
Qed.

Lemma brief_node_ram info :
  BriefNode.RAM (brief_node info) = (NodeInfo.MemoryTotal info / 1024 / 1024 / 1024)%float.
Proof. reflexivity. Qed.

(** C7. A brief record in the report lists the nodes a node of the cluster
    reported, in order, each with its [memoryTotal] divided by 1024 three
    times as RAM; 17179869184 bytes give exactly 16.  The last column of a
    node's line in the tabular output is this RAM printed as a numeral with
    one decimal (for every finite value); 16 is printed as [16.0]. *)
Theorem brief_ram_gib (FULL : bool) (clusters : ClusterList.t) (st : St)
    (i : nat) (b : BriefCluster.t) :
  SummaryInfo.Clusters (assemble FULL clusters st).1 !! i = Some (BriefRecord b) →
  (∃ cluster sta tried pools poolsDefaults stb,
     elems (ClusterList.Clusters clusters) !! i = Some cluster
     ∧ polls cluster (elems (Cluster.Nodes cluster)) None sta tried
         (Answered pools poolsDefaults) stb
     ∧ Forall2 (λ info node,
                  BriefNode.RAM node
                  = (NodeInfo.MemoryTotal info / 1024 / 1024 / 1024)%float
                  ∧ BriefNode.Name node = NodeInfo.Hostname info)
         (elems (PoolsDefault.Nodes poolsDefaults)) (BriefCluster.Nodes b))
  ∧ (∀ cnum node, node ∈ BriefCluster.Nodes b →
       ∃ front, csv_row cnum b node
                = front +:+ gostr.tab +:+ gostr.fmt_f1 (BriefNode.RAM node) +:+ gostr.nl
       ∧ (marshal.float_ok (BriefNode.RAM node) = true →
          one_decimal (gostr.fmt_f1 (BriefNode.RAM node)) = true))
  ∧ (17179869184 / 1024 / 1024 / 1024)%float = 16%float
  ∧ gostr.fmt_f1 16 = "16.0".
Proof.
  intros Hb. split; [|split; [|split; [by vm_compute|by vm_compute]]].
  - destruct (assemble_lookup FULL clusters st) as (Hlen & os & Hf & _ & Hrec).
    destruct (lookup_lt_is_Some_2 (elems (ClusterList.Clusters clusters)) i) as [cluster Hi].
    { rewrite <- Hlen. by eapply lookup_lt_Some. }
    destruct (Hrec i cluster Hi) as (o & Ho & Hs).
    rewrite Hb in Hs. apply (inj Some) in Hs.
    destruct o as [pools poolsDefaults|last]; [|done].
    destruct (fleet_polls_lookup _ _ _ _ Hf i cluster _ Hi Ho) as (sta & tried & stb & Hp).
    exists cluster, sta, tried, pools, poolsDefaults, stb.
    split; [done|]. split; [done|].
    simpl in Hs. destruct FULL; [done|]. injection Hs as ->. simpl.
    apply Forall2_fmap_r, Forall_Forall2_diag, Forall_forall. done.
  - intros cnum node _. eexists. split.
    + rewrite csv_row_columns. cbn [gostr.Join].
      rewrite <- !string_app_assoc. reflexivity.
    + apply fmt_f1_one_decimal.
Qed.

Lemma print_all_run lines st :
  print_all lines st = (tt, {| world := world st; log := log st ++ map EvPrint lines |}).
Proof.
  revert st. induction lines as [|l lines IH]; intros st.
  - simpl. rewrite app_nil_r. by destruct st.
  - cbn [print_all]. rewrite bind_run. unfold Printf at 1. rewrite IH.
    unfold emit. simpl. by rewrite <- app_assoc.
Qed.

Lemma requested_prints msgs : requested (map EvPrint msgs) = [].
Proof. induction msgs; done. Qed.

Lemma written_prints msgs : written (map EvPrint msgs) = [].
Proof. induction msgs; done. Qed.

(** C6, amended.  With both the full report and the tabular output
    selected, [main] ends after printing a diagnostic and nothing else: it
    makes no HTTP request, reads and writes no file and leaves the world
    as it was.  The diagnostic is the message that the CSV format is not
    available for full reports when help was not asked for and a
    configuration file was named; it is the usage text when help was asked
    for or no configuration file was named (that test comes first). *)
Theorem full_csv_rejected (flags : Flags) (st : St) :
  FULL flags = true → CSV flags = true →
  ∃ msgs,
    (main flags st).2 = {| world := world st; log := log st ++ map EvPrint msgs |}
    ∧ msgs ≠ []
    ∧ requested (log (main flags st).2) = requested (log st)
    ∧ written (log (main flags st).2) = written (log st)
    ∧ (HELP flags = false → CONFIG_FILE flags ≠ EmptyString →
       msgs = [csv_conflict_message])
    ∧ (HELP flags = true ∨ CONFIG_FILE flags = EmptyString → msgs = usage).
Proof.
  intros Hfull Hcsv.
  assert (Hlogs : ∀ msgs,
    requested (log st ++ map EvPrint msgs) = requested (log st)
    ∧ written (log st ++ map EvPrint msgs) = written (log st)).
  { intros msgs. unfold requested, written. rewrite !omap_app.
    fold (requested (map EvPrint msgs)). fold (written (map EvPrint msgs)).
    by rewrite requested_prints, written_prints, !app_nil_r. }
  unfold main. rewrite Hfull, Hcsv.
  destruct (HELP flags) eqn:Hhelp; cbn [orb andb].
  - exists usage. rewrite print_all_run. cbn [snd log].
    destruct (Hlogs usage) as [-> ->]. repeat split; try done.
  - destruct (CONFIG_FILE flags) as [|c cfg] eqn:Hcfg; cbn [String.length Nat.eqb].
    + exists usage. rewrite print_all_run. cbn [snd log].
      destruct (Hlogs usage) as [-> ->]. repeat split; try done.
    + exists [csv_conflict_message]. unfold Printf, emit. cbn [snd log].
      change [EvPrint csv_conflict_message] with (map EvPrint [csv_conflict_message]).
      destruct (Hlogs [csv_conflict_message]) as [-> ->].
      repeat split; try done. by intros [[=]|[=]].
Qed.

Lemma ok_status_test code :
  negb (code =? http.StatusOK) && negb (code =? http.StatusAccepted)
  && negb (code =? http.StatusCreated) = false ↔ ok_status code.
Proof.
  unfold ok_status, http.StatusOK, http.StatusAccepted, http.StatusCreated.
  destruct (Z.eqb_spec code 200), (Z.eqb_spec code 202), (Z.eqb_spec code 201);
    simpl; split; try done; try lia; auto.
Qed.

(** What [executeGet] returns for a given answer of the server. *)
Lemma executeGet_answer r uri st w resp :
  NewRequest_check "GET" uri = None →
  client_Do (world st)
    {| Method := "GET"; URL := uri; BasicAuth := Some (username r, password r) |}
  = (w, inl resp) →
  (executeGet r uri st).1 =
    let code := StatusCode resp in
    let resource := URL_String uri in
    if code =? 400 then
      inr (HttpError code "GET" resource
             match ioutil_ReadAll (Body resp) with
             | inl contents => contents
             | inr _ => "<no body>"
             end)
    else if code =? 403 then
      inr (HttpError code "GET" resource
             match Decode_overlay (Body resp) with
             | inl (Message, Permissions) =>
                 Message +:+ ": " +:+ gostr.Join Permissions ", "
             | inr _ => EmptyString
             end)
    else if negb (code =? 200) && negb (code =? 202) && negb (code =? 201) then
      inr (HttpError code "GET" resource EmptyString)
    else inl resp.
Proof.
  intros Hnew Hdo. unfold executeGet. rewrite Hnew.
  unfold executeRequest. rewrite bind_run. unfold Do at 1. rewrite Hdo.
  cbn [Method URL]. unfold http.StatusBadRequest, http.StatusForbidden, http.StatusOK,
    http.StatusAccepted, http.StatusCreated.
  cbv zeta.
  destruct (StatusCode resp =? 400); [done|].
  destruct (StatusCode resp =? 403).
  { destruct (Decode_overlay (Body resp)) as [[m p]|e]; done. }
  destruct (negb _ && _ && _); done.
Qed.

(** C9, amended.  For an answer of the server to the GET of [uri]:
    [executeGet] hands the response on exactly when the status is 200, 201
    or 202, and the decoded payload is returned exactly when moreover the
    body decodes; a body that does not decode gives a [RestClientError]
    with the decoder's error.  Status 400 gives an [HttpError] with the
    text of the body ([<no body>] when it cannot be read), 401 one whose
    message asks to check username and password, 403 one whose text is the
    message and the permission list of the body when it decodes (empty
    otherwise), and every other status outside 200, 201, 202 an
    [HttpError] with that status and no text. *)
Theorem get_classifies_status (r : RestClient) (uri : string) (st : St)
    (w : World) (resp : Response body) :
  NewRequest_check "GET" uri = None →
  client_Do (world st)
    {| Method := "GET"; URL := uri; BasicAuth := Some (username r, password r) |}
  = (w, inl resp) →
  let code := StatusCode resp in
  let resource := URL_String uri in
  let res := (executeGet r uri st).1 in
  (∀ resp', res = inl resp' ↔ ok_status code ∧ resp' = resp)
  ∧ (uri = host r +:+ "/pools" →
     (∀ data, (GetPoolsData r st).1 = inl data
              ↔ ok_status code ∧ Decode_Pools (Body resp) = inl data)
     ∧ (∀ err, ok_status code → Decode_Pools (Body resp) = inr err →
               (GetPoolsData r st).1 = inr (RestClientError "GET" uri err)))
  ∧ (uri = host r +:+ "/pools/default" →
     (∀ data, (GetPoolsDefaultData r st).1 = inl data
              ↔ ok_status code ∧ Decode_PoolsDefault (Body resp) = inl data)
     ∧ (∀ err, ok_status code → Decode_PoolsDefault (Body resp) = inr err →
               (GetPoolsDefaultData r st).1 = inr (RestClientError "GET" uri err)))
  ∧ (code = 400 →
     ∃ text, res = inr (HttpError 400 "GET" resource text)
             ∧ (∀ contents, ioutil_ReadAll (Body resp) = inl contents → text = contents)
             ∧ (∀ err, ioutil_ReadAll (Body resp) = inr err → text = "<no body>")
             ∧ Error (HttpError 400 "GET" resource text)
               = "Bad request executing GET " +:+ resource +:+ " due to " +:+ text)
  ∧ (code = 401 →
     res = inr (HttpError 401 "GET" resource EmptyString)
     ∧ Error (HttpError 401 "GET" resource EmptyString)
       = "Authentication error executing " +:+ gostr.dq +:+ "GET " +:+ resource
         +:+ gostr.dq +:+ " check username and password")
  ∧ (code = 403 →
     ∃ text, res = inr (HttpError 403 "GET" resource text)
             ∧ Error (HttpError 403 "GET" resource text) = text
             ∧ (∀ message permissions,
                  Decode_overlay (Body resp) = inl (message, permissions) →
                  text = message +:+ ": " +:+ gostr.Join permissions ", ")
             ∧ (∀ err, Decode_overlay (Body resp) = inr err → text = EmptyString))
  ∧ (¬ ok_status code → code ≠ 400 → code ≠ 403 →
     res = inr (HttpError code "GET" resource EmptyString)).
Proof.
  intros Hnew Hdo code resource res.
  pose proof (executeGet_answer r uri st w resp Hnew Hdo) as Hres.
  fold res in Hres. cbv zeta in Hres. fold code resource in Hres.
  pose proof ok_status_test as Hok.
  unfold http.StatusOK, http.StatusAccepted, http.StatusCreated in Hok.
  assert (Hget : ∀ resp', res = inl resp' ↔ ok_status code ∧ resp' = resp).
  { intros resp'. rewrite Hres.
    destruct (Z.eqb_spec code 400) as [E|_].
    { split; [done|]. intros [[|[|]] _]; lia. }
    destruct (Z.eqb_spec code 403) as [E|_].
    { split; [done|]. intros [[|[|]] _]; lia. }
    destruct (negb _ && _ && _) eqn:Hneg.
    - split; [done|]. intros [Hc _]. apply Hok in Hc. congruence.
    - apply Hok in Hneg. split; [intros [= <-]; done|]. by intros [_ ->]. }
  split; [exact Hget|].
  assert (Hfail : ∀ e, res = inr e → ¬ ok_status code).
  { intros e He Hc. destruct (Hget resp) as [_ Hr]. rewrite Hr in He; done. }
  split; [|split].
  - intros ->. unfold GetPoolsData. rewrite bind_run.
    fold res in Hget. unfold res in Hget, Hfail.
    destruct (executeGet r (host r +:+ "/pools") st) as [[resp'|e] st1]; simpl in *.
    + destruct (Hget resp') as [[Hc ->] _]; [done|]. split.
      * intros data. destruct (Decode_Pools (Body resp)); simpl; split.
        -- by intros [= ->].
        -- by intros [_ [= ->]].
        -- done.
        -- by intros [_ ?].
      * intros err _ ->. done.
    + split.
      * intros data. split; [done|]. intros [Hc _]. by destruct (Hfail e eq_refl).
      * intros err Hc _. by destruct (Hfail e eq_refl).
  - intros ->. unfold GetPoolsDefaultData. rewrite bind_run.
    fold res in Hget. unfold res in Hget, Hfail.
    destruct (executeGet r (host r +:+ "/pools/default") st) as [[resp'|e] st1]; simpl in *.
    + destruct (Hget resp') as [[Hc ->] _]; [done|]. split.
      * intros data. destruct (Decode_PoolsDefault (Body resp)); simpl; split.
        -- by intros [= ->].
        -- by intros [_ [= ->]].
        -- done.
        -- by intros [_ ?].
      * intros err _ ->. done.
    + split.
      * intros data. split; [done|]. intros [Hc _]. by destruct (Hfail e eq_refl).
      * intros err Hc _. by destruct (Hfail e eq_refl).
  - split; [|split; [|split]].
    + intros E. rewrite Hres, E. simpl. eexists. split; [done|].
      split; [by intros ? ->|]. split; [by intros ? ->|]. done.
    + intros E. rewrite Hres, E. simpl. done.
    + intros E. rewrite Hres, E. simpl. eexists. split; [done|]. split; [done|].
      split; [by intros ?? ->|by intros ? ->].
    + intros Hnok H400 H403. rewrite Hres.
      destruct (Z.eqb_spec code 400); [done|]. destruct (Z.eqb_spec code 403); [done|].
      destruct (negb _ && _ && _) eqn:Hneg; [done|]. by apply Hok in Hneg.
Qed.

(** The type switch wraps a bare [x509.UnknownAuthorityError] with the
    guidance, but hands on what a [*url.Error] carries as it is. *)
Lemma classify_bare_unknown_authority req text :
  classify_transport_error req (lib_error x509_UnknownAuthorityError text)
  = UnknownAuthorityError (lib_error x509_UnknownAuthorityError text)
  ∧ Error (UnknownAuthorityError (lib_error x509_UnknownAuthorityError text))
    = text +:+ ssl_guidance.
Proof. done. Qed.

Lemma classify_url_error req text Err :
  classify_transport_error req (url_Error text Err) = Err.
Proof. done. Qed.

(** In a brief record the core count is the number the node reported,
    whatever its version. *)
Lemma brief_json_cores info :
  json_field "cpu_cores_available" (marshal.BriefNode (brief_node info))
  = Some (JFloat (SysStats.CPU_cores_available (NodeInfo.SystemStats info))).
Proof. done. Qed.

End Claims.

(** ** The program on the demonstration fleet *)

Lemma demo_fleet_polls :
  ∃ st', fleet_polls (elems (ClusterList.Clusters Demo.fleet)) Demo.start Demo.outcomes st'.
Proof.
  eexists. unfold Demo.outcomes. simpl.
  eapply fleet_polls_cons.
  { eapply polls_fail; [vm_compute; reflexivity|].
    eapply polls_answer. vm_compute. reflexivity. }
  eapply fleet_polls_cons.
  { eapply polls_fail; [vm_compute; reflexivity|]. apply polls_nil. }
  eapply fleet_polls_cons.
  { apply polls_nil. }
  apply fleet_polls_nil.
Defined.

(** Nodes [a1 (fails); a2 (answers); a3]: [a1] is asked, then [a2] twice,
    and [a3] never. *)
Example demo_requests :
  requested (log (poll_cluster false 0 Demo.cluster_a (new_summary Demo.fleet) Demo.start).2)
  = ["http://a1:8091/pools"; "http://a2:8091/pools"; "http://a2:8091/pools/default"].
Proof. vm_compute. reflexivity. Qed.

Example demo_csv :
  written (log (main Demo.brief_csv Demo.start).2)
  = [("out.csv",
      CsvBody (csv_header
               +:+ "0" +:+ gostr.tab +:+ "4c5a7d2f" +:+ gostr.tab +:+ "2" +:+ gostr.tab
               +:+ "a2:8091" +:+ gostr.tab +:+ "N/A" +:+ gostr.tab +:+ "16.0" +:+ gostr.nl
               +:+ "0" +:+ gostr.tab +:+ "4c5a7d2f" +:+ gostr.tab +:+ "2" +:+ gostr.tab
               +:+ "a4:8091" +:+ gostr.tab +:+ "8.0" +:+ gostr.tab +:+ "32.0" +:+ gostr.nl))].
Proof. vm_compute. reflexivity. Qed.

Lemma one_record_per_cluster_demo :
  length (SummaryInfo.Clusters (assemble false Demo.fleet Demo.start).1)
  = length (elems (ClusterList.Clusters Demo.fleet)).
Proof. exact (proj1 (one_record_per_cluster false Demo.fleet Demo.start)). Defined.

Lemma node_totals_demo :
  total_nodes (SummaryInfo.Clusters (assemble false Demo.fleet Demo.start).1) < 2 ^ 63
  ∧ SummaryInfo.NumClusters (assemble false Demo.fleet Demo.start).1 = 3
  ∧ sum_values (SummaryInfo.NodeVersions (assemble false Demo.fleet Demo.start).1)
    = SummaryInfo.TotalNumNodes (assemble false Demo.fleet Demo.start).1.
Proof.
  assert (Hlt : total_nodes (SummaryInfo.Clusters (assemble false Demo.fleet Demo.start).1)
                < 2 ^ 63) by (vm_compute; reflexivity).
  split; [exact Hlt|].
  destruct (node_totals false Demo.fleet Demo.start Hlt) as (Hn & _ & Hsum & _).
  split; [exact Hn|exact Hsum].
Defined.

Lemma poller_first_answer_demo :
  ∃ tried rest o st',
    polls Demo.cluster_a (elems (Cluster.Nodes Demo.cluster_a)) None Demo.start tried o st'
    ∧ elems (Cluster.Nodes Demo.cluster_a) = tried ++ rest.
Proof.
  destruct (poller_first_answer false 0 Demo.cluster_a (new_summary Demo.fleet) Demo.start)
    as (tried & rest & o & st' & Hp & Hnodes & _).
  exists tried, rest, o, st'. split; [exact Hp|exact Hnodes].
Defined.

Lemma csv_cores_column_demo :
  Demo.demo_row ∈ csv_rows (assemble false Demo.fleet Demo.start).1
  ∧ gostr.less "6.1.0" "6.5" = true.
Proof.
  assert (Hrow : Demo.demo_row ∈ csv_rows (assemble false Demo.fleet Demo.start).1).
  { vm_compute. constructor. }
  split; [exact Hrow|].
  exact (proj1 (proj2 (proj2 (csv_cores_column _ _ Hrow)))).
Defined.

Lemma full_csv_rejected_demo :
  requested (log (main Demo.full_csv Demo.start).2) = requested (log Demo.start).
Proof.
  destruct (full_csv_rejected Demo.full_csv Demo.start eq_refl eq_refl)
    as (msgs & _ & _ & Hreq & _).
  exact Hreq.
Defined.

(** C6, as stated, fails: with help asked for as well as the full report
    and the tabular output, the run prints the usage text and not the
    message about the two options. *)
Lemma help_hides_the_conflict :
  FULL Demo.help_full_csv = true ∧ CSV Demo.help_full_csv = true
  ∧ printed (log (main Demo.help_full_csv Demo.start).2) = usage
  ∧ csv_conflict_message ∉ printed (log (main Demo.help_full_csv Demo.start).2).
Proof.
  split; [reflexivity|]. split; [reflexivity|].
  assert (Hp : printed (log (main Demo.help_full_csv Demo.start).2) = usage)
    by (vm_compute; reflexivity).
  split; [exact Hp|]. rewrite Hp.
  apply (bool_decide_unpack _). vm_compute. exact I.
Qed.

(** With help asked for as well, the usage text is what is printed. *)
Example help_comes_first :
  printed (log (main Demo.help_full_csv Demo.start).2) = usage
  ∧ printed (log (main Demo.full_csv Demo.start).2) = [csv_conflict_message]
  ∧ requested (log (main Demo.help_full_csv Demo.start).2) = [].
Proof. repeat split; vm_compute; reflexivity. Qed.

Lemma brief_ram_gib_demo :
  SummaryInfo.Clusters (assemble false Demo.fleet Demo.start).1 !! 0%nat
  = Some (BriefRecord Demo.brief_a)
  ∧ (17179869184 / 1024 / 1024 / 1024)%float = 16%float.
Proof.
  assert (Hb : SummaryInfo.Clusters (assemble false Demo.fleet Demo.start).1 !! 0%nat
               = Some (BriefRecord Demo.brief_a)) by (vm_compute; reflexivity).
  split; [exact Hb|].
  exact (proj1 (proj2 (proj2 (brief_ram_gib false Demo.fleet Demo.start 0 Demo.brief_a Hb)))).
Defined.

(** C9, as stated, fails: the node [d1] answers [/pools] with status 200 and
    a body that is not JSON; no payload is returned although the status is
    one of 200, 201, 202. *)
Lemma ok_status_undecodable_body :
  Demo.net "http://d1:8091/pools" = inl (mk_Response 200 (Demo.TextBody "<html>"))
  ∧ (GetPoolsData Demo.client_d Demo.start).1
    = inr (RestClientError "GET" "http://d1:8091/pools" Demo.syntax_error)
  ∧ ¬ ((∃ data, (GetPoolsData Demo.client_d Demo.start).1 = inl data) ↔ ok_status 200).
Proof.
  split; [reflexivity|]. split; [reflexivity|].
  intros [_ Hpayload]. destruct Hpayload as [data Hdata]; [by left|]. discriminate.
Qed.

Lemma get_classifies_status_demo :
  (∀ data, (GetPoolsData Demo.client_d Demo.start).1 = inl data
           ↔ ok_status 200 ∧ @Decode_Pools Demo.platform (Demo.TextBody "<html>") = inl data)
  ∧ (GetPoolsData Demo.client_d Demo.start).1
    = inr (RestClientError "GET" "http://d1:8091/pools" Demo.syntax_error).
Proof.
  destruct (get_classifies_status Demo.client_d "http://d1:8091/pools" Demo.start tt
              (mk_Response 200 (Demo.TextBody "<html>")) eq_refl eq_refl)
    as (_ & Hpools & _).
  destruct (Hpools eq_refl) as [Hiff Herr].
  split; [exact Hiff|].
  apply Herr; [left; reflexivity|reflexivity].
Defined.

Lemma error_record_embeds_password_demo :
  ∃ e, SummaryInfo.Clusters (assemble false Demo.fleet Demo.start).1 !! 1%nat
       = Some (ErrorRecord e)
       ∧ json_path [inl "error_with_cluster"; inl "pass"]
           (marshal.ClusterRecord (ErrorRecord e))
         = Some (JString "password2").
Proof.
  destruct demo_fleet_polls as [st' Hf].
  destruct (error_record_embeds_password false Demo.fleet Demo.start Demo.outcomes st' 1
              Demo.cluster_b (Some Demo.unauthorized_b) Hf eq_refl eq_refl)
    as (e & Hrec & Hcluster & Hjson & _).
  exists e. split; [exact Hrec|]. rewrite Hjson. reflexivity.
Defined.

(** C5 fails in the brief JSON report: the node [a2:8091] runs version 6.1.0,
    which is below 6.5, its answer has no core count, and the report gives
    it 0 cores. *)
Theorem brief_json_reports_zero_cores :
  gostr.less "6.1.0" "6.5" = true
  ∧ ∃ tree,
      written (log (main Demo.brief_json Demo.start).2) = [("out.json", JsonBody tree)]
      ∧ json_path [inl "clusters"; inr 0%nat; inl "nodes"; inr 0%nat] tree
        = Some (JObject [("cpu_cores_available", JFloat 0);
                         ("mem_total", JFloat 16);
                         ("hostname", JString "a2:8091");
                         ("version", JString "6.1.0")]).
Proof.
  split; [reflexivity|]. eexists. split; vm_compute; reflexivity.
Qed.

(** The same node in the full JSON report. *)
Example full_json_reports_zero_cores :
  ∃ tree,
    written (log (main Demo.full_json Demo.start).2) = [("out.json", JsonBody tree)]
    ∧ json_path [inl "clusters"; inr 0%nat; inl "nodes"; inr 0%nat;
                 inl "systemStats"; inl "cpu_cores_available"] tree
      = Some (JFloat 0).
Proof. eexists. split; vm_compute; reflexivity. Qed.

(** C8 fails on what [client.Do] returns for an untrusted authority, a
    [*url.Error] around the [x509.UnknownAuthorityError]: the client hands
    on the inner error, whose text has no guidance, and this text is the
    message of the cluster's error record. *)
Theorem untrusted_authority_without_guidance :
  Demo.net "https://c1:18091/pools"
  = inr (url_Error "Get https://c1:18091/pools: x509: certificate signed by unknown authority"
           (lib_error x509_UnknownAuthorityError
              "x509: certificate signed by unknown authority"))
  ∧ (GetPoolsData Demo.client_c Demo.start).1
    = inr (lib_error x509_UnknownAuthorityError "x509: certificate signed by unknown authority")
  ∧ gostr.Contains
      (Error (lib_error x509_UnknownAuthorityError
                "x509: certificate signed by unknown authority"))
      "--no-ssl-verify" = false
  ∧ gostr.Contains ssl_guidance "--no-ssl-verify" = true
  ∧ SummaryInfo.Clusters
      (poll_cluster false 0 Demo.cluster_c1 (new_summary (ClusterList.mk (mk_slice [Demo.cluster_c1])))
         Demo.start).1
    = [ErrorRecord (ClusterError.mk Demo.cluster_c1 "x509: certificate signed by unknown authority")].
Proof. repeat split; vm_compute; reflexivity. Qed.

(** ** Further properties of the program *)

Section Further.
Context `{Platform}.

(** *** The events of the cluster loop *)

Lemma requests_app l1 l2 : requests (l1 ++ l2) = requests l1 ++ requests l2.
Proof. unfold requests. apply omap_app. Qed.

Lemma printed_app l1 l2 : printed (l1 ++ l2) = printed l1 ++ printed l2.
Proof. unfold printed. apply omap_app. Qed.

(** A call of [executeGet] adds its request to the log, or nothing. *)
Lemma executeGet_events r uri st :
  ∃ new, log (executeGet r uri st).2 = log st ++ new
         ∧ (new = []
            ∨ new = [EvHttp {| Method := "GET"; URL := uri;
                               BasicAuth := Some (username r, password r) |}]).
Proof.
  unfold executeGet. destruct (NewRequest_check "GET" uri).
  - exists []. simpl. rewrite app_nil_r. eauto.
  - unfold executeRequest. rewrite bind_run. unfold Do at 1.
    destruct (client_Do (world st) _) as [w res].
    eexists. split; [|right; reflexivity].
    destruct res as [resp|err]; [|done].
    repeat (case_match; try done).
Qed.

Lemma GetPoolsData_events r st :
  ∃ new, log (GetPoolsData r st).2 = log st ++ new
         ∧ (new = []
            ∨ new = [EvHttp {| Method := "GET"; URL := host r +:+ "/pools";
                               BasicAuth := Some (username r, password r) |}]).
Proof.
  unfold GetPoolsData. rewrite bind_run.
  destruct (executeGet_events r (host r +:+ "/pools") st) as (new & Hlog & Hnew).
  exists new. split; [|done].
  destruct (executeGet r _ st) as [[resp|err] st1]; simpl in *; [|done].
  by destruct (Decode_Pools (Body resp)).
Qed.

Lemma GetPoolsDefaultData_events r st :
  ∃ new, log (GetPoolsDefaultData r st).2 = log st ++ new
         ∧ (new = []
            ∨ new = [EvHttp {| Method := "GET"; URL := host r +:+ "/pools/default";
                               BasicAuth := Some (username r, password r) |}]).
Proof.
  unfold GetPoolsDefaultData. rewrite bind_run.
  destruct (executeGet_events r (host r +:+ "/pools/default") st) as (new & Hlog & Hnew).
  exists new. split; [|done].
  destruct (executeGet r _ st) as [[resp|err] st1]; simpl in *; [|done].
  by destruct (Decode_PoolsDefault (Body resp)).
Qed.

Lemma one_request_facts cluster node path new :
  path = "/pools" ∨ path = "/pools/default" →
  new = [] ∨ new = [EvHttp (request_of cluster node path)] →
  Forall (node_event cluster node) new
  ∧ (length (requests new) ≤ 1)%nat ∧ printed new = [].
Proof.
  intros Hpath [-> | ->].
  - split; [constructor|]. split; [simpl; lia|done].
  - split; [|split; [simpl; lia|done]].
    constructor; [|constructor]. destruct Hpath as [-> | ->]; [by left|by right].
Qed.

(** What one attempt adds to the log: at most its two requests, and one
    message exactly when it fails. *)
Lemma try_node_events cluster node st :
  ∃ new, log (try_node cluster node st).2 = log st ++ new
         ∧ Forall (node_event cluster node) new
         ∧ (length (requests new) ≤ 2)%nat
         ∧ length (printed new)
           = match (try_node cluster node st).1 with inl _ => O | inr _ => 1%nat end.
Proof.
  unfold try_node. rewrite bind_run.
  set (client := CreateRestClient node (Cluster.Login cluster) (Cluster.Pass cluster)).
  destruct (GetPoolsData_events client st) as (new1 & Hlog1 & Hnew1).
  destruct (one_request_facts cluster node "/pools" new1) as (Hev1 & Hlen1 & Hpr1);
    [by left|exact Hnew1|].
  destruct (GetPoolsData client st) as [[pools|err] st1]; simpl in Hlog1.
  - rewrite bind_run.
    destruct (GetPoolsDefaultData_events client st1) as (new2 & Hlog2 & Hnew2).
    destruct (one_request_facts cluster node "/pools/default" new2)
      as (Hev2 & Hlen2 & Hpr2); [by right|exact Hnew2|].
    destruct (GetPoolsDefaultData client st1) as [[poolsDefaults|err] st2]; simpl in Hlog2.
    + exists (new1 ++ new2). simpl. rewrite Hlog2, Hlog1, <- app_assoc.
      split; [done|]. split; [by apply Forall_app|].
      rewrite requests_app, printed_app, !length_app, Hpr1, Hpr2. split; [lia|done].
    + exists (new1 ++ new2 ++ [EvPrint (pools_default_failure_text node err)]).
      simpl. rewrite Hlog2, Hlog1, <- !app_assoc.
      split; [done|]. split.
      * apply Forall_app; split; [done|]. apply Forall_app; split; [done|].
        constructor; [|done]. exists err. by right.
      * rewrite !requests_app, !printed_app, !length_app, Hpr1, Hpr2. simpl. lia.
  - exists (new1 ++ [EvPrint (pools_failure_text node err)]).
    simpl. rewrite Hlog1, <- !app_assoc.
    split; [done|]. split.
    + apply Forall_app; split; [done|]. constructor; [|done]. exists err. by left.
    + rewrite !requests_app, !printed_app, !length_app, Hpr1. simpl. lia.
Qed.

Lemma polls_events cluster nodes cerr st tried o st' :
  polls cluster nodes cerr st tried o st' →
  ∃ new, log st' = log st ++ new
         ∧ Forall (λ e, ∃ node, node ∈ tried ∧ node_event cluster node e) new
         ∧ (length (requests new) ≤ 2 * length tried)%nat
         ∧ length (printed new)
           = match o with
             | Answered _ _ => (length tried - 1)%nat
             | AllFailed _ => length tried
             end.
Proof.
  induction 1 as [| node rest cerr st pools poolsDefaults st1 Htry
                  |node rest cerr st err st1 tried o st2 Htry Hp
                     (new & Hlog & Hall & Hreq & Hpr)].
  - exists []. rewrite app_nil_r. done.
  - destruct (try_node_events cluster node st) as (new & Hlog & Hall & Hreq & Hpr).
    rewrite Htry in Hlog, Hpr. exists new. split; [done|]. split.
    { eapply Forall_impl; [done|]. intros e He. exists node. split; [|done].
      apply list_elem_of_here. }
    simpl in *. split; [lia|done].
  - destruct (try_node_events cluster node st) as (new1 & Hlog1 & Hall1 & Hreq1 & Hpr1).
    rewrite Htry in Hlog1, Hpr1. simpl in Hlog1, Hpr1.
    exists (new1 ++ new). rewrite Hlog, Hlog1, <- app_assoc. split; [done|]. split.
    { apply Forall_app. split.
      - eapply Forall_impl; [done|]. intros e He. exists node. split; [|done].
        apply list_elem_of_here.
      - eapply Forall_impl; [done|]. intros e (n & Hn & He). exists n. split; [|done].
        by apply list_elem_of_further. }
    rewrite requests_app, printed_app, !length_app, Hpr1, Hpr. cbn [length]. split; [lia|].
    destruct o as [p d|last]; [|lia].
    assert (length tried ≠ 0)%nat; [|lia].
    destruct (polls_tried _ _ _ _ _ _ _ Hp) as (_ & _ & Hne). by destruct tried.
Qed.

Lemma configured_nodes_cons cluster rest :
  configured_nodes (cluster :: rest)
  = (length (elems (Cluster.Nodes cluster)) + configured_nodes rest)%nat.
Proof. unfold configured_nodes. simpl. by rewrite length_app. Qed.

Lemma fleet_polls_events clusters st os st' :
  fleet_polls clusters st os st' →
  ∃ new, log st' = log st ++ new
         ∧ Forall (fleet_event clusters) new
         ∧ (length (requests new) ≤ 2 * configured_nodes clusters)%nat.
Proof.
  induction 1 as [|cluster rest st tried o st1 os st2 Hp Hf (new & Hlog & Hall & Hreq)].
  - exists []. rewrite app_nil_r. done.
  - destruct (polls_events _ _ _ _ _ _ _ Hp) as (new1 & Hlog1 & Hall1 & Hreq1 & _).
    destruct (polls_tried _ _ _ _ _ _ _ Hp) as (rest' & Hnodes & _).
    exists (new1 ++ new). rewrite Hlog, Hlog1, <- app_assoc. split; [done|]. split.
    + apply Forall_app. split.
      * eapply Forall_impl; [done|]. intros e (node & Hnode & He).
        exists cluster, node. split; [apply list_elem_of_here|]. split; [|done].
        rewrite Hnodes. apply elem_of_app. by left.
      * eapply Forall_impl; [done|]. intros e (c & node & Hc & Hnode & He).
        exists c, node. split; [by apply list_elem_of_further|done].
    + rewrite requests_app, length_app, configured_nodes_cons, Hnodes, length_app. lia.
Qed.

(** What the cluster loop adds to the log. *)
Lemma assemble_events FULL clusters st :
  ∃ new, log (assemble FULL clusters st).2 = log st ++ new
         ∧ Forall (fleet_event (elems (ClusterList.Clusters clusters))) new
         ∧ (length (requests new)
            ≤ 2 * configured_nodes (elems (ClusterList.Clusters clusters)))%nat.
Proof.
  destruct (assemble_spec FULL clusters st) as (os & st' & Hf & -> & _).
  by eapply fleet_polls_events.
Qed.

Lemma elem_of_requests req l : req ∈ requests l ↔ EvHttp req ∈ l.
Proof.
  unfold requests. rewrite list_elem_of_omap. split.
  - intros (e & He & Hreq). destruct e; try done. by injection Hreq as ->.
  - intros He. by exists (EvHttp req).
Qed.

(** X1. Every request of the cluster loop is a GET of [/pools] or
    [/pools/default] on a node address of a configured cluster, with the
    login and password of that very cluster; the loop reads no file and
    no clock and writes nothing. *)
Theorem requests_go_to_configured_nodes (FULL : bool) (clusters : ClusterList.t) (st : St) :
  ∃ new,
    log (assemble FULL clusters st).2 = log st ++ new
    ∧ (∀ req, req ∈ requests new →
         ∃ cluster node path,
           cluster ∈ elems (ClusterList.Clusters clusters)
           ∧ node ∈ elems (Cluster.Nodes cluster)
           ∧ (path = "/pools" ∨ path = "/pools/default")
           ∧ req = {| Method := "GET"; URL := node +:+ path;
                      BasicAuth := Some (Cluster.Login cluster, Cluster.Pass cluster) |})
    ∧ (∀ e, e ∈ new → (∃ req, e = EvHttp req) ∨ (∃ text, e = EvPrint text)).
Proof.
  destruct (assemble_events FULL clusters st) as (new & Hlog & Hall & _).
  exists new. split; [done|]. rewrite Forall_forall in Hall. split.
  - intros req Hreq%elem_of_requests.
    destruct (Hall _ Hreq) as (cluster & node & Hc & Hn & [-> | ->]).
    + exists cluster, node, "/pools". eauto.
    + exists cluster, node, "/pools/default". eauto 6.
  - intros e He. destruct (Hall _ He) as (cluster & node & _ & _ & Hev).
    destruct e; try done; eauto.
Qed.

(** X2. The cluster loop makes at most two requests per configured node
    address: no address is retried, and none is asked after a node of its
    cluster answered. *)
Theorem at_most_two_requests_per_node (FULL : bool) (clusters : ClusterList.t) (st : St) :
  ∃ new,
    log (assemble FULL clusters st).2 = log st ++ new
    ∧ (length (requests new)
       ≤ 2 * configured_nodes (elems (ClusterList.Clusters clusters)))%nat
    ∧ (configured_nodes (elems (ClusterList.Clusters clusters)) = O → requests new = []).
Proof.
  destruct (assemble_events FULL clusters st) as (new & Hlog & _ & Hlen).
  exists new. split; [done|]. split; [done|].
  intros Hzero. rewrite Hzero in Hlen. destruct (requests new); [done|simpl in Hlen; lia].
Qed.

(** X3. Polling a cluster prints one message for each node that fails,
    naming the node and giving the error, and nothing for the node that
    answers. *)
Theorem one_message_per_failed_node (FULL : bool) (cnum : nat) (cluster : Cluster.t)
    (s : SummaryInfo.t) (st : St) :
  ∃ tried o new,
    polls cluster (elems (Cluster.Nodes cluster)) None st tried o
      (poll_cluster FULL cnum cluster s st).2
    ∧ log (poll_cluster FULL cnum cluster s st).2 = log st ++ new
    ∧ length (printed new)
      = match o with
        | Answered _ _ => (length tried - 1)%nat
        | AllFailed _ => length (elems (Cluster.Nodes cluster))
        end
    ∧ ∀ text, text ∈ printed new →
        ∃ node err,
          node ∈ tried
          ∧ (text = "Error getting bucket settings from node " +:+ node +:+ ": "
                    +:+ Error err +:+ gostr.nl
             ∨ text = "Error getting pools/default from node " +:+ node +:+ ": "
                      +:+ Error err +:+ gostr.nl).
Proof.
  destruct (poll_cluster_spec FULL cnum cluster s st) as (tried & o & st' & Hp & ->).
  destruct (polls_events _ _ _ _ _ _ _ Hp) as (new & Hlog & Hall & _ & Hpr).
  destruct (polls_tried _ _ _ _ _ _ _ Hp) as (rest & Hnodes & Ho).
  exists tried, o, new. split; [done|]. split; [done|]. split.
  - rewrite Hpr. destruct o; [done|]. subst rest. by rewrite Hnodes, app_nil_r.
  - intros text Htext. unfold printed in Htext.
    apply list_elem_of_omap in Htext as (e & He & Htext).
    rewrite Forall_forall in Hall. destruct (Hall _ He) as (node & Hnode & Hev).
    destruct e; try done. injection Htext as ->.
    destruct Hev as (err & Herr). by exists node, err.
Qed.

(** *** Nodes that fail *)

Lemma polls_app cluster front cerr st tried last st1 :
  polls cluster front cerr st tried (AllFailed last) st1 →
  ∀ rest tried2 o st2,
    polls cluster rest last st1 tried2 o st2 →
    polls cluster (front ++ rest) cerr st (tried ++ tried2) o st2.
Proof.
  remember (AllFailed last) as o1 eqn:Ho1.
  induction 1 as [| |node rest0 cerr st err st1 tried o1 st2 Htry Hp IH];
    intros more tried2 o st3 Hmore.
  - injection Ho1 as ->. done.
  - discriminate.
  - simpl. eapply polls_fail; [done|]. by apply IH.
Qed.

(** An address [http.NewRequest] refuses: no request, one message. *)
Lemma try_node_malformed cluster node err st :
  NewRequest_check "GET" (node +:+ "/pools") = Some err →
  try_node cluster node st
  = (inr (RestClientError "GET" (node +:+ "/pools") err),
     emit (EvPrint (pools_failure_text node
                      (RestClientError "GET" (node +:+ "/pools") err))) st).
Proof.
  intros Hnew. unfold try_node, GetPoolsData, executeGet. rewrite !bind_run.
  cbn [host CreateRestClient]. rewrite Hnew. reflexivity.
Qed.

Lemma polls_malformed cluster nodes : ∀ cerr st,
  Forall (λ node, is_Some (NewRequest_check "GET" (node +:+ "/pools"))) nodes →
  ∃ last st',
    polls cluster nodes cerr st nodes (AllFailed last) st'
    ∧ world st' = world st
    ∧ requests (log st') = requests (log st)
    ∧ (nodes = [] → last = cerr)
    ∧ (∀ front node err,
         nodes = front ++ [node] →
         NewRequest_check "GET" (node +:+ "/pools") = Some err →
         last = Some (RestClientError "GET" (node +:+ "/pools") err)).
Proof.
  induction nodes as [|node rest IH]; intros cerr st Hall.
  - exists cerr, st. split; [constructor|]. repeat split; try done.
    intros [|??] ?? Heq; discriminate.
  - apply Forall_cons in Hall as [[err Herr] Hrest].
    pose proof (try_node_malformed cluster node err st Herr) as Htry.
    set (e := RestClientError "GET" (node +:+ "/pools") err) in *.
    set (st1 := emit (EvPrint (pools_failure_text node e)) st) in *.
    destruct (IH (Some e) st1 Hrest) as (last & st' & Hp & Hw & Hr & Hnil & Hlast).
    exists last, st'. split; [by eapply polls_fail|].
    split; [by rewrite Hw|]. split.
    { rewrite Hr. unfold st1, emit. cbn [log]. rewrite requests_app.
      change (requests [EvPrint (pools_failure_text node e)]) with (@nil Request).
      apply app_nil_r. }
    split; [done|].
    intros front n err' Heq Hn. destruct front as [|f front]; simpl in Heq.
    + injection Heq as Hn1 Hn2. subst n. rewrite (Hnil Hn2). unfold e. congruence.
    + injection Heq as Hn1 Hn2. subst f. by eapply Hlast.
Qed.

(** X4. When [http.NewRequest] refuses every address of a cluster, the
    poll makes no request and leaves the world as it was; the cluster gets
    an error record whose message is the rest-client error of the last
    address ([Unknown Error] when there is no address). *)
Theorem malformed_addresses_make_no_request (FULL : bool) (cnum : nat)
    (cluster : Cluster.t) (s : SummaryInfo.t) (st : St) :
  Forall (λ node, is_Some (NewRequest_check "GET" (node +:+ "/pools")))
    (elems (Cluster.Nodes cluster)) →
  world (poll_cluster FULL cnum cluster s st).2 = world st
  ∧ requests (log (poll_cluster FULL cnum cluster s st).2) = requests (log st)
  ∧ ∃ msg,
      SummaryInfo.Clusters (poll_cluster FULL cnum cluster s st).1
      = <[cnum := ErrorRecord (ClusterError.mk cluster msg)]> (SummaryInfo.Clusters s)
      ∧ (elems (Cluster.Nodes cluster) = [] → msg = "Unknown Error")
      ∧ (∀ front node err,
           elems (Cluster.Nodes cluster) = front ++ [node] →
           NewRequest_check "GET" (node +:+ "/pools") = Some err →
           msg = "Rest client error (GET " +:+ node +:+ "/pools): " +:+ Error err).
Proof.
  intros Hall.
  destruct (polls_malformed cluster _ None st Hall) as (last & st' & Hp & Hw & Hr & Hnil & Hlast).
  destruct (poll_cluster_spec FULL cnum cluster s st) as (tried & o & st2 & Hp' & ->).
  destruct (polls_det _ _ _ _ _ _ _ Hp _ _ _ Hp') as (_ & <- & <-).
  split; [done|]. split; [done|].
  exists (ClusterError.ErrMsg (error_record cluster last)). split; [done|]. split.
  - intros Hnodes. by rewrite (Hnil Hnodes).
  - intros front node err Hnodes Herr. rewrite (Hlast _ _ _ Hnodes Herr).
    cbn [error_record ClusterError.ErrMsg Error].
    rewrite string_app_assoc. reflexivity.
Qed.

(** A 403 answer to [/pools] whose body does not decode. *)
Lemma try_node_forbidden cluster node st w resp e :
  NewRequest_check "GET" (node +:+ "/pools") = None →
  client_Do (world st) (request_of cluster node "/pools") = (w, inl resp) →
  StatusCode resp = 403 →
  Decode_overlay (Body resp) = inr e →
  (try_node cluster node st).1
  = inr (HttpError 403 "GET" (URL_String (node +:+ "/pools")) EmptyString).
Proof.
  intros Hnew Hdo Hcode Hdec.
  set (client := CreateRestClient node (Cluster.Login cluster) (Cluster.Pass cluster)).
  pose proof (executeGet_answer client (node +:+ "/pools") st w resp Hnew Hdo) as Hget.
  cbv zeta in Hget. rewrite Hcode, Hdec in Hget. simpl in Hget.
  unfold try_node, GetPoolsData. fold client. rewrite !bind_run.
  change (host client +:+ "/pools") with (node +:+ "/pools").
  destruct (executeGet client (node +:+ "/pools") st) as [res st1].
  simpl in Hget. subst res. reflexivity.
Qed.

(** X5. When the last node of a cluster answers [/pools] with status 403
    and a body that does not decode, and the nodes before it failed, the
    cluster's error record has the empty string as its message: the text
    of a 403 error is the text taken from the body, and there is none. *)
Theorem forbidden_without_body_gives_empty_message (FULL : bool) (cnum : nat)
    (cluster : Cluster.t) (s : SummaryInfo.t) (st : St)
    (front : list string) (node : string) (tried : list string)
    (last : option GoError) (st1 : St) (w : World) (resp : Response body) (e : GoError) :
  elems (Cluster.Nodes cluster) = front ++ [node] →
  polls cluster front None st tried (AllFailed last) st1 →
  NewRequest_check "GET" (node +:+ "/pools") = None →
  client_Do (world st1)
    {| Method := "GET"; URL := node +:+ "/pools";
       BasicAuth := Some (Cluster.Login cluster, Cluster.Pass cluster) |}
  = (w, inl resp) →
  StatusCode resp = 403 →
  Decode_overlay (Body resp) = inr e →
  SummaryInfo.Clusters (poll_cluster FULL cnum cluster s st).1
  = <[cnum := ErrorRecord (ClusterError.mk cluster EmptyString)]> (SummaryInfo.Clusters s).
Proof.
  intros Hnodes Hfront Hnew Hdo Hcode Hdec.
  pose proof (try_node_forbidden cluster node st1 w resp e Hnew Hdo Hcode Hdec) as Htry.
  destruct (try_node cluster node st1) as [res st2] eqn:Hrun. simpl in Htry. subst res.
  assert (Hp : polls cluster (front ++ [node]) None st (tried ++ [node])
                 (AllFailed (Some (HttpError 403 "GET" (URL_String (node +:+ "/pools"))
                                     EmptyString))) st2).
  { eapply polls_app; [done|]. eapply polls_fail; [done|]. constructor. }
  rewrite <- Hnodes in Hp.
  destruct (poll_cluster_spec FULL cnum cluster s st) as (tried' & o & st3 & Hp' & ->).
  destruct (polls_det _ _ _ _ _ _ _ Hp _ _ _ Hp') as (_ & <- & _). reflexivity.
Qed.

(** *** The records of the report *)

(** Every record of the report comes from the outcome of a poll. *)
Lemma assemble_record FULL clusters st i r :
  SummaryInfo.Clusters (assemble FULL clusters st).1 !! i = Some r →
  ∃ cluster o sta tried stb,
    elems (ClusterList.Clusters clusters) !! i = Some cluster
    ∧ polls cluster (elems (Cluster.Nodes cluster)) None sta tried o stb
    ∧ r = record_of FULL cluster o.
Proof.
  intros Hr.
  destruct (assemble_lookup FULL clusters st) as (Hlen & os & Hf & _ & Hrec).
  destruct (lookup_lt_is_Some_2 (elems (ClusterList.Clusters clusters)) i) as [cluster Hi].
  { rewrite <- Hlen. by eapply lookup_lt_Some. }
  destruct (Hrec i cluster Hi) as (o & Ho & Hs).
  destruct (fleet_polls_lookup _ _ _ _ Hf i cluster o Hi Ho) as (sta & tried & stb & Hp).
  exists cluster, o, sta, tried, stb. split; [done|]. split; [done|]. congruence.
Qed.

(** X6. The records of a report have the shape its mode asks for: full
    records in a full report, brief records otherwise, and error records
    in both; no slot is left empty. *)
Theorem report_shape_follows_mode (FULL : bool) (clusters : ClusterList.t) (st : St)
    (r : ClusterRecord) :
  r ∈ SummaryInfo.Clusters (assemble FULL clusters st).1 →
  (∃ e, r = ErrorRecord e)
  ∨ (if FULL then ∃ c, r = FullRecord c else ∃ b, r = BriefRecord b).
Proof.
  intros [i Hi]%list_elem_of_lookup.
  destruct (assemble_record FULL clusters st i r Hi) as (cluster & o & _ & _ & _ & _ & _ & ->).
  destruct o as [pools poolsDefaults|last]; simpl; [|eauto].
  right. destruct FULL; eauto.
Qed.

(** X7. In a full record [nodeCount] is the number of nodes listed, the
    values of [nodeVersions] add up to it, and each version is counted as
    often as it occurs among the nodes listed (for fewer than 2^63
    nodes). *)
Theorem full_record_histogram (FULL : bool) (clusters : ClusterList.t) (st : St)
    (i : nat) (c : ClusterSummary.t) :
  SummaryInfo.Clusters (assemble FULL clusters st).1 !! i = Some (FullRecord c) →
  ClusterSummary.NodeCount c < 2 ^ 63 →
  ClusterSummary.NodeCount c = goint.len (elems (ClusterSummary.Nodes c))
  ∧ sum_values (ClusterSummary.NodeVersions c) = ClusterSummary.NodeCount c
  ∧ ∀ v, map_get (ClusterSummary.NodeVersions c) v
         = occurrences v (map NodeInfo.Version (elems (ClusterSummary.Nodes c))).
Proof.
  intros Hi Hlt.
  destruct (assemble_record FULL clusters st i _ Hi) as (cluster & o & _ & _ & _ & _ & _ & Hr).
  destruct o as [pools poolsDefaults|last]; [|done].
  simpl in Hr. destruct FULL; [|done]. injection Hr as ->.
  cbn [full_record ClusterSummary.NodeCount ClusterSummary.Nodes ClusterSummary.NodeVersions]
    in *.
  set (infos := elems (PoolsDefault.Nodes poolsDefaults)) in *.
  rewrite count_fleet_tally.
  destruct (tally_counts (map NodeInfo.Version infos) ∅) as (_ & Hsum & Hocc).
  { intros k x. by rewrite lookup_empty. }
  { rewrite sum_values_empty, length_map. unfold goint.len in Hlt. lia. }
  split; [done|]. split.
  - rewrite Hsum, sum_values_empty, length_map. unfold goint.len. lia.
  - intros v. rewrite Hocc. unfold map_get. rewrite lookup_empty. simpl. lia.
Qed.

(** X8. A brief record carries the UUID of the answering node's [/pools]
    payload, its [cluster_size] is the number of nodes it lists, and these
    are the nodes of the [/pools/default] payload in order, each with its
    core count and version copied as they are. *)
Theorem brief_record_lists_reported_nodes (FULL : bool) (clusters : ClusterList.t)
    (st : St) (i : nat) (b : BriefCluster.t) :
  SummaryInfo.Clusters (assemble FULL clusters st).1 !! i = Some (BriefRecord b) →
  FULL = false
  ∧ BriefCluster.Size b = goint.len (BriefCluster.Nodes b)
  ∧ ∃ cluster sta tried pools poolsDefaults stb,
      elems (ClusterList.Clusters clusters) !! i = Some cluster
      ∧ polls cluster (elems (Cluster.Nodes cluster)) None sta tried
          (Answered pools poolsDefaults) stb
      ∧ BriefCluster.UUID b = Pools.Uuid pools
      ∧ Forall2 (λ info node,
                   BriefNode.Cores node
                   = SysStats.CPU_cores_available (NodeInfo.SystemStats info)
                   ∧ BriefNode.Version node = NodeInfo.Version info)
          (elems (PoolsDefault.Nodes poolsDefaults)) (BriefCluster.Nodes b).
Proof.
  intros Hi.
  destruct (assemble_record FULL clusters st i _ Hi)
    as (cluster & o & sta & tried & stb & Hc & Hp & Hr).
  destruct o as [pools poolsDefaults|last]; [|done].
  simpl in Hr. destruct FULL; [done|]. injection Hr as ->. simpl.
  split; [done|]. split; [unfold goint.len; by rewrite length_map|].
  exists cluster, sta, tried, pools, poolsDefaults, stb.
  split; [done|]. split; [done|]. split; [done|].
  apply Forall2_fmap_r, Forall_Forall2_diag, Forall_forall. done.
Qed.

Lemma csv_rows_length_gen (l : list ClusterRecord) : ∀ f : nat → ClusterRecord → list string,
  (∀ n r, length (f n r) = record_lines r) →
  length (concat (imap f l)) = sum_list (record_lines <$> l).
Proof.
  induction l as [|r l IH]; intros f Hf; [done|].
  rewrite imap_cons. cbn [concat fmap list_fmap sum_list sum_list_with].
  rewrite length_app, Hf. f_equal. apply IH. intros n r'. apply Hf.
Qed.

Lemma csv_rows_length s :
  length (csv_rows s) = sum_list (record_lines <$> SummaryInfo.Clusters s).
Proof.
  unfold csv_rows. apply csv_rows_length_gen.
  intros n r. destruct r; simpl; try done. by rewrite length_map.
Qed.

Lemma brief_lines_total clusters : ∀ os,
  Z.of_nat (sum_list (record_lines <$> zip_with (record_of false) clusters os))
  = total_nodes (zip_with (record_of false) clusters os).
Proof.
  induction clusters as [|c clusters IH]; intros [|o os]; try done.
  cbn [zip_with fmap list_fmap sum_list sum_list_with].
  change (total_nodes (?x :: ?l)) with (record_nodes x + total_nodes l).
  rewrite Nat2Z.inj_add, IH. f_equal.
  destruct o as [pools poolsDefaults|last]; simpl; [|done].
  unfold goint.len. by rewrite length_map.
Qed.

(** X9. The tabular output has one line for each node of a brief record
    and none for any other record; for the report of a run without
    [--full] that is as many lines as [#nodes] counts (for fewer than 2^63
    nodes), so a cluster that failed leaves no line. *)
Theorem csv_has_one_line_per_counted_node (clusters : ClusterList.t) (st : St) :
  total_nodes (SummaryInfo.Clusters (assemble false clusters st).1) < 2 ^ 63 →
  Z.of_nat (length (csv_rows (assemble false clusters st).1))
  = SummaryInfo.TotalNumNodes (assemble false clusters st).1
  ∧ ∀ s : SummaryInfo.t,
      length (csv_rows s) = sum_list (record_lines <$> SummaryInfo.Clusters s).
Proof.
  intros Hlt. split; [|apply csv_rows_length].
  destruct (assemble_spec false clusters st) as (os & st' & _ & _ & Hc & _ & Ht & _).
  rewrite csv_rows_length, Ht, Hc, brief_lines_total.
  rewrite Hc in Hlt. symmetry. apply wrap64_small.
  rewrite total_nodes_all_versions in *. lia.
Qed.

Lemma all_versions_mode clusters : ∀ os,
  all_versions (zip_with (record_of true) clusters os)
  = all_versions (zip_with (record_of false) clusters os).
Proof.
  induction clusters as [|c clusters IH]; intros [|o os]; try done.
  cbn [zip_with].
  change (all_versions (?x :: ?l)) with (record_versions x ++ all_versions l).
  by rewrite IH, !record_of_versions.
Qed.

(** X10. The mode does not change the poll nor the fleet's counts: with and
    without [--full] the same requests are made and the same messages
    printed, and [#clusters], [#nodes] and [#nodeVersions] are the same;
    the same clusters get an error record. *)
Theorem fleet_counts_do_not_depend_on_mode (clusters : ClusterList.t) (st : St) :
  (assemble true clusters st).2 = (assemble false clusters st).2
  ∧ SummaryInfo.NumClusters (assemble true clusters st).1
    = SummaryInfo.NumClusters (assemble false clusters st).1
  ∧ SummaryInfo.TotalNumNodes (assemble true clusters st).1
    = SummaryInfo.TotalNumNodes (assemble false clusters st).1
  ∧ SummaryInfo.NodeVersions (assemble true clusters st).1
    = SummaryInfo.NodeVersions (assemble false clusters st).1
  ∧ is_error <$> SummaryInfo.Clusters (assemble true clusters st).1
    = is_error <$> SummaryInfo.Clusters (assemble false clusters st).1.
Proof.
  destruct (assemble_spec true clusters st) as (os & st1 & Hf & Hst & Hc & Hn & Ht & Hv).
  destruct (assemble_spec false clusters st)
    as (os' & st1' & Hf' & Hst' & Hc' & Hn' & Ht' & Hv').
  destruct (fleet_polls_det _ _ _ _ Hf _ _ Hf') as [<- <-].
  split; [destruct (assemble true clusters st), (assemble false clusters st);
          simpl in *; congruence|].
  split; [congruence|]. split.
  { rewrite Ht, Ht', !total_nodes_all_versions, all_versions_mode. done. }
  split.
  { rewrite Hv, Hv', all_versions_mode. done. }
  rewrite Hc, Hc'. clear. generalize (elems (ClusterList.Clusters clusters)) as cs.
  intros cs. revert os. induction cs as [|c cs IH]; intros [|o os]; try done.
  cbn [zip_with fmap list_fmap]. f_equal; [|apply IH]. by destruct o.
Qed.

Lemma try_node_credentials cluster cluster' node st :
  Cluster.Login cluster' = Cluster.Login cluster →
  Cluster.Pass cluster' = Cluster.Pass cluster →
  try_node cluster' node st = try_node cluster node st.
Proof. intros Hl Hp. unfold try_node. by rewrite Hl, Hp. Qed.

Lemma polls_answer_prefix cluster cluster' nodes cerr st tried pools poolsDefaults st' :
  Cluster.Login cluster' = Cluster.Login cluster →
  Cluster.Pass cluster' = Cluster.Pass cluster →
  polls cluster nodes cerr st tried (Answered pools poolsDefaults) st' →
  ∀ more, polls cluster' (tried ++ more) cerr st tried (Answered pools poolsDefaults) st'.
Proof.
  intros Hl Hpw. remember (Answered pools poolsDefaults) as o eqn:Ho.
  induction 1 as [| node rest cerr st p d st1 Htry
                  |node rest cerr st err st1 tried o st2 Htry Hp IH]; intros more.
  - discriminate.
  - injection Ho as -> ->. simpl. apply polls_answer.
    by rewrite (try_node_credentials cluster cluster').
  - simpl. eapply polls_fail; [by rewrite (try_node_credentials cluster cluster')|].
    by apply IH.
Qed.

(** X11. The addresses listed after the first node that answers have no
    influence: a cluster entry with the same login and password whose node
    list begins with the nodes tried is polled with the same result, state
    for state. *)
Theorem nodes_after_the_answer_are_irrelevant (FULL : bool) (cnum : nat)
    (cluster cluster' : Cluster.t) (s : SummaryInfo.t) (st : St)
    (tried more : list string) (pools : Pools.t) (poolsDefaults : PoolsDefault.t)
    (st' : St) :
  polls cluster (elems (Cluster.Nodes cluster)) None st tried
    (Answered pools poolsDefaults) st' →
  Cluster.Login cluster' = Cluster.Login cluster →
  Cluster.Pass cluster' = Cluster.Pass cluster →
  elems (Cluster.Nodes cluster') = tried ++ more →
  poll_cluster FULL cnum cluster' s st = poll_cluster FULL cnum cluster s st.
Proof.
  intros Hp Hl Hpw Hnodes.
  pose proof (polls_answer_prefix cluster cluster' _ _ _ _ _ _ _ Hl Hpw Hp more) as Hp'.
  rewrite <- Hnodes in Hp'.
  destruct (poll_cluster_spec FULL cnum cluster s st) as (t1 & o1 & s1 & Hq & ->).
  destruct (poll_cluster_spec FULL cnum cluster' s st) as (t2 & o2 & s2 & Hq' & ->).
  destruct (polls_det _ _ _ _ _ _ _ Hp _ _ _ Hq) as (_ & <- & <-).
  destruct (polls_det _ _ _ _ _ _ _ Hp' _ _ _ Hq') as (_ & <- & <-).
  reflexivity.
Qed.

(** X12. With no cluster configured the loop does nothing: the report has
    zero clusters and nodes, an empty histogram and an empty (not null)
    list of clusters, and the tabular output is the header line alone. *)
Theorem empty_configuration (FULL : bool) (clusters : ClusterList.t) (st : St) :
  elems (ClusterList.Clusters clusters) = [] →
  (assemble FULL clusters st).2 = st
  ∧ csv_body (assemble FULL clusters st).1 = csv_header
  ∧ marshal.MarshalIndent (assemble FULL clusters st).1
    = inl (JObject [("#clusters", JInt 0); ("#nodes", JInt 0);
                    ("#nodeVersions", JObject []); ("clusters", JArray [])]).
Proof.
  intros Hnil. unfold assemble, new_summary. rewrite Hnil. by vm_compute.
Qed.

(** *** The run of [main] *)

Lemma choose_output_file_log flags st :
  log (choose_output_file flags st).2
  = log st ++ (if (String.length (OUTPUT_FILE flags) =? 0)%nat then [EvNow] else []).
Proof.
  unfold choose_output_file. case_match.
  - rewrite bind_run. unfold Now. by destruct (time_Now (world st)).
  - simpl. by rewrite app_nil_r.
Qed.

Lemma ReadFile_log name st : log (ReadFile name st).2 = log st ++ [EvReadFile name].
Proof. unfold ReadFile. by destruct (ioutil_ReadFile (world st) name). Qed.

(** A run that gets its configuration goes on with the cluster loop and
    the rendering. *)
Lemma main_loop flags st output_file st1 config st2 clusters :
  HELP flags = false → CONFIG_FILE flags ≠ EmptyString →
  FULL flags && CSV flags = false →
  choose_output_file flags st = (output_file, st1) →
  ReadFile (CONFIG_FILE flags) st1 = (inl config, st2) →
  Unmarshal_ClusterList config = inl clusters →
  let st3 :=
    emit (EvPrint ("Working from config file: " +:+ CONFIG_FILE flags +:+ gostr.nl)) st2 in
  main flags st
  = render_and_write flags output_file (assemble (FULL flags) clusters st3).1
      (assemble (FULL flags) clusters st3).2.
Proof.
  intros Hhelp Hcfg Hmode Hout Hread Hparse st3.
  unfold main. rewrite Hhelp, Hmode.
  destruct (CONFIG_FILE flags) as [|c cfg] eqn:Ecfg; [done|].
  cbn [orb String.length Nat.eqb]. rewrite bind_run, Hout, bind_run, Hread, Hparse.
  rewrite bind_run. unfold Printf at 1. fold st3. rewrite bind_run.
  by destruct (assemble (FULL flags) clusters st3).
Qed.

Lemma render_and_write_log flags output_file s st :
  ∃ tail,
    log (render_and_write flags output_file s st).2 = log st ++ tail
    ∧ ((CSV flags = false
        ∧ ∃ e, marshal.MarshalIndent s = inr e
               ∧ tail = [EvPrint ("Error marshalling summary: " +:+ Error e +:+ gostr.nl)])
       ∨ ∃ content text,
           tail = [EvWriteFile output_file content; EvPrint text]
           ∧ (if CSV flags then content = CsvBody (csv_body s)
              else ∃ tree, marshal.MarshalIndent s = inl tree ∧ content = JsonBody tree)
           ∧ (text = "Wrote information on " +:+ gostr.fmt_d (SummaryInfo.NumClusters s)
                     +:+ " clusters to file " +:+ output_file +:+ "." +:+ gostr.nl
              ∨ ∃ e, text = "Error writing output file " +:+ output_file +:+ ": "
                            +:+ Error e +:+ gostr.nl)).
Proof.
  unfold render_and_write.
  assert (Hwrite : ∀ content, ∃ text,
    log ((err ← WriteFile output_file content 420;
          match err with
          | Some e =>
              Printf ("Error writing output file " +:+ output_file +:+ ": " +:+ Error e
                      +:+ gostr.nl)
          | None =>
              Printf ("Wrote information on "
                      +:+ gostr.fmt_d (SummaryInfo.NumClusters s)
                      +:+ " clusters to file " +:+ output_file +:+ "." +:+ gostr.nl)
          end) st).2
    = log st ++ [EvWriteFile output_file content; EvPrint text]
    ∧ (text = "Wrote information on " +:+ gostr.fmt_d (SummaryInfo.NumClusters s)
              +:+ " clusters to file " +:+ output_file +:+ "." +:+ gostr.nl
       ∨ ∃ e, text = "Error writing output file " +:+ output_file +:+ ": "
                     +:+ Error e +:+ gostr.nl)).
  { intros content. rewrite bind_run. unfold WriteFile.
    destruct (ioutil_WriteFile _ _ _ _) as [w [e|]]; unfold Printf, emit; cbn [snd log];
      rewrite <- app_assoc; eexists; (split; [reflexivity|]); eauto. }
  destruct (CSV flags) eqn:Hcsv.
  - destruct (Hwrite (CsvBody (csv_body s))) as (text & Hlog & Htext).
    eexists. split; [exact Hlog|]. right. by eexists _, text.
  - destruct (marshal.MarshalIndent s) as [tree|e] eqn:Hm.
    + destruct (Hwrite (JsonBody tree)) as (text & Hlog & Htext).
      eexists. split; [exact Hlog|]. right. eexists _, text. eauto.
    + eexists. split; [reflexivity|]. left. eauto.
Qed.

(** The events of a run that gets its configuration. *)
Lemma main_run_log (flags : Flags) (st : St) (output_file : string) (st1 : St)
    (config : string) (st2 : St) (clusters : ClusterList.t) :
  HELP flags = false → CONFIG_FILE flags ≠ EmptyString →
  FULL flags && CSV flags = false →
  choose_output_file flags st = (output_file, st1) →
  ReadFile (CONFIG_FILE flags) st1 = (inl config, st2) →
  Unmarshal_ClusterList config = inl clusters →
  ∃ loop tail,
    log (main flags st).2
    = log st
      ++ (if (String.length (OUTPUT_FILE flags) =? 0)%nat then [EvNow] else [])
      ++ [EvReadFile (CONFIG_FILE flags);
          EvPrint ("Working from config file: " +:+ CONFIG_FILE flags +:+ gostr.nl)]
      ++ loop ++ tail
    ∧ Forall (fleet_event (elems (ClusterList.Clusters clusters))) loop
    ∧ ((∃ e, tail = [EvPrint ("Error marshalling summary: " +:+ Error e +:+ gostr.nl)])
       ∨ ∃ content text,
           tail = [EvWriteFile output_file content; EvPrint text]
           ∧ (text = "Wrote information on "
                     +:+ gostr.fmt_d (goint.len (elems (ClusterList.Clusters clusters)))
                     +:+ " clusters to file " +:+ output_file +:+ "." +:+ gostr.nl
              ∨ ∃ e, text = "Error writing output file " +:+ output_file +:+ ": "
                            +:+ Error e +:+ gostr.nl)).
Proof.
  intros Hhelp Hcfg Hmode Hout Hread Hparse.
  rewrite (main_loop flags st output_file st1 config st2 clusters) by done.
  set (st3 := emit _ st2).
  destruct (render_and_write_log flags output_file (assemble (FULL flags) clusters st3).1
              (assemble (FULL flags) clusters st3).2) as (tail & Hlog & Htail).
  destruct (assemble_events (FULL flags) clusters st3) as (loop & Hloop & Hall & _).
  destruct (assemble_spec (FULL flags) clusters st3) as (_ & _ & _ & _ & _ & Hn & _).
  exists loop, tail. split; [|split; [done|]].
  - rewrite Hlog, Hloop. unfold st3, emit. cbn [log].
    pose proof (ReadFile_log (CONFIG_FILE flags) st1) as Hr. rewrite Hread in Hr.
    pose proof (choose_output_file_log flags st) as Hc. rewrite Hout in Hc.
    simpl in Hr, Hc. rewrite Hr, Hc. by rewrite <- !app_assoc.
  - destruct Htail as [(_ & e & _ & ->)|(content & text & -> & _ & Htext)]; [eauto|].
    right. exists content, text. split; [done|]. by rewrite <- Hn.
Qed.

(** X13. The order of a run that gets its configuration: the clock is read
    only when no output name was given, then the configuration file, then
    come the events of the cluster loop, and last at most one file is
    written, followed by one closing message.  The file is the output file
    and holds the rendering of the summary the loop assembled, tabular
    with [--csv] and JSON otherwise; when the JSON encoder fails nothing
    is written.  The closing message after a successful write gives the
    number of clusters configured, whether they answered or not. *)
Theorem run_order_of_effects (flags : Flags) (st : St) (output_file : string) (st1 : St)
    (config : string) (st2 : St) (clusters : ClusterList.t) :
  HELP flags = false → CONFIG_FILE flags ≠ EmptyString →
  FULL flags && CSV flags = false →
  choose_output_file flags st = (output_file, st1) →
  ReadFile (CONFIG_FILE flags) st1 = (inl config, st2) →
  Unmarshal_ClusterList config = inl clusters →
  let working := "Working from config file: " +:+ CONFIG_FILE flags +:+ gostr.nl in
  let s := (assemble (FULL flags) clusters (emit (EvPrint working) st2)).1 in
  ∃ loop tail,
    log (main flags st).2
    = log st
      ++ (if (String.length (OUTPUT_FILE flags) =? 0)%nat then [EvNow] else [])
      ++ [EvReadFile (CONFIG_FILE flags); EvPrint working]
      ++ loop ++ tail
    ∧ Forall (fleet_event (elems (ClusterList.Clusters clusters))) loop
    ∧ ((CSV flags = false
        ∧ ∃ e, marshal.MarshalIndent s = inr e
               ∧ tail = [EvPrint ("Error marshalling summary: " +:+ Error e +:+ gostr.nl)])
       ∨ ∃ content text,
           tail = [EvWriteFile output_file content; EvPrint text]
           ∧ (if CSV flags then content = CsvBody (csv_body s)
              else ∃ tree, marshal.MarshalIndent s = inl tree ∧ content = JsonBody tree)
           ∧ (text = "Wrote information on "
                     +:+ gostr.fmt_d (goint.len (elems (ClusterList.Clusters clusters)))
                     +:+ " clusters to file " +:+ output_file +:+ "." +:+ gostr.nl
              ∨ ∃ e, text = "Error writing output file " +:+ output_file +:+ ": "
                            +:+ Error e +:+ gostr.nl)).
Proof.
  intros Hhelp Hcfg Hmode Hout Hread Hparse. cbv zeta.
  rewrite (main_loop flags st output_file st1 config st2 clusters) by done.
  set (st3 := emit _ st2).
  destruct (render_and_write_log flags output_file (assemble (FULL flags) clusters st3).1
              (assemble (FULL flags) clusters st3).2) as (tail & Hlog & Htail).
  destruct (assemble_events (FULL flags) clusters st3) as (loop & Hloop & Hall & _).
  destruct (assemble_spec (FULL flags) clusters st3) as (_ & _ & _ & _ & _ & Hn & _).
  exists loop, tail. split; [|split; [done|]].
  - rewrite Hlog, Hloop. unfold st3, emit. cbn [log].
    pose proof (ReadFile_log (CONFIG_FILE flags) st1) as Hr. rewrite Hread in Hr.
    pose proof (choose_output_file_log flags st) as Hc. rewrite Hout in Hc.
    simpl in Hr, Hc. rewrite Hr, Hc. by rewrite <- !app_assoc.
  - destruct Htail as [Herr|(content & text & -> & Hcontent & Htext)]; [by left|].
    right. exists content, text. split; [done|]. split; [done|]. by rewrite <- Hn.
Qed.

(** X14. A configuration that cannot be read or parsed ends the run with
    one message naming the file and the error: no request is made and no
    file written. *)
Theorem bad_configuration_stops_the_run (flags : Flags) (st : St) (output_file : string)
    (st1 : St) (r : string + GoError) (st2 : St) (err : GoError) :
  HELP flags = false → CONFIG_FILE flags ≠ EmptyString →
  FULL flags && CSV flags = false →
  choose_output_file flags st = (output_file, st1) →
  ReadFile (CONFIG_FILE flags) st1 = (r, st2) →
  configuration r = inr err →
  printed (log (main flags st).2)
  = printed (log st)
    ++ [(match r with
         | inr _ => "Error reading configuration file "
         | inl _ => "Error parsing configuration file "
         end) +:+ CONFIG_FILE flags +:+ ": " +:+ Error err +:+ gostr.nl +:+ gostr.nl]
  ∧ requested (log (main flags st).2) = requested (log st)
  ∧ written (log (main flags st).2) = written (log st).
Proof.
  intros Hhelp Hcfg Hmode Hout Hread Herr.
  pose proof (ReadFile_log (CONFIG_FILE flags) st1) as Hr. rewrite Hread in Hr.
  pose proof (choose_output_file_log flags st) as Hc. rewrite Hout in Hc.
  simpl in Hr, Hc.
  assert (Hlog : ∀ text,
    log (emit (EvPrint text) st2)
    = log st ++ (if (String.length (OUTPUT_FILE flags) =? 0)%nat then [EvNow] else [])
      ++ [EvReadFile (CONFIG_FILE flags); EvPrint text]).
  { intros text. unfold emit. cbn [log]. rewrite Hr, Hc. by rewrite <- !app_assoc. }
  assert (Hfacts : ∀ text,
    printed (log (emit (EvPrint text) st2)) = printed (log st) ++ [text]
    ∧ requested (log (emit (EvPrint text) st2)) = requested (log st)
    ∧ written (log (emit (EvPrint text) st2)) = written (log st)).
  { intros text. rewrite Hlog. unfold printed, requested, written. rewrite !omap_app.
    destruct (String.length (OUTPUT_FILE flags) =? 0)%nat; simpl; by rewrite !app_nil_r. }
  unfold main. rewrite Hhelp, Hmode.
  destruct (CONFIG_FILE flags) as [|c cfg] eqn:Ecfg; [done|].
  cbn [orb String.length Nat.eqb]. rewrite bind_run, Hout, bind_run, Hread.
  destruct r as [config|e].
  - simpl in Herr. rewrite Herr. unfold Printf. cbn [snd]. apply Hfacts.
  - simpl in Herr. injection Herr as ->. unfold Printf. cbn [snd]. apply Hfacts.
Qed.

(** X15. With [--help], or without a configuration file, the run prints
    the usage text and does nothing else, whatever the other flags are. *)
Theorem usage_and_nothing_else (flags : Flags) (st : St) :
  HELP flags = true ∨ CONFIG_FILE flags = EmptyString →
  (main flags st).2 = {| world := world st; log := log st ++ map EvPrint usage |}.
Proof.
  intros Hcase. unfold main.
  assert (HELP flags || (String.length (CONFIG_FILE flags) =? 0)%nat = true) as ->.
  { destruct Hcase as [->| ->]; [done|]. by rewrite orb_true_r. }
  by rewrite print_all_run.
Qed.

Lemma not_no_config_message (c : ascii) (text : string) :
  c ≠ "Y"%char → String c text ≠ no_config_message.
Proof.
  intros Hc Heq. apply Hc.
  apply (f_equal (λ t, match t with String a _ => a | EmptyString => c end)) in Heq.
  exact Heq.
Qed.

Lemma print_not_no_config_message (c : ascii) (text : string) :
  c ≠ "Y"%char → EvPrint no_config_message ≠ EvPrint (String c text).
Proof.
  intros Hc Heq. apply (not_no_config_message c text Hc).
  apply (f_equal (λ e, match e with EvPrint t => t | _ => EmptyString end)) in Heq.
  symmetry. exact Heq.
Qed.

Lemma usage_not_no_config_message : no_config_message ∉ usage.
Proof.
  intros Hin. unfold usage in Hin.
  repeat (apply elem_of_cons in Hin as [Heq|Hin];
          [symmetry in Heq; revert Heq; by apply not_no_config_message|]).
  by apply elem_of_nil in Hin.
Qed.

Lemma fleet_event_not_no_config_message clusters e :
  fleet_event clusters e → e ≠ EvPrint no_config_message.
Proof.
  intros (cluster & node & _ & _ & Hev) ->. simpl in Hev.
  destruct Hev as (err & [Heq|Heq]); symmetry in Heq; revert Heq;
    by apply not_no_config_message.
Qed.

(** X16. The second test of the configuration file's name can never hold:
    no run prints its message, the one that a configuration file must be
    specified. *)
Theorem second_configuration_test_is_dead (flags : Flags) (st : St) :
  ∃ new,
    log (main flags st).2 = log st ++ new
    ∧ EvPrint no_config_message ∉ new.
Proof.
  destruct (HELP flags || (String.length (CONFIG_FILE flags) =? 0)%nat) eqn:Hfirst.
  { exists (map EvPrint usage). unfold main. rewrite Hfirst, print_all_run.
    split; [done|]. intros (text & [= <-] & Hin)%list_elem_of_fmap.
    by apply usage_not_no_config_message. }
  apply orb_false_iff in Hfirst as [Hhelp Hlen].
  assert (Hcfg : CONFIG_FILE flags ≠ EmptyString).
  { intros Heq. by rewrite Heq in Hlen. }
  destruct (FULL flags && CSV flags) eqn:Hmode.
  { exists [EvPrint csv_conflict_message]. unfold main.
    rewrite Hhelp, Hlen, Hmode. split; [done|].
    intros [Heq|Hin%elem_of_nil]%elem_of_cons; [|done].
    revert Heq. by apply print_not_no_config_message. }
  destruct (choose_output_file flags st) as [output_file st1] eqn:Hout.
  destruct (ReadFile (CONFIG_FILE flags) st1) as [r st2] eqn:Hread.
  pose proof (ReadFile_log (CONFIG_FILE flags) st1) as Hr. rewrite Hread in Hr.
  pose proof (choose_output_file_log flags st) as Hc. rewrite Hout in Hc.
  simpl in Hr, Hc.
  assert (Hclock : EvPrint no_config_message
                   ∉ (if (String.length (OUTPUT_FILE flags) =? 0)%nat
                      then [EvNow] else [])).
  { destruct (String.length (OUTPUT_FILE flags) =? 0)%nat.
    - by intros ?%list_elem_of_singleton.
    - by intros ?%elem_of_nil. }
  assert (Hone : ∀ c text, c ≠ "Y"%char →
            EvPrint no_config_message ∉ [EvPrint (String c text)]).
  { intros c text Hne [Heq|Hin%elem_of_nil]%elem_of_cons; [|done].
    by apply (print_not_no_config_message c text). }
  assert (Hread' : ∀ name l, EvPrint no_config_message ∉ l →
            EvPrint no_config_message ∉ EvReadFile name :: l).
  { intros name l Hl [Heq|Hin]%elem_of_cons; done. }
  destruct (configuration r) as [clusters|err] eqn:Hres.
  - destruct r as [config|e]; [|done]. simpl in Hres.
    destruct (main_run_log flags st output_file st1 config st2 clusters)
      as (loop & tail & Hlog & Hall & Htail); try done.
    eexists. split; [exact Hlog|].
    rewrite !not_elem_of_app. split; [done|].
    split; [apply Hread'; by apply Hone|].
    split.
    { intros Hin. rewrite Forall_forall in Hall.
      by eapply fleet_event_not_no_config_message; [apply Hall|]. }
    destruct Htail as [(e & ->)|(content & text & -> & Htext)].
    + by apply Hone.
    + intros [Heq|Hin]%elem_of_cons; [done|]. revert Hin.
      destruct Htext as [->|(e & ->)]; by apply Hone.
  - exists ((if (String.length (OUTPUT_FILE flags) =? 0)%nat then [EvNow] else [])
            ++ [EvReadFile (CONFIG_FILE flags);
                EvPrint ((match r with
                          | inr _ => "Error reading configuration file "
                          | inl _ => "Error parsing configuration file "
                          end) +:+ CONFIG_FILE flags +:+ ": " +:+ Error err
                         +:+ gostr.nl +:+ gostr.nl)]).
    split.
    + unfold main. rewrite Hhelp, Hlen, Hmode. cbn [orb].
      rewrite bind_run, Hout, bind_run, Hread.
      destruct r as [config|e]; simpl in Hres.
      * rewrite Hres. unfold Printf, emit. cbn [snd log]. rewrite Hr, Hc.
        by rewrite <- !app_assoc.
      * injection Hres as ->. unfold Printf, emit. cbn [snd log]. rewrite Hr, Hc.
        by rewrite <- !app_assoc.
    + rewrite !not_elem_of_app. split; [done|].
      apply Hread'. destruct r; by apply Hone.
Qed.

End Further.

(** *** The first version of the program *)

Section FirstVersion.
Context `{Platform}.
Context (decode : body → V1.PoolsDefault.t + GoError).

Lemma V1_node_loop_cons cnum cluster node rest s st :
  V1.node_loop decode cnum cluster (node :: rest) s st =
  match V1.try_node decode cluster node st with
  | (inl (pools, poolsDefaults), st1) => (V1.on_success cnum pools poolsDefaults s, st1)
  | (inr err, st1) => V1.node_loop decode cnum cluster rest s st1
  end.
Proof.
  cbn [V1.node_loop]. unfold V1.try_node. rewrite !bind_run.
  destruct (GetPoolsData _ st) as [[pools|err] st1]; [|reflexivity].
  rewrite !bind_run.
  destruct (V1.GetPoolsDefaultData decode _ st1) as [[poolsDefaults|err] st2]; reflexivity.
Qed.

Lemma V1_count_both_fst nodes nv fl :
  (V1.count_both nodes nv fl).1 = V1.count_fleet nodes nv.
Proof.
  unfold V1.count_both, V1.count_fleet. revert nv fl.
  induction nodes as [|n nodes IH]; intros nv fl; [done|]. simpl. apply IH.
Qed.

Lemma V1_count_both_snd nodes nv fl :
  (V1.count_both nodes nv fl).2 = V1.count_fleet nodes fl.
Proof.
  unfold V1.count_both, V1.count_fleet. revert nv fl.
  induction nodes as [|n nodes IH]; intros nv fl; [done|]. simpl. apply IH.
Qed.

Lemma V1_on_success_outcome cnum pools poolsDefaults s :
  V1.on_success cnum pools poolsDefaults s
  = V1.apply_outcome cnum (V1.Answered pools poolsDefaults) s.
Proof.
  unfold V1.on_success, V1.apply_outcome, V1.slot_of, V1.outcome_infos.
  set (infos := elems (V1.PoolsDefault.Nodes poolsDefaults)).
  pose proof (V1_count_both_fst infos ∅ (V1.SummaryInfo.NodeVersions s)) as H1.
  pose proof (V1_count_both_snd infos ∅ (V1.SummaryInfo.NodeVersions s)) as H2.
  destruct (V1.count_both infos ∅ _) as [nv fl]. simpl in *. by subst.
Qed.

Lemma V1_node_loop_polls cnum cluster nodes : ∀ cerr s st,
  ∃ tried o st',
    V1.polls decode cluster nodes cerr st tried o st'
    ∧ V1.node_loop decode cnum cluster nodes s st = (V1.apply_outcome cnum o s, st').
Proof.
  induction nodes as [|node rest IH]; intros cerr s st.
  - exists [], (V1.AllFailed cerr), st. split; [constructor|]. by destruct s.
  - rewrite V1_node_loop_cons.
    destruct (V1.try_node decode cluster node st)
      as [[[pools poolsDefaults]|err] st1] eqn:Htry.
    + exists [node], (V1.Answered pools poolsDefaults), st1.
      split; [by constructor|]. by rewrite V1_on_success_outcome.
    + destruct (IH (Some err) s st1) as (tried & o & st' & Hp & Hrun).
      exists (node :: tried), o, st'. split; [by econstructor|done].
Qed.

Lemma V1_cluster_loop_spec clusters : ∀ cnum s st,
  ∃ os st',
    V1.fleet_polls decode clusters st os st'
    ∧ V1.cluster_loop decode cnum clusters s st = (V1.apply_outcomes cnum os s, st').
Proof.
  induction clusters as [|cluster rest IH]; intros cnum s st.
  - exists [], st. split; [constructor|done].
  - cbn [V1.cluster_loop]. rewrite bind_run.
    destruct (V1_node_loop_polls cnum cluster (elems (Cluster.Nodes cluster)) None s st)
      as (tried & o & st1 & Hp & ->).
    destruct (IH (S cnum) (V1.apply_outcome cnum o s) st1) as (os & st2 & Hf & ->).
    exists (o :: os), st2. split; [by econstructor|done].
Qed.

Lemma V1_fleet_polls_length clusters st os st' :
  V1.fleet_polls decode clusters st os st' → length os = length clusters.
Proof. induction 1; simpl; congruence. Qed.

Lemma V1_fleet_polls_lookup clusters st os st' :
  V1.fleet_polls decode clusters st os st' →
  ∀ i cluster o, clusters !! i = Some cluster → os !! i = Some o →
  ∃ sta tried stb,
    V1.polls decode cluster (elems (Cluster.Nodes cluster)) None sta tried o stb.
Proof.
  induction 1 as [|cluster rest st tried o st1 os st2 Hp Hf IH]; intros i c o' Hc Ho.
  - done.
  - destruct i as [|i]; simpl in *.
    + injection Hc as <-. injection Ho as <-. eauto.
    + eauto.
Qed.

Lemma V1_apply_outcomes_slots : ∀ os cnum s done,
  V1.SummaryInfo.Clusters s = done ++ replicate (length os) V1.zero_ClusterSummary →
  length done = cnum →
  V1.SummaryInfo.Clusters (V1.apply_outcomes cnum os s) = done ++ map V1.slot_of os.
Proof.
  induction os as [|o os IH]; intros cnum s done Hcl Hdone.
  - simpl in *. done.
  - cbn [V1.apply_outcomes map].
    rewrite (IH (S cnum) _ (done ++ [V1.slot_of o])).
    + by rewrite <- app_assoc.
    + unfold V1.apply_outcome. cbn [V1.SummaryInfo.Clusters]. rewrite Hcl.
      cbn [length replicate]. destruct o as [pools poolsDefaults|last].
      * rewrite insert_app_r_alt by lia. rewrite Hdone, Nat.sub_diag. simpl.
        by rewrite <- app_assoc.
      * simpl. by rewrite <- app_assoc.
    + rewrite length_app. simpl. lia.
Qed.

Lemma V1_apply_outcomes_NumClusters : ∀ os cnum s,
  V1.SummaryInfo.NumClusters (V1.apply_outcomes cnum os s) = V1.SummaryInfo.NumClusters s.
Proof.
  induction os as [|o os IH]; intros cnum s; [done|].
  cbn [V1.apply_outcomes]. by rewrite IH.
Qed.

Lemma V1_assemble_spec clusters st :
  ∃ os st',
    V1.fleet_polls decode (elems (ClusterList.Clusters clusters)) st os st'
    ∧ (V1.assemble decode clusters st).2 = st'
    ∧ V1.SummaryInfo.Clusters (V1.assemble decode clusters st).1 = map V1.slot_of os
    ∧ (V1.assemble decode clusters st).1
      = V1.apply_outcomes 0 os (V1.new_summary clusters).
Proof.
  unfold V1.assemble.
  destruct (V1_cluster_loop_spec (elems (ClusterList.Clusters clusters)) 0%nat
              (V1.new_summary clusters) st) as (os & st' & Hf & ->).
  exists os, st'. split; [done|]. split; [done|]. split; [|done]. cbn [fst].
  rewrite (V1_apply_outcomes_slots os 0%nat _ []); [done| |done].
  simpl. by rewrite (V1_fleet_polls_length _ _ _ _ Hf).
Qed.

Lemma V1_assemble_NumClusters clusters st :
  V1.SummaryInfo.NumClusters (V1.assemble decode clusters st).1
  = goint.len (elems (ClusterList.Clusters clusters)).
Proof.
  destruct (V1_assemble_spec clusters st) as (os & st' & _ & _ & _ & ->).
  by rewrite V1_apply_outcomes_NumClusters.
Qed.

(** X18. The first version has no error records: the slot of a cluster
    none of whose nodes answers is left as [make] created it, all fields
    zero, and is written out as such, with [null] for its histogram and
    its nodes; the slot of a cluster that answered holds the payloads of
    the node that did. *)
Theorem first_version_leaves_failed_clusters_blank (clusters : ClusterList.t) (st : St)
    (i : nat) (cluster : Cluster.t) :
  elems (ClusterList.Clusters clusters) !! i = Some cluster →
  ∃ sta tried o stb,
    V1.polls decode cluster (elems (Cluster.Nodes cluster)) None sta tried o stb
    ∧ V1.SummaryInfo.Clusters (V1.assemble decode clusters st).1 !! i
      = Some (V1.slot_of o)
    ∧ (∀ last, o = V1.AllFailed last →
         V1.slot_of o = V1.zero_ClusterSummary
         ∧ json_field "nodeVersions" (V1.marshal_ClusterSummary (V1.slot_of o)) = Some JNull
         ∧ json_field "nodes" (V1.marshal_ClusterSummary (V1.slot_of o)) = Some JNull
         ∧ json_field "nodeCount" (V1.marshal_ClusterSummary (V1.slot_of o))
           = Some (JInt 0)).
Proof.
  intros Hi.
  destruct (V1_assemble_spec clusters st) as (os & st' & Hf & _ & Hc & _).
  destruct (lookup_lt_is_Some_2 os i) as [o Ho].
  { rewrite (V1_fleet_polls_length _ _ _ _ Hf). by eapply lookup_lt_Some. }
  destruct (V1_fleet_polls_lookup _ _ _ _ Hf i cluster o Hi Ho) as (sta & tried & stb & Hp).
  exists sta, tried, o, stb. split; [done|]. split.
  - rewrite Hc, list_lookup_fmap, Ho. done.
  - intros last ->. done.
Qed.

(** *** The two versions side by side *)

Lemma V1_GetPoolsDefaultData_agree r st :
  decoders_agree decode →
  V1.GetPoolsDefaultData decode r st
  = (match (GetPoolsDefaultData r st).1 with
     | inl d => inl (payload_without_cores d)
     | inr err => inr err
     end, (GetPoolsDefaultData r st).2).
Proof.
  intros Hagree. unfold V1.GetPoolsDefaultData, GetPoolsDefaultData. rewrite !bind_run.
  destruct (executeGet r _ st) as [[resp|err] st1]; [|done].
  rewrite Hagree. by destruct (Decode_PoolsDefault (Body resp)).
Qed.

Lemma V1_try_node_agree cluster node st :
  decoders_agree decode →
  V1.try_node decode cluster node st
  = (match (try_node cluster node st).1 with
     | inl (pools, d) => inl (pools, payload_without_cores d)
     | inr err => inr err
     end, (try_node cluster node st).2).
Proof.
  intros Hagree. unfold V1.try_node, try_node. rewrite !bind_run.
  destruct (GetPoolsData _ st) as [[pools|err] st1]; [|done].
  rewrite !bind_run, V1_GetPoolsDefaultData_agree by done.
  by destruct (GetPoolsDefaultData _ st1) as [[d|err] st2].
Qed.

Lemma V1_polls_agree cluster nodes cerr st tried o st' :
  decoders_agree decode →
  polls cluster nodes cerr st tried o st' →
  V1.polls decode cluster nodes cerr st tried (outcome_without_cores o) st'.
Proof.
  intros Hagree.
  induction 1 as [| node rest cerr st pools poolsDefaults st1 Htry
                  |node rest cerr st err st1 tried o st2 Htry Hp IH].
  - constructor.
  - apply V1.polls_answer. by rewrite V1_try_node_agree, Htry.
  - eapply V1.polls_fail; [|done]. by rewrite V1_try_node_agree, Htry.
Qed.

Lemma V1_polls_det cluster nodes cerr st tried1 o1 st1 :
  V1.polls decode cluster nodes cerr st tried1 o1 st1 →
  ∀ tried2 o2 st2, V1.polls decode cluster nodes cerr st tried2 o2 st2 →
  tried1 = tried2 ∧ o1 = o2 ∧ st1 = st2.
Proof.
  induction 1 as [| |node rest cerr st err st1 tried o st2 Htry Hp IH];
    intros tried2 o2 st2' Hp2; inversion Hp2; subst; try done; try congruence.
  { split; [done|]. split; congruence. }
  match goal with
  | Ha : V1.try_node _ _ _ _ = (inr ?e, ?s), Hb : V1.polls _ _ _ (Some ?e) ?s _ _ _ |- _ =>
      rewrite Htry in Ha; injection Ha as <- <-;
      destruct (IH _ _ _ Hb) as (-> & -> & ->)
  end. done.
Qed.

Lemma V1_fleet_polls_agree clusters st os st' :
  decoders_agree decode →
  fleet_polls clusters st os st' →
  V1.fleet_polls decode clusters st (map outcome_without_cores os) st'.
Proof.
  intros Hagree. induction 1 as [|cluster rest st tried o st1 os st2 Hp Hf IH].
  - constructor.
  - simpl. econstructor; [|done]. by apply V1_polls_agree.
Qed.

Lemma V1_fleet_polls_det clusters st os1 st1 :
  V1.fleet_polls decode clusters st os1 st1 →
  ∀ os2 st2, V1.fleet_polls decode clusters st os2 st2 → os1 = os2 ∧ st1 = st2.
Proof.
  induction 1 as [|cluster rest st tried o st1 os st2 Hp Hf IH]; intros os2 st2' Hf2;
    inversion Hf2; subst; [done|].
  match goal with
  | Ha : V1.polls _ _ _ None st _ _ _, Hb : V1.fleet_polls _ rest _ _ st2' |- _ =>
      destruct (V1_polls_det _ _ _ _ _ _ _ Hp _ _ _ Ha) as (_ & -> & ->);
      destruct (IH _ _ Hb) as [-> ->]
  end. done.
Qed.

Lemma V1_count_fleet_without_cores infos m :
  V1.count_fleet (map without_cores infos) m = count_fleet infos m.
Proof.
  unfold V1.count_fleet, count_fleet. revert m.
  induction infos as [|n infos IH]; intros m; [done|]. simpl. apply IH.
Qed.

Lemma outcome_infos_without_cores o :
  V1.outcome_infos (outcome_without_cores o) = map without_cores (outcome_infos o).
Proof.
  destruct o as [pools d|last]; [|done]. simpl.
  by destruct (PoolsDefault.Nodes d).
Qed.

(** The counts of the two versions go the same way. *)
Lemma V1_apply_outcomes_counts FULL : ∀ clusters os cnum s1 s,
  length os = length clusters →
  V1.SummaryInfo.NumClusters s1 = SummaryInfo.NumClusters s →
  V1.SummaryInfo.TotalNumNodes s1 = SummaryInfo.TotalNumNodes s →
  V1.SummaryInfo.NodeVersions s1 = SummaryInfo.NodeVersions s →
  V1.SummaryInfo.NumClusters (V1.apply_outcomes cnum (map outcome_without_cores os) s1)
  = SummaryInfo.NumClusters (apply_outcomes FULL cnum clusters os s)
  ∧ V1.SummaryInfo.TotalNumNodes (V1.apply_outcomes cnum (map outcome_without_cores os) s1)
    = SummaryInfo.TotalNumNodes (apply_outcomes FULL cnum clusters os s)
  ∧ V1.SummaryInfo.NodeVersions (V1.apply_outcomes cnum (map outcome_without_cores os) s1)
    = SummaryInfo.NodeVersions (apply_outcomes FULL cnum clusters os s).
Proof.
  induction clusters as [|cluster rest IH]; intros [|o os] cnum s1 s Hlen Hn Ht Hv;
    try discriminate; [done|].
  cbn [V1.apply_outcomes apply_outcomes map]. apply IH.
  - simpl in Hlen. lia.
  - done.
  - unfold V1.apply_outcome, apply_outcome. cbn [V1.SummaryInfo.TotalNumNodes
      SummaryInfo.TotalNumNodes]. rewrite Ht.
    destruct o as [pools d|last]; [|done]. simpl.
    f_equal. unfold goint.len. destruct (PoolsDefault.Nodes d); simpl; [done|].
    by rewrite length_map.
  - unfold V1.apply_outcome, apply_outcome. cbn [V1.SummaryInfo.NodeVersions
      SummaryInfo.NodeVersions].
    by rewrite outcome_infos_without_cores, V1_count_fleet_without_cores, Hv.
Qed.

Lemma v1_slot_record cluster o :
  v1_slot (record_of true cluster o) = V1.slot_of (outcome_without_cores o).
Proof.
  destruct o as [pools d|last]; [|done].
  cbn [record_of v1_slot full_record outcome_without_cores V1.slot_of
       ClusterSummary.ImplementationVersion ClusterSummary.IsEnterprise ClusterSummary.Uuid
       ClusterSummary.Balanced ClusterSummary.ClusterName ClusterSummary.FtsMemoryQuota
       ClusterSummary.IndexMemoryQuota ClusterSummary.MemoryQuota ClusterSummary.Name
       ClusterSummary.NodeCount ClusterSummary.NodeVersions ClusterSummary.Nodes
       ClusterSummary.RebalanceStatus ClusterSummary.StorageTotals].
  pose proof (outcome_infos_without_cores (Answered pools d)) as Hinfos.
  cbn [outcome_without_cores V1.outcome_infos outcome_infos] in Hinfos.
  rewrite Hinfos, V1_count_fleet_without_cores. unfold goint.len. rewrite length_map.
  reflexivity.
Qed.

(** X19. When the decoder of the first version agrees with the later one
    up to the core counts, the later version's full report extends the
    first version's: on the same configuration and the same world both
    make the same requests and print the same messages, count the same
    clusters, nodes and versions, and each slot of the first version
    holds the fields of the later full record, its nodes without their
    core count, or the zero value where the later version has an error
    record. *)
Theorem full_report_extends_first_version (clusters : ClusterList.t) (st : St) :
  decoders_agree decode →
  (V1.assemble decode clusters st).2 = (assemble true clusters st).2
  ∧ V1.SummaryInfo.NumClusters (V1.assemble decode clusters st).1
    = SummaryInfo.NumClusters (assemble true clusters st).1
  ∧ V1.SummaryInfo.TotalNumNodes (V1.assemble decode clusters st).1
    = SummaryInfo.TotalNumNodes (assemble true clusters st).1
  ∧ V1.SummaryInfo.NodeVersions (V1.assemble decode clusters st).1
    = SummaryInfo.NodeVersions (assemble true clusters st).1
  ∧ V1.SummaryInfo.Clusters (V1.assemble decode clusters st).1
    = map v1_slot (SummaryInfo.Clusters (assemble true clusters st).1).
Proof.
  intros Hagree.
  destruct (V1_assemble_spec clusters st) as (os1 & st1 & Hf1 & Hst & Hc & Hrun).
  destruct (assemble_spec true clusters st) as (os & st' & Hf & Hst' & Hc' & _).
  pose proof (V1_fleet_polls_agree _ _ _ _ Hagree Hf) as Hf2.
  destruct (V1_fleet_polls_det _ _ _ _ Hf1 _ _ Hf2) as [-> ->].
  split; [congruence|].
  assert (Hnew : (assemble true clusters st).1
                 = apply_outcomes true 0 (elems (ClusterList.Clusters clusters)) os
                     (new_summary clusters)).
  { unfold assemble.
    destruct (cluster_loop_spec true (elems (ClusterList.Clusters clusters)) 0%nat
                (new_summary clusters) st) as (os2 & st2 & Hf3 & ->).
    destruct (fleet_polls_det _ _ _ _ Hf _ _ Hf3) as [<- _]. done. }
  destruct (V1_apply_outcomes_counts true (elems (ClusterList.Clusters clusters)) os 0%nat
              (V1.new_summary clusters) (new_summary clusters))
    as (Hn & Ht & Hv); [by eapply fleet_polls_length|done..|].
  rewrite <- Hrun, <- Hnew in Hn, Ht, Hv.
  split; [done|]. split; [done|]. split; [done|].
  rewrite Hc, Hc'.
  pose proof (fleet_polls_length _ _ _ _ Hf) as Hlen. clear -Hlen.
  revert Hlen. generalize (elems (ClusterList.Clusters clusters)) as cs.
  induction os as [|o os IH]; intros [|c cs] Hlen; try discriminate; [done|].
  cbn [zip_with map]. rewrite v1_slot_record. f_equal. apply IH. simpl in Hlen. lia.
Qed.

End FirstVersion.

Section FirstVersionRun.
Context `{Platform}.
Context (decode : body → V1.PoolsDefault.t + GoError).

Lemma V1_choose_output_file_log flags st :
  log (V1.choose_output_file flags st).2
  = log st ++ (if (String.length (V1.OUTPUT_FILE flags) =? 0)%nat then [EvNow] else []).
Proof.
  unfold V1.choose_output_file. case_match.
  - rewrite bind_run. unfold Now. by destruct (time_Now (world st)).
  - simpl. by rewrite app_nil_r.
Qed.

Lemma V1_GetPoolsDefaultData_events r st :
  ∃ new, log (V1.GetPoolsDefaultData decode r st).2 = log st ++ new
         ∧ (new = []
            ∨ new = [EvHttp {| Method := "GET"; URL := host r +:+ "/pools/default";
                               BasicAuth := Some (username r, password r) |}]).
Proof.
  unfold V1.GetPoolsDefaultData. rewrite bind_run.
  destruct (executeGet_events r (host r +:+ "/pools/default") st) as (new & Hlog & Hnew).
  exists new. split; [|done].
  destruct (executeGet r _ st) as [[resp|err] st1]; simpl in *; [|done].
  by destruct (decode (Body resp)).
Qed.

Lemma V1_try_node_events cluster node st :
  ∃ new, log (V1.try_node decode cluster node st).2 = log st ++ new
         ∧ Forall (node_event cluster node) new.
Proof.
  unfold V1.try_node. rewrite bind_run.
  set (client := CreateRestClient node (Cluster.Login cluster) (Cluster.Pass cluster)).
  destruct (GetPoolsData_events client st) as (new1 & Hlog1 & Hnew1).
  destruct (one_request_facts cluster node "/pools" new1) as (Hev1 & _);
    [by left|exact Hnew1|].
  destruct (GetPoolsData client st) as [[pools|err] st1]; simpl in Hlog1.
  - rewrite bind_run.
    destruct (V1_GetPoolsDefaultData_events client st1) as (new2 & Hlog2 & Hnew2).
    destruct (one_request_facts cluster node "/pools/default" new2) as (Hev2 & _);
      [by right|exact Hnew2|].
    destruct (V1.GetPoolsDefaultData decode client st1) as [[poolsDefaults|err] st2];
      simpl in Hlog2.
    + exists (new1 ++ new2). simpl. rewrite Hlog2, Hlog1, <- app_assoc.
      split; [done|]. by apply Forall_app.
    + exists (new1 ++ new2 ++ [EvPrint (pools_default_failure_text node err)]).
      simpl. rewrite Hlog2, Hlog1, <- !app_assoc. split; [done|].
      apply Forall_app; split; [done|]. apply Forall_app; split; [done|].
      constructor; [|done]. exists err. by right.
  - exists (new1 ++ [EvPrint (pools_failure_text node err)]).
    simpl. rewrite Hlog1, <- !app_assoc. split; [done|].
    apply Forall_app; split; [done|]. constructor; [|done]. exists err. by left.
Qed.

Lemma V1_polls_events cluster nodes cerr st tried o st' :
  V1.polls decode cluster nodes cerr st tried o st' →
  ∃ new, log st' = log st ++ new
         ∧ Forall (λ e, ∃ node, node ∈ nodes ∧ node_event cluster node e) new.
Proof.
  induction 1 as [| node rest cerr st pools poolsDefaults st1 Htry
                  |node rest cerr st err st1 tried o st2 Htry Hp (new & Hlog & Hall)].
  - exists []. rewrite app_nil_r. done.
  - destruct (V1_try_node_events cluster node st) as (new & Hlog & Hall).
    rewrite Htry in Hlog. exists new. split; [done|].
    eapply Forall_impl; [done|]. intros e He. exists node. split; [|done].
    apply list_elem_of_here.
  - destruct (V1_try_node_events cluster node st) as (new1 & Hlog1 & Hall1).
    rewrite Htry in Hlog1. simpl in Hlog1.
    exists (new1 ++ new). rewrite Hlog, Hlog1, <- app_assoc. split; [done|].
    apply Forall_app. split.
    + eapply Forall_impl; [done|]. intros e He. exists node. split; [|done].
      apply list_elem_of_here.
    + eapply Forall_impl; [done|]. intros e (n & Hn & He). exists n. split; [|done].
      by apply list_elem_of_further.
Qed.

Lemma V1_fleet_polls_events clusters st os st' :
  V1.fleet_polls decode clusters st os st' →
  ∃ new, log st' = log st ++ new ∧ Forall (fleet_event clusters) new.
Proof.
  induction 1 as [|cluster rest st tried o st1 os st2 Hp Hf (new & Hlog & Hall)].
  - exists []. rewrite app_nil_r. done.
  - destruct (V1_polls_events _ _ _ _ _ _ _ Hp) as (new1 & Hlog1 & Hall1).
    exists (new1 ++ new). rewrite Hlog, Hlog1, <- app_assoc. split; [done|].
    apply Forall_app. split.
    + eapply Forall_impl; [done|]. intros e (node & Hnode & He).
      exists cluster, node. split; [apply list_elem_of_here|done].
    + eapply Forall_impl; [done|]. intros e (c & node & Hc & Hnode & He).
      exists c, node. split; [by apply list_elem_of_further|done].
Qed.

Lemma V1_assemble_events clusters st :
  ∃ new, log (V1.assemble decode clusters st).2 = log st ++ new
         ∧ Forall (fleet_event (elems (ClusterList.Clusters clusters))) new.
Proof.
  destruct (V1_assemble_spec decode clusters st) as (os & st' & Hf & -> & _).
  by eapply V1_fleet_polls_events.
Qed.

(** X20. The order of a run of the first version that gets its
    configuration: the clock is read only when no output name was given,
    the configuration file is announced and then read, then come the
    events of the cluster loop, and last the report is written as JSON,
    followed by one closing message; when the encoder fails nothing is
    written. *)
Theorem first_version_run_order (flags : V1.Flags) (st : St) (output_file : string)
    (st1 : St) (config : string) (st2 : St) (clusters : ClusterList.t) :
  V1.HELP flags = false → V1.CONFIG_FILE flags ≠ EmptyString →
  V1.choose_output_file flags st = (output_file, st1) →
  ReadFile (V1.CONFIG_FILE flags)
    (emit (EvPrint ("Using config file: " +:+ V1.CONFIG_FILE flags +:+ gostr.nl)) st1)
  = (inl config, st2) →
  Unmarshal_ClusterList config = inl clusters →
  ∃ loop tail,
    log (V1.main decode flags st).2
    = log st
      ++ (if (String.length (V1.OUTPUT_FILE flags) =? 0)%nat then [EvNow] else [])
      ++ [EvPrint ("Using config file: " +:+ V1.CONFIG_FILE flags +:+ gostr.nl);
          EvReadFile (V1.CONFIG_FILE flags)]
      ++ loop ++ tail
    ∧ Forall (fleet_event (elems (ClusterList.Clusters clusters))) loop
    ∧ match V1.MarshalIndent (V1.assemble decode clusters st2).1 with
      | inr e => tail = [EvPrint ("Error marshalling summary: " +:+ Error e +:+ gostr.nl)]
      | inl tree =>
          ∃ text,
            tail = [EvWriteFile output_file (JsonBody tree); EvPrint text]
            ∧ (text = "Wrote information on "
                      +:+ gostr.fmt_d (goint.len (elems (ClusterList.Clusters clusters)))
                      +:+ " clusters to file " +:+ output_file +:+ "." +:+ gostr.nl
               ∨ ∃ e, text = "Error writing output file " +:+ output_file +:+ ": "
                             +:+ Error e +:+ gostr.nl)
      end.
Proof.
  intros Hhelp Hcfg Hout Hread Hparse.
  pose proof (V1_choose_output_file_log flags st) as Hc. rewrite Hout in Hc.
  pose proof (ReadFile_log (V1.CONFIG_FILE flags)
                (emit (EvPrint ("Using config file: " +:+ V1.CONFIG_FILE flags
                                +:+ gostr.nl)) st1)) as Hr.
  rewrite Hread in Hr. simpl in Hc, Hr.
  destruct (V1_assemble_events clusters st2) as (loop & Hloop & Hall).
  pose proof (V1_assemble_NumClusters decode clusters st2) as Hn.
  unfold V1.main. rewrite Hhelp.
  destruct (V1.CONFIG_FILE flags) as [|c cfg] eqn:Ecfg; [done|].
  cbn [orb String.length Nat.eqb].
  rewrite bind_run, Hout, bind_run. unfold Printf at 1. rewrite bind_run, Hread, Hparse.
  rewrite bind_run.
  destruct (V1.assemble decode clusters st2) as [s st3] eqn:Hrun. cbn [fst snd] in *.
  exists loop.
  destruct (V1.MarshalIndent s) as [tree|e].
  - rewrite bind_run. unfold WriteFile.
    destruct (ioutil_WriteFile _ _ _ _) as [w [e|]]; unfold Printf, emit; cbn [snd log];
      eexists; (split; [rewrite Hloop, Hr, Hc, <- !app_assoc; simpl; reflexivity|]);
      (split; [done|]); eexists; (split; [reflexivity|]).
    + right. by exists e.
    + left. by rewrite Hn.
  - unfold Printf, emit. cbn [snd log]. eexists.
    split; [rewrite Hloop, Hr, Hc, <- !app_assoc; simpl; reflexivity|]. done.
Qed.

End FirstVersionRun.

(** *** The test for releases before 6.5 *)

Lemma starts_low_less v : starts_low v → gostr.less v "6.5" = true.
Proof.
  destruct v as [|a rest]; [done|]. intros [Hlt|[-> Hrest]].
  - cbn [gostr.less]. change (N_of_ascii "6") with 54%N.
    by apply N.ltb_lt in Hlt as ->.
  - destruct rest as [|b rest]; [done|].
    destruct (ascii_dec b ".") as [->|Hne]; [|by destruct b as [[] [] [] [] [] [] [] []]].
    destruct rest as [|c rest]; [done|].
    cbn [gostr.less]. change (N_of_ascii "5") with 53%N.
    apply N.ltb_lt in Hrest. by rewrite Hrest.
Qed.

(** X17. The test for releases before 6.5 compares texts byte by byte, so
    it also holds for a version that begins with a byte below ['6'] or
    with ["6."] and a byte below ['5'], such as 10.0.0 and 6.10.0: the
    line of such a node is the tab-joined line with [N/A] as its fifth
    column, the one for the cores, whatever core count the node reported
    (the line is the same for every core count).  When the UUID and the
    host name hold no tab, splitting the line at its tabs gives [N/A]
    back as the fifth field. *)
Theorem later_releases_lose_their_cores (cnum : nat) (cluster : BriefCluster.t)
    (node : BriefNode.t) :
  starts_low (BriefNode.Version node) →
  csv_row cnum cluster node
  = gostr.Join [gostr.fmt_d (Z.of_nat cnum); BriefCluster.UUID cluster;
                gostr.fmt_d (BriefCluster.Size cluster); BriefNode.Name node;
                "N/A"; gostr.fmt_f1 (BriefNode.RAM node)] gostr.tab
    +:+ gostr.nl
  ∧ (∀ cores,
       csv_row cnum cluster
         {| BriefNode.Cores := cores; BriefNode.RAM := BriefNode.RAM node;
            BriefNode.Name := BriefNode.Name node;
            BriefNode.Version := BriefNode.Version node |}
       = csv_row cnum cluster node)
  ∧ (gostr.no_tab (BriefCluster.UUID cluster) = true →
     gostr.no_tab (BriefNode.Name node) = true →
     gostr.split_tabs (csv_row cnum cluster node) !! 4%nat = Some "N/A").
Proof.
  intros Hlow. pose proof (starts_low_less _ Hlow) as Hless.
  split; [|split].
  - by rewrite csv_row_columns, Hless.
  - intros cores. unfold csv_row. cbn [BriefNode.Version BriefNode.Name BriefNode.RAM].
    by rewrite Hless.
  - intros Huuid Hname. rewrite csv_row_split by done. by rewrite Hless.
Qed.

Lemma later_releases_lose_their_cores_demo :
  csv_row 0 Demo.brief_a
    {| BriefNode.Cores := 16; BriefNode.RAM := 64;
       BriefNode.Name := "a5:8091"; BriefNode.Version := "10.0.0" |}
  = gostr.Join ["0"; "4c5a7d2f"; "2"; "a5:8091"; "N/A"; "64.0"] gostr.tab +:+ gostr.nl
  ∧ csv_row 0 Demo.brief_a
      {| BriefNode.Cores := 16; BriefNode.RAM := 64;
         BriefNode.Name := "a6:8091"; BriefNode.Version := "6.10.0" |}
    = gostr.Join ["0"; "4c5a7d2f"; "2"; "a6:8091"; "N/A"; "64.0"] gostr.tab +:+ gostr.nl.
Proof.
  split.
  - refine (proj1 (later_releases_lose_their_cores 0 Demo.brief_a
              {| BriefNode.Cores := 16; BriefNode.RAM := 64;
                 BriefNode.Name := "a5:8091"; BriefNode.Version := "10.0.0" |} _)).
    left. reflexivity.
  - refine (proj1 (later_releases_lose_their_cores 0 Demo.brief_a
              {| BriefNode.Cores := 16; BriefNode.RAM := 64;
                 BriefNode.Name := "a6:8091"; BriefNode.Version := "6.10.0" |} _)).
    right. split; reflexivity.
Defined.

(** *** The further properties on the demonstration fleets *)

Lemma malformed_addresses_make_no_request_demo :
  requests (log (poll_cluster (H := Demo2.platform) false 0 Demo2.cluster_g
                   (new_summary (ClusterList.mk (mk_slice [Demo2.cluster_g])))
                   Demo2.start).2) = [].
Proof.
  refine (proj1 (proj2 (malformed_addresses_make_no_request (H := Demo2.platform)
            false 0 Demo2.cluster_g _ Demo2.start _))).
  repeat constructor; by eexists.
Defined.

Lemma forbidden_without_body_gives_empty_message_demo :
  SummaryInfo.Clusters
    (poll_cluster (H := Demo2.platform) false 0 Demo2.cluster_f
       (new_summary (ClusterList.mk (mk_slice [Demo2.cluster_f]))) Demo2.start).1
  = [ErrorRecord (ClusterError.mk Demo2.cluster_f EmptyString)].
Proof.
  exact (forbidden_without_body_gives_empty_message (H := Demo2.platform) false 0
           Demo2.cluster_f (new_summary (ClusterList.mk (mk_slice [Demo2.cluster_f])))
           Demo2.start [] "http://f1:8091" [] None Demo2.start tt
           (mk_Response 403 (Demo.TextBody "Forbidden")) Demo.syntax_error
           eq_refl (polls_nil _ _ _) eq_refl eq_refl eq_refl eq_refl).
Defined.

Lemma report_shape_follows_mode_demo :
  BriefRecord Demo.brief_a ∈ SummaryInfo.Clusters (assemble false Demo.fleet Demo.start).1
  ∧ ((∃ e, BriefRecord Demo.brief_a = ErrorRecord e)
     ∨ ∃ b, BriefRecord Demo.brief_a = BriefRecord b).
Proof.
  assert (Hin : BriefRecord Demo.brief_a
                ∈ SummaryInfo.Clusters (assemble false Demo.fleet Demo.start).1).
  { vm_compute. constructor. }
  split; [exact Hin|].
  exact (report_shape_follows_mode false Demo.fleet Demo.start _ Hin).
Defined.

Lemma full_record_histogram_demo :
  SummaryInfo.Clusters (assemble true Demo.fleet Demo.start).1 !! 0%nat
  = Some (FullRecord Demo2.full_a)
  ∧ ClusterSummary.NodeCount Demo2.full_a < 2 ^ 63
  ∧ sum_values (ClusterSummary.NodeVersions Demo2.full_a) = 2.
Proof.
  assert (Hi : SummaryInfo.Clusters (assemble true Demo.fleet Demo.start).1 !! 0%nat
               = Some (FullRecord Demo2.full_a)) by (vm_compute; reflexivity).
  assert (Hlt : ClusterSummary.NodeCount Demo2.full_a < 2 ^ 63) by (vm_compute; reflexivity).
  split; [exact Hi|]. split; [exact Hlt|].
  exact (proj1 (proj2 (full_record_histogram true Demo.fleet Demo.start 0 Demo2.full_a Hi Hlt))).
Defined.

Lemma brief_record_lists_reported_nodes_demo :
  SummaryInfo.Clusters (assemble false Demo.fleet Demo.start).1 !! 0%nat
  = Some (BriefRecord Demo.brief_a)
  ∧ BriefCluster.Size Demo.brief_a = goint.len (BriefCluster.Nodes Demo.brief_a).
Proof.
  assert (Hb : SummaryInfo.Clusters (assemble false Demo.fleet Demo.start).1 !! 0%nat
               = Some (BriefRecord Demo.brief_a)) by (vm_compute; reflexivity).
  split; [exact Hb|].
  exact (proj1 (proj2
    (brief_record_lists_reported_nodes false Demo.fleet Demo.start 0 Demo.brief_a Hb))).
Defined.

Lemma csv_has_one_line_per_counted_node_demo :
  total_nodes (SummaryInfo.Clusters (assemble false Demo.fleet Demo.start).1) < 2 ^ 63
  ∧ Z.of_nat (length (csv_rows (assemble false Demo.fleet Demo.start).1))
    = SummaryInfo.TotalNumNodes (assemble false Demo.fleet Demo.start).1.
Proof.
  assert (Hlt : total_nodes (SummaryInfo.Clusters (assemble false Demo.fleet Demo.start).1)
                < 2 ^ 63) by (vm_compute; reflexivity).
  split; [exact Hlt|].
  exact (proj1 (csv_has_one_line_per_counted_node Demo.fleet Demo.start Hlt)).
Defined.

Lemma nodes_after_the_answer_are_irrelevant_demo :
  poll_cluster false 0 Demo2.cluster_a' (new_summary Demo.fleet) Demo.start
  = poll_cluster false 0 Demo.cluster_a (new_summary Demo.fleet) Demo.start.
Proof.
  apply (nodes_after_the_answer_are_irrelevant false 0 Demo.cluster_a Demo2.cluster_a'
           (new_summary Demo.fleet) Demo.start
           ["http://a1:8091"; "http://a2:8091"] ["http://e1:8091"; "http://e3:8091"]
           Demo.pools_a Demo.pools_default_a
           (try_node Demo.cluster_a "http://a2:8091"
              (try_node Demo.cluster_a "http://a1:8091" Demo.start).2).2).
  - eapply polls_fail; [vm_compute; reflexivity|].
    eapply polls_answer. vm_compute. reflexivity.
  - reflexivity.
  - reflexivity.
  - reflexivity.
Defined.

Lemma empty_configuration_demo :
  (assemble true (ClusterList.mk nil_slice) Demo.start).2 = Demo.start
  ∧ csv_body (assemble true (ClusterList.mk nil_slice) Demo.start).1 = csv_header.
Proof.
  destruct (empty_configuration true (ClusterList.mk nil_slice) Demo.start eq_refl)
    as (Hst & Hcsv & _).
  split; [exact Hst|exact Hcsv].
Defined.

Lemma run_order_of_effects_demo :
  ∃ loop tail,
    log (main Demo.brief_csv Demo.start).2
    = [EvReadFile "clusters.json";
       EvPrint ("Working from config file: clusters.json" +:+ gostr.nl)] ++ loop ++ tail
    ∧ Forall (fleet_event (elems (ClusterList.Clusters Demo.fleet))) loop.
Proof.
  assert (Hcfg : CONFIG_FILE Demo.brief_csv ≠ EmptyString) by discriminate.
  destruct (run_order_of_effects Demo.brief_csv Demo.start "out.csv" Demo.start "fleet"
              (ReadFile "clusters.json" Demo.start).2 Demo.fleet
              eq_refl Hcfg eq_refl eq_refl eq_refl eq_refl)
    as (loop & tail & Hlog & Hall & _).
  exists loop, tail. split; [exact Hlog|exact Hall].
Defined.

Lemma bad_configuration_stops_the_run_demo :
  printed (log (main (H := Demo2.platform) Demo2.missing Demo2.start).2)
  = ["Error reading configuration file missing.json: no such file or directory"
     +:+ gostr.nl +:+ gostr.nl]
  ∧ printed (log (main (H := Demo2.platform) Demo2.broken Demo2.start).2)
    = ["Error parsing configuration file broken.json: "
       +:+ "invalid character '<' looking for beginning of value" +:+ gostr.nl +:+ gostr.nl].
Proof.
  assert (Hm : CONFIG_FILE Demo2.missing ≠ EmptyString) by discriminate.
  assert (Hb : CONFIG_FILE Demo2.broken ≠ EmptyString) by discriminate.
  split.
  - exact (proj1 (bad_configuration_stops_the_run (H := Demo2.platform) Demo2.missing
                    Demo2.start "out.json" Demo2.start
                    (inr (lib_error other_library_error "no such file or directory"))
                    (ReadFile (H := Demo2.platform) "missing.json" Demo2.start).2
                    (lib_error other_library_error "no such file or directory")
                    eq_refl Hm eq_refl eq_refl eq_refl eq_refl)).
  - exact (proj1 (bad_configuration_stops_the_run (H := Demo2.platform) Demo2.broken
                    Demo2.start "out.json" Demo2.start (inl "broken.json")
                    (ReadFile (H := Demo2.platform) "broken.json" Demo2.start).2
                    Demo.syntax_error
                    eq_refl Hb eq_refl eq_refl eq_refl eq_refl)).
Defined.

Lemma usage_and_nothing_else_demo :
  (main Demo.help_full_csv Demo.start).2
  = {| world := world Demo.start; log := log Demo.start ++ map EvPrint usage |}.
Proof.
  apply (usage_and_nothing_else Demo.help_full_csv Demo.start). left. reflexivity.
Defined.

Lemma first_version_leaves_failed_clusters_blank_demo :
  elems (ClusterList.Clusters Demo.fleet) !! 1%nat = Some Demo.cluster_b
  ∧ ∃ o, V1.SummaryInfo.Clusters (V1.assemble (H := Demo.platform) Demo2.decode_v1 Demo.fleet Demo.start).1
           !! 1%nat
         = Some (V1.slot_of o).
Proof.
  split; [reflexivity|].
  destruct (first_version_leaves_failed_clusters_blank (H := Demo.platform) Demo2.decode_v1 Demo.fleet
              Demo.start 1 Demo.cluster_b eq_refl)
    as (sta & tried & o & stb & _ & Hslot & _).
  exists o. exact Hslot.
Defined.

Lemma full_report_extends_first_version_demo :
  decoders_agree (H := Demo.platform) Demo2.decode_v1
  ∧ V1.SummaryInfo.Clusters (V1.assemble (H := Demo.platform) Demo2.decode_v1 Demo.fleet Demo.start).1
    = map v1_slot (SummaryInfo.Clusters (assemble true Demo.fleet Demo.start).1).
Proof.
  assert (Hagree : decoders_agree (H := Demo.platform) Demo2.decode_v1).
  { intros b. destruct b; reflexivity. }
  split; [exact Hagree|].
  exact (proj2 (proj2 (proj2 (proj2
    (full_report_extends_first_version (H := Demo.platform) Demo2.decode_v1 Demo.fleet Demo.start Hagree))))).
Defined.

Lemma first_version_run_order_demo :
  ∃ loop tail,
    log (V1.main (H := Demo.platform) Demo2.decode_v1 (V1.mk_Flags "clusters.json" "out.json" false)
           Demo.start).2
    = [EvPrint ("Using config file: clusters.json" +:+ gostr.nl);
       EvReadFile "clusters.json"] ++ loop ++ tail
    ∧ Forall (fleet_event (elems (ClusterList.Clusters Demo.fleet))) loop.
Proof.
  assert (Hcfg : V1.CONFIG_FILE (V1.mk_Flags "clusters.json" "out.json" false)
                 ≠ EmptyString) by discriminate.
  destruct (first_version_run_order (H := Demo.platform) Demo2.decode_v1
              (V1.mk_Flags "clusters.json" "out.json" false)
              Demo.start "out.json" Demo.start "fleet"
              (ReadFile "clusters.json"
                 (emit (EvPrint ("Using config file: clusters.json" +:+ gostr.nl))
                    Demo.start)).2
              Demo.fleet eq_refl Hcfg eq_refl eq_refl eq_refl)
    as (loop & tail & Hlog & Hall & _).
  exists loop, tail. split; [exact Hlog|exact Hall].
Defined.
